(** * GoodSDKs bridging SDK: decimal conversion, fee estimation and SDK calls

    A shallow embedding of [packages/bridging-sdk/src] (utils/decimals.ts,
    utils/fees.ts, utils/tracking.ts, constants.ts and the two variants of
    viem-sdk.ts) with the properties its specification states.

    Conventions: a JavaScript [bigint] is a [Z]; a [number] that the code
    only uses as an integer (chain ids, decimals, lengths) is a [Z]; a
    [number] on which the code computes in floating point is a primitive
    binary64 [float]; a string is a [string]; a JS object used as a
    dictionary is a [gmap]; a function that may throw returns a
    [Completion]. *)

From Stdlib Require Import ZArith NArith String Ascii List Lia.
From Stdlib Require Import Floats Uint63.
From stdpp Require Import base decidable option gmap strings.

Local Open Scope string_scope.
Local Open Scope Z_scope.

(** ** Thrown values and completions *)

(** What a [throw] carries: an [Error] object (with the [name] of its class
    and its [message]), or a value that is not an instance of [Error]. *)
Inductive Thrown : Type :=
  | Err (name message : string)
  | NonError.

(** [error instanceof Error ? error.message : "Unknown error"] *)
Definition errorMessage (e : Thrown) : string :=
  match e with
  | Err _ m => m
  | NonError => "Unknown error"
  end.

Inductive Completion (A : Type) : Type :=
  | Return (a : A)
  | Throw (e : Thrown).
Arguments Return {A} a.
Arguments Throw {A} e.

#[global] Instance Completion_bind : MBind Completion :=
  fun A B (k : A -> Completion B) (c : Completion A) =>
    match c with
    | Return a => k a
    | Throw e => Throw e
    end.

#[global] Instance Completion_ret : MRet Completion := fun A a => Return a.

(** ** The JavaScript primitives the code calls *)
Module Js.

(** [c.repeat(n)] for a one-character string. *)
Fixpoint repeat_char (c : ascii) (n : nat) : string :=
  match n with
  | O => ""
  | S n' => String c (repeat_char c n')
  end.

Definition len (s : string) : Z := Z.of_nat (String.length s).

(** [s.padStart(n, c)] and [s.padEnd(n, c)] with a one-character filler. *)
Definition padStart (s : string) (n : Z) (c : ascii) : string :=
  repeat_char c (Z.to_nat (n - len s)) +:+ s.

Definition padEnd (s : string) (n : Z) (c : ascii) : string :=
  s +:+ repeat_char c (Z.to_nat (n - len s)).

Fixpoint take (n : nat) (s : string) : string :=
  match n, s with
  | S n', String c r => String c (take n' r)
  | _, _ => ""
  end.

(** [s.slice(0, e)]: a negative [e] counts from the end. *)
Definition slice0 (s : string) (e : Z) : string :=
  if e <? 0 then take (Z.to_nat (len s + e)) s else take (Z.to_nat e) s.

(** [s.replace(/c+$/, "")]: drop the trailing run of [c]. *)
Fixpoint strip_trailing (c : ascii) (s : string) : string :=
  match s with
  | "" => ""
  | String a r =>
      match strip_trailing c r with
      | "" => if decide (a = c) then "" else String a ""
      | r' => String a r'
      end
  end.

(** [s.split(sep)] for a one-character separator: never empty. *)
Fixpoint split (sep : ascii) (s : string) : list string :=
  match s with
  | "" => [""]
  | String a r =>
      if decide (a = sep) then "" :: split sep r
      else match split sep r with
           | p :: ps => String a p :: ps
           | [] => [String a ""]
           end
  end.

(** [s.includes(c)] for a one-character string. *)
Fixpoint has_char (c : ascii) (s : string) : bool :=
  match s with
  | "" => false
  | String a r => bool_decide (a = c) || has_char c r
  end.

(** [x || dflt] on a possibly undefined string: undefined and "" are falsy. *)
Definition or_str (x : option string) (dflt : string) : string :=
  match x with
  | Some s => if decide (s = "") then dflt else s
  | None => dflt
  end.

(** [x || dflt] on a possibly undefined integer number: undefined and 0
    are falsy. *)
Definition or_num (x : option Z) (dflt : Z) : Z :=
  match x with
  | Some n => if decide (n = 0) then dflt else n
  | None => dflt
  end.

(** *** BigInt.prototype.toString *)

Definition digit_char (n : N) : ascii := ascii_of_N (48 + n).

(** Decimal digits of [n], most significant first, put before [acc];
    [fuel] bounds the number of digits. *)
Fixpoint digits_fuel (fuel : nat) (n : N) (acc : string) : string :=
  match fuel with
  | O => acc
  | S f =>
      let acc' := String (digit_char (n mod 10)) acc in
      if (n <? 10)%N then acc' else digits_fuel f (n / 10) acc'
  end.

Definition N_toString (n : N) : string :=
  digits_fuel (S (N.size_nat n)) n "".

Definition BigInt_toString (z : Z) : string :=
  match z with
  | Z0 => "0"
  | Zpos p => N_toString (Npos p)
  | Zneg p => String "-" (N_toString (Npos p))
  end.

(** *** BigInt(string) *)

(** The value of a digit in the given radix (letters for radix 16). *)
Definition digit_value (radix : N) (c : ascii) : option N :=
  let n := N_of_ascii c in
  let v :=
    if ((48 <=? n) && (n <=? 57))%N then Some (n - 48)%N
    else if ((97 <=? n) && (n <=? 102))%N then Some (n - 87)%N
    else if ((65 <=? n) && (n <=? 70))%N then Some (n - 55)%N
    else None in
  match v with
  | Some d => if (d <? radix)%N then Some d else None
  | None => None
  end.

Fixpoint parse_digits (radix : N) (s : string) (acc : N) : option N :=
  match s with
  | "" => Some acc
  | String c r =>
      match digit_value radix c with
      | Some d => parse_digits radix r (acc * radix + d)
      | None => None
      end
  end.

(** White space of [StrWhiteSpaceChar] within ASCII: TAB, LF, VT, FF, CR
    and SP. *)
Definition is_space (c : ascii) : bool :=
  let n := N_of_ascii c in
  ((9 <=? n) && (n <=? 13) || (n =? 32))%N.

Fixpoint trim_start (s : string) : string :=
  match s with
  | String c r => if is_space c then trim_start r else s
  | "" => ""
  end.

(** Drops trailing white space. *)
Fixpoint trim_end (s : string) : string :=
  match s with
  | "" => ""
  | String a r =>
      match trim_end r with
      | "" => if is_space a then "" else String a ""
      | r' => String a r'
      end
  end.

Definition trim (s : string) : string := trim_end (trim_start s).

Definition syntaxError (s : string) : Thrown :=
  Err "SyntaxError" ("Cannot convert " +:+ s +:+ " to a BigInt").

(** A non-empty run of digits in the radix. *)
Definition parse_nonempty (radix : N) (s : string) : option Z :=
  match s with
  | "" => None
  | _ => Z.of_N <$> parse_digits radix s 0
  end.

(** The radix prefix [0x], [0o] or [0b] (either case) and what follows. *)
Definition radix_prefix (t : string) : option (N * string) :=
  match t with
  | String z (String p r) =>
      if decide (z = "0"%char) then
        if decide (p = "x"%char \/ p = "X"%char) then Some (16%N, r)
        else if decide (p = "o"%char \/ p = "O"%char) then Some (8%N, r)
        else if decide (p = "b"%char \/ p = "B"%char) then Some (2%N, r)
        else None
      else None
  | _ => None
  end.

(** [BigInt(s)] on a string (StringToBigInt): surrounding white space is
    dropped; the empty string is 0; decimal digits may carry a sign; the
    prefixes 0x, 0o and 0b take no sign; anything else is a SyntaxError. *)
Definition BigInt_ofString (s : string) : Completion Z :=
  let of_opt (o : option Z) :=
    match o with Some z => Return z | None => Throw (syntaxError s) end in
  match trim s with
  | "" => Return 0
  | String c r as t =>
      match radix_prefix t with
      | Some (radix, ds) => of_opt (parse_nonempty radix ds)
      | None =>
          if decide (c = "+"%char) then of_opt (parse_nonempty 10 r)
          else if decide (c = "-"%char) then of_opt (Z.opp <$> parse_nonempty 10 r)
          else of_opt (parse_nonempty 10 t)
      end
  end.

(** [b ** e] on bigints: a negative exponent is a RangeError. *)
Definition BigInt_pow (b e : Z) : Completion Z :=
  if e <? 0 then Throw (Err "RangeError" "Exponent must be non-negative")
  else Return (b ^ e).

(** *** Numbers: IEEE 754 binary64 *)

(** The binary64 value nearest to [n / d] (ties to even), for [0 <= n]
    and [0 < d]: the quotient is taken with 64 significant bits and the
    remainder tells on which side of it the exact value lies. *)
Definition round_ratio (s : bool) (n d : Z) : spec_float :=
  if n =? 0 then S754_zero s
  else
    let k := Z.log2 d - Z.log2 n + 64 in
    let num := if 0 <=? k then n * 2 ^ k else n in
    let den := if 0 <=? k then d else d * 2 ^ (- k) in
    let '(q, r) := Z.div_eucl num den in
    let loc := if r =? 0 then loc_Exact else loc_Inexact (Z.compare (2 * r) den) in
    binary_round_aux prec emax s q (- k) loc.

(** The number denoted by the decimal [m * 10 ^ e]. *)
Definition number_of_decimal (s : bool) (m : Z) (e : Z) : float :=
  SF2Prim (if 0 <=? e then round_ratio s (m * 10 ^ e) 1
           else round_ratio s m (10 ^ (- e))).

(** The longest run of decimal digits at the head of [s], and the rest. *)
Fixpoint span_digits (s : string) : string * string :=
  match s with
  | String c r =>
      match digit_value 10 c with
      | Some _ => let '(ds, rest) := span_digits r in (String c ds, rest)
      | None => ("", s)
      end
  | "" => ("", "")
  end.

Definition digits_value (s : string) : Z :=
  match parse_digits 10 s 0 with Some n => Z.of_N n | None => 0 end.

(** The exponent part at the head of [s], when there is one: [e] or [E],
    an optional sign and at least one digit. *)
Definition exponent_part (s : string) : Z :=
  match s with
  | String c r =>
      if decide (c = "e"%char \/ c = "E"%char) then
        match r with
        | String "-" r' =>
            match span_digits r' with ("", _) => 0 | (ds, _) => - digits_value ds end
        | String "+" r' => digits_value (fst (span_digits r'))
        | _ => digits_value (fst (span_digits r))
        end
      else 0
  | "" => 0
  end.

Definition starts_with (p s : string) : bool :=
  bool_decide (take (String.length p) s = p).

(** The unsigned part of a [StrDecimalLiteral] at the head of [s]. *)
Definition parse_unsigned (sign : bool) (s : string) : float :=
  if starts_with "Infinity" s then (if sign then neg_infinity else infinity)
  else
    let '(ip, r1) := span_digits s in
    let '(fp, r2) :=
      match r1 with
      | String "." r => span_digits r
      | _ => ("", r1)
      end in
    if decide (ip = "" /\ fp = "") then nan
    else
      number_of_decimal sign (digits_value (ip +:+ fp))
        (exponent_part r2 - len fp).

(** [parseFloat(s)]: leading white space is dropped and the longest
    prefix that is a decimal literal is converted; NaN when there is
    none. *)
Definition parseFloat (s : string) : float :=
  match trim_start s with
  | String "-" r => parse_unsigned true r
  | String "+" r => parse_unsigned false r
  | t => parse_unsigned false t
  end.

(** [10 ** d] on numbers, for an integer [d]: the power rounded to
    nearest, which is the power itself up to [10 ** 22] (the registry has
    2 and 18). *)
Definition pow10 (d : Z) : float := number_of_decimal false 1 d.

Definition number_of_Z (z : Z) : float :=
  SF2Prim (binary_normalize prec emax z 0 false).

(** [Math.floor(x)] *)
Definition floor (x : float) : float :=
  match Prim2SF x with
  | S754_finite s m e =>
      if 0 <=? e then x
      else
        let q := (if s then Zneg m else Zpos m) / 2 ^ (- e) in
        SF2Prim (binary_normalize prec emax q 0 s)
  | _ => x
  end.

(** [BigInt(x)] on a number: a RangeError unless [x] is an integer. *)
Definition BigInt_ofNumber (x : float) : Completion Z :=
  let notInteger :=
    Throw (Err "RangeError"
      "The number cannot be converted to a BigInt because it is not an integer") in
  match Prim2SF x with
  | S754_zero _ => Return 0
  | S754_finite s m e =>
      let z := if s then Zneg m else Zpos m in
      if 0 <=? e then Return (z * 2 ^ e)
      else if z mod 2 ^ (- e) =? 0 then Return (z / 2 ^ (- e))
      else notInteger
  | _ => notInteger
  end.

End Js.

(** ** constants.ts *)

Record NativeCurrency : Type := {
  nc_name : string;
  nc_symbol : string;
  nc_decimals : Z;
}.

Record BridgeChain : Type := {
  id : Z;
  name : string;
  decimals : Z;
  tokenAddress : string;
  nativeCurrency : NativeCurrency;
}.

Inductive BridgeProtocol : Type := AXELAR | LAYERZERO.

#[global] Instance BridgeProtocol_eq_dec : EqDecision BridgeProtocol.
Proof. solve_decision. Defined.

Definition BridgeProtocol_name (p : BridgeProtocol) : string :=
  match p with AXELAR => "AXELAR" | LAYERZERO => "LAYERZERO" end.

Definition SUPPORTED_CHAINS : gmap Z BridgeChain :=
  <[ 42220 := {| id := 42220; name := "Celo"; decimals := 18;
                 tokenAddress := "0x62B8B11039FcfE5aB0C56E502b1C372A3d2a9c7A";
                 nativeCurrency := {| nc_name := "Celo"; nc_symbol := "CELO"; nc_decimals := 18 |} |} ]>
  (<[ 122 := {| id := 122; name := "Fuse"; decimals := 2;
                tokenAddress := "0x495d133B938596C9984d462F007B676bDc57eCEC";
                nativeCurrency := {| nc_name := "Fuse"; nc_symbol := "FUSE"; nc_decimals := 18 |} |} ]>
  (<[ 1 := {| id := 1; name := "Ethereum"; decimals := 2;
              tokenAddress := "0x67C5870b4A41D4Ebef24d2456547A03F1f3e094B";
              nativeCurrency := {| nc_name := "Ethereum"; nc_symbol := "ETH"; nc_decimals := 18 |} |} ]>
  (<[ 50 := {| id := 50; name := "XDC"; decimals := 18;
               tokenAddress := "0xA13625A72Aef90645CfCe34e25c114629d7855e7";
               nativeCurrency := {| nc_name := "XDC Network"; nc_symbol := "XDC"; nc_decimals := 18 |} |} ]>
  ∅))).

Definition BRIDGE_CONTRACT_ADDRESSES : gmap Z string :=
  <[ 42220 := "0xa3247276dbcc76dd7705273f766eb3e8a5ecf4a5" ]>
  (<[ 122 := "0xa3247276dbcc76dd7705273f766eb3e8a5ecf4a5" ]>
  (<[ 1 := "0xa3247276dbcc76dd7705273f766eb3e8a5ecf4a5" ]>
  (<[ 50 := "0xa3247276dbcc76dd7705273f766eb3e8a5ecf4a5" ]> ∅))).

Definition NORMALIZED_DECIMALS : Z := 18.

(** [1.1] as the number the literal denotes. *)
Definition FEE_MULTIPLIER : float := Js.number_of_decimal false 11 (-1).

Definition EVENT_QUERY_BATCH_SIZE : Z := 1000.

Definition GOODSERVER_FEES : string := "https://goodserver.gooddollar.org/bridge/estimatefees".
Definition LAYERZERO_SCAN : string := "https://scan.layerzero-api.com/v1".
Definition AXELARSCAN : string := "https://api.axelarscan.io".

(** ** utils/decimals.ts *)

(** [SUPPORTED_CHAINS[chainId]?.decimals || NORMALIZED_DECIMALS] *)
Definition getChainDecimals (chainId : Z) : Z :=
  Js.or_num (decimals <$> SUPPORTED_CHAINS !! chainId) NORMALIZED_DECIMALS.

(** The exponent is positive in both branches that raise 10 to it, so the
    power never throws; bigint division truncates toward zero. *)
Definition normalizeAmount (amount : Z) (fromChainId : Z) : Z :=
  let fromDecimals :=
    Js.or_num (decimals <$> SUPPORTED_CHAINS !! fromChainId) NORMALIZED_DECIMALS in
  if decide (fromDecimals = NORMALIZED_DECIMALS) then amount
  else if decide (fromDecimals > NORMALIZED_DECIMALS) then
    let decimalShift := fromDecimals - NORMALIZED_DECIMALS in
    Z.quot amount (10 ^ decimalShift)
  else
    let decimalShift := NORMALIZED_DECIMALS - fromDecimals in
    amount * 10 ^ decimalShift.

Definition denormalizeAmount (amount : Z) (toChainId : Z) : Z :=
  let toDecimals :=
    Js.or_num (decimals <$> SUPPORTED_CHAINS !! toChainId) NORMALIZED_DECIMALS in
  if decide (toDecimals = NORMALIZED_DECIMALS) then amount
  else if decide (toDecimals > NORMALIZED_DECIMALS) then
    let decimalShift := toDecimals - NORMALIZED_DECIMALS in
    amount * 10 ^ decimalShift
  else
    let decimalShift := NORMALIZED_DECIMALS - toDecimals in
    Z.quot amount (10 ^ decimalShift).

Definition formatAmount (amount : Z) (decimals : Z) : Completion string :=
  divisor ← Js.BigInt_pow 10 decimals;
  let whole := Z.quot amount divisor in
  let fractional := Z.rem amount divisor in
  if decide (fractional = 0) then Return (Js.BigInt_toString whole)
  else
    let fractionalStr := Js.padStart (Js.BigInt_toString fractional) decimals "0" in
    let trimmedFractional := Js.strip_trailing "0" fractionalStr in
    Return (Js.BigInt_toString whole +:+ "." +:+ trimmedFractional).

Definition parseAmount (amount : string) (decimals : Z) : Completion Z :=
  if decide (amount = "" \/ amount = "0") then Return 0
  else
    let parts := Js.split "." amount in
    let wholeStr := Js.or_str (parts !! 0%nat) "0" in
    let fractionalStr := Js.or_str (parts !! 1%nat) "" in
    let fractionalStr :=
      if Js.len fractionalStr >? decimals then Js.slice0 fractionalStr decimals
      else Js.padEnd fractionalStr decimals "0" in
    whole ← Js.BigInt_ofString wholeStr;
    fractional ← Js.BigInt_ofString (Js.or_str (Some fractionalStr) "0");
    divisor ← Js.BigInt_pow 10 decimals;
    Return (whole * divisor + fractional).


(** The words of the specification for the result of normalizing and then
    denormalizing on a chain of [d] decimals: the amount "truncated to the
    nearest multiple representable in [d] decimals" of the 18-decimal
    scale. *)
Definition truncated_to_decimals (x d : Z) : Z :=
  x / 10 ^ (NORMALIZED_DECIMALS - d) * 10 ^ (NORMALIZED_DECIMALS - d).

(** ** The outside world and asynchronous functions *)

(** A [fetch] either rejects or resolves to a response, whose [json()]
    resolves to a body or rejects. *)
Record HttpResponse (B : Type) : Type := {
  ok : bool;
  statusText : string;
  json : Completion B;
}.
Arguments ok {B} _.
Arguments statusText {B} _.
Arguments json {B} _.

Abbreviation GoodServerFeeResponse := (gmap string (gmap string string)).

Record LayerZeroMessage : Type := {
  lz_status : string;
  lz_srcTxHash : string;
  lz_dstTxHash : option string;
  lz_timestamp : float;
}.

Record LayerZeroScanResponse : Type := {
  messages : option (list LayerZeroMessage);
}.

Record AxelarTransaction : Type := {
  ax_status : string;
  ax_sourceTxHash : string;
  ax_destinationTxHash : option string;
  ax_createdAt : string;
  ax_updatedAt : string;
}.

Record AxelarscanResponse : Type := {
  data : option (list AxelarTransaction);
}.

Inductive AbiValue : Type :=
  | VAddress (a : string)
  | VUint (n : Z)
  | VBytes (b : string).

Record ContractCall : Type := {
  cc_account : option string;
  cc_address : string;
  cc_functionName : string;
  cc_args : list AbiValue;
  cc_value : option Z;
}.

Record TransactionReceipt : Type := {
  receipt_transactionHash : string;
  receipt_status : string;
}.

(** A decoded log of the bridge contract, as the chain client returns it. *)
Record RawLog : Type := {
  log_transactionHash : string;
  log_blockNumber : Z;
  log_address : string;
  log_from : string;
  log_to : string;
  log_normalizedAmount : Z;
  log_targetChainId : Z;
  log_timestamp : Z;
  log_bridge : Z;
  log_id : Z;
}.

Record EventQuery : Type := {
  q_address : string;
  q_eventName : string;
  q_from : string;
  q_fromBlock : Z;
  q_toBlock : option Z;   (* [None] is "latest" *)
}.

(** The calls that leave the process. *)
Inductive Event : Type :=
  | Fetch (url : string)
  | ReadContract (address functionName : string) (args : list AbiValue)
  | GetBlockNumber
  | GetContractEvents (q : EventQuery)
  | GetAddresses
  | SimulateContract (call : ContractCall)
  | WriteContract (request : ContractCall)
  | WaitForTransactionReceipt (hash : string).

(** How the world answers each call, given the calls made before it. *)
Record World : Type := {
  w_fetchFees : list Event -> Completion (HttpResponse GoodServerFeeResponse);
  w_fetchLayerZero : list Event -> string -> Completion (HttpResponse LayerZeroScanResponse);
  w_fetchAxelar : list Event -> string -> Completion (HttpResponse AxelarscanResponse);
  w_readCanBridge : list Event -> string -> string -> Z -> Completion (bool * string);
  w_getBlockNumber : list Event -> Completion Z;
  w_getContractEvents : list Event -> EventQuery -> Completion (list RawLog);
  w_getAddresses : list Event -> Completion (list string);
  w_simulateContract : list Event -> ContractCall -> Completion ContractCall;
  w_writeContract : list Event -> ContractCall -> Completion string;
  w_waitForTransactionReceipt : list Event -> string -> Completion TransactionReceipt;
  w_dateGetTime : string -> float;   (* [new Date(s).getTime()] *)
}.

(** An async function run by an object of type [T]: from the object and
    the calls made so far to the object and calls afterwards, and the
    settlement of the promise ([Return]: resolved, [Throw]: rejected). *)
Definition Async (T A : Type) : Type :=
  World -> T -> list Event -> T * list Event * Completion A.

Section AsyncOps.
Context {T : Type}.

Definition aret {A} (a : A) : Async T A := fun _ t h => (t, h, Return a).

Definition abind {A B} (c : Async T A) (k : A -> Async T B) : Async T B :=
  fun w t h =>
    match c w t h with
    | (t', h', Return a) => k a w t' h'
    | (t', h', Throw e) => (t', h', Throw e)
    end.

Definition throw {A} (e : Thrown) : Async T A := fun _ t h => (t, h, Throw e).

Definition liftC {A} (c : Completion A) : Async T A := fun _ t h => (t, h, c).

(** [try { body } catch (error) { handler }] *)
Definition try_catch {A} (body : Async T A) (handler : Thrown -> Async T A) : Async T A :=
  fun w t h =>
    match body w t h with
    | (t', h', Throw e) => handler e w t' h'
    | r => r
    end.

(** [await] of a call that leaves the process. *)
Definition call {A} (ev : Event) (answer : World -> list Event -> Completion A) : Async T A :=
  fun w t h => (t, (h ++ [ev])%list, answer w h).

Definition get_this : Async T T := fun _ t h => (t, h, Return t).

Definition set_this (t' : T) : Async T unit := fun _ _ h => (t', h, Return tt).

Definition world {A} (f : World -> A) : Async T A := fun w t h => (t, h, Return (f w)).
End AsyncOps.

#[global] Instance Async_bind {T} : MBind (Async T) := fun A B k c => abind c k.
#[global] Instance Async_ret {T} : MRet (Async T) := fun A a => aret a.

(** ** utils/fees.ts *)

Record FeeEstimate : Type := {
  fee : Z;
  feeInNative : string;
  protocol : BridgeProtocol;
}.

Record Validation : Type := {
  isValid : bool;
  v_error : option string;
}.

Section Fees.
Context {T : Type}.

Definition fetchFeeEstimates : Async T GoodServerFeeResponse :=
  try_catch
    (response ← call (Fetch GOODSERVER_FEES) w_fetchFees;
     if negb (ok response) then
       throw (Err "Error" ("Failed to fetch fee estimates: " +:+ statusText response))
     else liftC (json response))
    (fun error =>
       throw (Err "Error" ("Fee estimation failed: " +:+ errorMessage error))).

Definition parseNativeFee (feeString : string) (chainId : Z) : Completion Z :=
  let amountStr := Js.or_str (Js.split " " feeString !! 0%nat) "" in
  if decide (amountStr = "") then Throw (Err "Error" "Invalid fee format")
  else
    let decimals := Js.or_num (decimals <$> SUPPORTED_CHAINS !! chainId) 18 in
    let amount := Js.parseFloat amountStr in
    if PrimFloat.is_nan amount then Throw (Err "Error" "Invalid fee amount")
    else
      let multiplier := Js.pow10 decimals in
      weiAmount ← Js.BigInt_ofNumber (Js.floor (amount * multiplier)%float);
      Return weiAmount.

Definition getChainName (chainId : Z) : Completion string :=
  if decide (chainId = 42220) then Return "CELO"
  else if decide (chainId = 122) then Return "FUSE"
  else if decide (chainId = 1) then Return "ETH"
  else if decide (chainId = 50) then Return "XDC"
  else Throw (Err "Error" ("Unsupported chain ID: " +:+ Js.BigInt_toString chainId)).

Definition getFeeEstimate (fromChainId toChainId : Z) (protocol : BridgeProtocol)
  : Async T FeeEstimate :=
  feeData ← fetchFeeEstimates;
  match feeData !! BridgeProtocol_name protocol with
  | None =>
      throw (Err "Error" ("No fee data available for protocol: " +:+ BridgeProtocol_name protocol))
  | Some protocolData =>
      fromChainName ← liftC (getChainName fromChainId);
      toChainName ← liftC (getChainName toChainId);
      let protocolPrefix := if decide (protocol = AXELAR) then "AXL" else "LZ" in
      let routeKey := protocolPrefix +:+ "_" +:+ fromChainName +:+ "_TO_" +:+ toChainName in
      let feeString := Js.or_str (protocolData !! routeKey) "" in
      if decide (feeString = "") then
        throw (Err "Error" ("No fee data available for route: " +:+ fromChainName
                            +:+ " to " +:+ toChainName))
      else
        fee ← liftC (parseNativeFee feeString fromChainId);
        (* Add safety buffer *)
        percent ← liftC (Js.BigInt_ofNumber (Js.floor (FEE_MULTIPLIER * Js.number_of_Z 100)%float));
        let feeWithBuffer := Z.quot (fee * percent) 100 in
        mret {| fee := feeWithBuffer; feeInNative := feeString; protocol := protocol |}
  end.

Definition validateFeeCoverage (msgValue requiredFee : Z) : Validation :=
  if decide (msgValue < requiredFee) then
    {| isValid := false;
       v_error := Some ("Insufficient fee. Required: " +:+ Js.BigInt_toString requiredFee
                        +:+ ", Provided: " +:+ Js.BigInt_toString msgValue) |}
  else {| isValid := true; v_error := None |}.
End Fees.

(** ** utils/tracking.ts *)

Inductive Status : Type := pending | completed | failed.

Record TransactionStatus : Type := {
  status : Status;
  srcTxHash : option string;
  dstTxHash : option string;
  timestamp : option float;
  ts_error : option string;
}.

Module Tracking.
Section Tracking.
Context {T : Type}.

Definition getLayerZeroStatus (txHash : string) : Async T TransactionStatus :=
  try_catch
    (response ← call (Fetch (LAYERZERO_SCAN +:+ "/message?txHash=" +:+ txHash))
                     (fun w h => w_fetchLayerZero w h txHash);
     if negb (ok response) then
       throw (Err "Error" ("LayerZero Scan API error: " +:+ statusText response))
     else
       data ← liftC (json response);
       match messages data with
       | None | Some [] =>
           mret {| status := pending; srcTxHash := None; dstTxHash := None;
                   timestamp := None; ts_error := Some "Transaction not found" |}
       | Some (message :: _) =>
           let ms := (lz_timestamp message * Js.number_of_Z 1000)%float in
           if decide (lz_status message = "DELIVERED") then
             mret {| status := completed;
                     srcTxHash := Some (lz_srcTxHash message);
                     dstTxHash := lz_dstTxHash message;
                     timestamp := Some ms; ts_error := None |}
           else if decide (lz_status message = "FAILED") then
             mret {| status := failed;
                     srcTxHash := Some (lz_srcTxHash message);
                     dstTxHash := lz_dstTxHash message;
                     timestamp := Some ms;
                     ts_error := Some "LayerZero transaction failed" |}
           else
             mret {| status := pending;
                     srcTxHash := Some (lz_srcTxHash message);
                     dstTxHash := None;
                     timestamp := Some ms; ts_error := None |}
       end)
    (fun error =>
       mret {| status := failed; srcTxHash := None; dstTxHash := None; timestamp := None;
               ts_error := Some ("Failed to fetch LayerZero status: " +:+ errorMessage error) |}).

Definition getAxelarStatus (txHash : string) : Async T TransactionStatus :=
  try_catch
    (response ← call (Fetch (AXELARSCAN +:+ "/gmp?txHash=" +:+ txHash))
                     (fun w h => w_fetchAxelar w h txHash);
     if negb (ok response) then
       throw (Err "Error" ("Axelarscan API error: " +:+ statusText response))
     else
       body ← liftC (json response);
       match data body with
       | None | Some [] =>
           mret {| status := pending; srcTxHash := None; dstTxHash := None;
                   timestamp := None; ts_error := Some "Transaction not found" |}
       | Some (transaction :: _) =>
           getTime ← world w_dateGetTime;
           if decide (ax_status transaction = "executed") then
             mret {| status := completed;
                     srcTxHash := Some (ax_sourceTxHash transaction);
                     dstTxHash := ax_destinationTxHash transaction;
                     timestamp := Some (getTime (ax_updatedAt transaction)); ts_error := None |}
           else if decide (ax_status transaction = "failed") then
             mret {| status := failed;
                     srcTxHash := Some (ax_sourceTxHash transaction);
                     dstTxHash := ax_destinationTxHash transaction;
                     timestamp := Some (getTime (ax_updatedAt transaction));
                     ts_error := Some "Axelar transaction failed" |}
           else
             mret {| status := pending;
                     srcTxHash := Some (ax_sourceTxHash transaction);
                     dstTxHash := None;
                     timestamp := Some (getTime (ax_createdAt transaction)); ts_error := None |}
       end)
    (fun error =>
       mret {| status := failed; srcTxHash := None; dstTxHash := None; timestamp := None;
               ts_error := Some ("Failed to fetch Axelar status: " +:+ errorMessage error) |}).

Definition getTransactionStatus (txHash : string) (protocol : BridgeProtocol)
  : Async T TransactionStatus :=
  match protocol with
  | LAYERZERO => getLayerZeroStatus txHash
  | AXELAR => getAxelarStatus txHash
  end.
End Tracking.
End Tracking.

(** ** Types shared by the two variants of the BridgingSDK class *)

Record CanBridgeResult : Type := {
  isWithinLimit : bool;
  cb_error : option string;
}.

Record EventOptions : Type := {
  fromBlock : option Z;
  toBlock : option Z;
  limit : option Z;
}.

Record BridgeRequestEvent : Type := {
  br_transactionHash : string;
  br_blockNumber : Z;
  br_address : string;
  br_from : string;
  br_to : string;
  br_amount : Z;
  br_targetChainId : Z;
  br_timestamp : Z;
  br_bridge : BridgeProtocol;
  br_id : Z;
}.

Inductive BridgeFn : Type := fn_bridgeTo | fn_bridgeToWithLzAdapterParams | fn_bridgeToWithAxelar.

Definition BridgeFn_name (f : BridgeFn) : string :=
  match f with
  | fn_bridgeTo => "bridgeTo"
  | fn_bridgeToWithLzAdapterParams => "bridgeToWithLzAdapterParams"
  | fn_bridgeToWithAxelar => "bridgeToWithAxelar"
  end.

Record BridgeOpts : Type := {
  o_targetChainId : Z;
  o_protocol : BridgeProtocol;
  o_msgValue : option Z;
  o_fn : BridgeFn;
  o_args : list AbiValue;
}.

(** [logs.slice(0, limit)] *)
Definition list_slice0 {A} (l : list A) (e : Z) : list A :=
  if e <? 0 then firstn (Z.to_nat (Z.of_nat (length l) + e)) l
  else firstn (Z.to_nat e) l.

Definition typeErrorUndefined (prop : string) : Thrown :=
  Err "TypeError" ("Cannot read properties of undefined (reading '" +:+ prop +:+ "')").

(** ** viem-sdk.ts: the BridgingSDK class *)
Module ViemSdk.

Record BridgingSDK : Type := {
  walletClient : bool;          (* is a wallet client set? *)
  currentChainId : Z;
  fees : option GoodServerFeeResponse;
}.

(** [new BridgingSDK(publicClient, walletClient, chainId)] with a public
    client, given the chain id of the public client when it has one. *)
Definition constructor (publicChainId : option Z) (wallet : bool) (chainId : option Z)
  : Completion BridgingSDK :=
  let cur := Js.or_num chainId (Js.or_num publicChainId 0) in
  match SUPPORTED_CHAINS !! cur with
  | None => Throw (Err "Error" ("Unsupported chain ID: " +:+ Js.BigInt_toString cur))
  | Some _ => Return {| walletClient := wallet; currentChainId := cur; fees := None |}
  end.

Definition initialize : Async BridgingSDK unit :=
  f ← fetchFeeEstimates;
  this ← get_this;
  set_this {| walletClient := walletClient this;
              currentChainId := currentChainId this;
              fees := Some f |}.

Definition canBridge (from : string) (amount : Z) (targetChainId : Z)
  : Async BridgingSDK CanBridgeResult :=
  this ← get_this;
  match SUPPORTED_CHAINS !! targetChainId with
  | None =>
      mret {| isWithinLimit := false;
              cb_error := Some ("Unsupported target chain: " +:+ Js.BigInt_toString targetChainId) |}
  | Some _ =>
      try_catch
        (let contractAddress := Js.or_str (BRIDGE_CONTRACT_ADDRESSES !! currentChainId this) "" in
         if decide (contractAddress = "") then
           mret {| isWithinLimit := false;
                   cb_error := Some ("Bridge contract not deployed on chain "
                                     +:+ Js.BigInt_toString (currentChainId this)) |}
         else
           (* Normalize amount to 18 decimals for the contract check *)
           let normalizedAmount := normalizeAmount amount (currentChainId this) in
           r ← call (ReadContract contractAddress "canBridge" [VAddress from; VUint normalizedAmount])
                    (fun w h => w_readCanBridge w h contractAddress from normalizedAmount);
           let '(isWithinLimit, canBridgeError) := r in
           mret {| isWithinLimit := isWithinLimit;
                   cb_error := if isWithinLimit then None else Some canBridgeError |})
        (fun error =>
           mret {| isWithinLimit := false;
                   cb_error := Some ("Failed to check bridge limits: " +:+ errorMessage error) |})
  end.

(** The condition of the protocol support validation. *)
Definition axelarUnsupported (cur targetChainId : Z) (protocol : BridgeProtocol) : Prop :=
  protocol = AXELAR /\ (cur = 50 \/ cur = 122 \/ targetChainId = 50 \/ targetChainId = 122).

#[global] Instance axelarUnsupported_dec cur target p : Decision (axelarUnsupported cur target p).
Proof. unfold axelarUnsupported. apply _. Defined.

Definition estimateFee (targetChainId : Z) (protocol : BridgeProtocol)
  : Async BridgingSDK FeeEstimate :=
  this ← get_this;
  (* Protocol support validation *)
  if decide (axelarUnsupported (currentChainId this) targetChainId protocol) then
    match SUPPORTED_CHAINS !! currentChainId this, SUPPORTED_CHAINS !! targetChainId with
    | Some c, Some t =>
        throw (Err "Error" ("Axelar bridging is not supported for " +:+ name c
                            +:+ " or " +:+ name t))
    | _, _ => throw (typeErrorUndefined "name")
    end
  else
    _ ← (match fees this with
         | None => initialize
         | Some _ => mret tt
         end);
    getFeeEstimate (currentChainId this) targetChainId protocol.

Definition submitAndWait (params : ContractCall) (fee : Z)
  : Async BridgingSDK TransactionReceipt :=
  this ← get_this;
  if negb (walletClient this) then throw (Err "Error" "Wallet client not initialized")
  else
    account ← call GetAddresses w_getAddresses;
    let account0 := Js.or_str (account !! 0%nat) "" in
    if decide (account0 = "") then throw (Err "Error" "No account found in wallet client")
    else
      (* Simulate the transaction *)
      let simulated :=
        {| cc_account := Some account0;
           cc_address := cc_address params;
           cc_functionName := cc_functionName params;
           cc_args := cc_args params;
           cc_value := Some (Js.or_num (cc_value params) fee) |} in
      request ← call (SimulateContract simulated) (fun w h => w_simulateContract w h simulated);
      (* Submit the transaction *)
      hash ← call (WriteContract request) (fun w h => w_writeContract w h request);
      (* Wait for the transaction receipt *)
      call (WaitForTransactionReceipt hash) (fun w h => w_waitForTransactionReceipt w h hash).

Definition bridgeInternal (opts : BridgeOpts) : Async BridgingSDK TransactionReceipt :=
  this ← get_this;
  if negb (walletClient this) then throw (Err "Error" "Wallet client not initialized")
  else
    feeEstimate ← estimateFee (o_targetChainId opts) (o_protocol opts);
    let providedValue := default 0 (o_msgValue opts) in
    let feeValidation := validateFeeCoverage providedValue (fee feeEstimate) in
    if negb (isValid feeValidation) then
      throw (Err "Error" (default "" (v_error feeValidation)))
    else
      let contractAddress := Js.or_str (BRIDGE_CONTRACT_ADDRESSES !! currentChainId this) "" in
      if decide (contractAddress = "") then
        throw (Err "Error" ("Bridge contract not deployed on chain "
                            +:+ Js.BigInt_toString (currentChainId this)))
      else
        submitAndWait
          {| cc_account := None;
             cc_address := contractAddress;
             cc_functionName := BridgeFn_name (o_fn opts);
             cc_args := o_args opts;
             cc_value := Some (fee feeEstimate) |}
          (fee feeEstimate).

(** [protocol === "AXELAR" ? 0 : 1] *)
Definition bridgeArg (protocol : BridgeProtocol) : Z :=
  if decide (protocol = AXELAR) then 0 else 1.

Definition bridgeTo (target : string) (targetChainId amount : Z)
    (protocol : BridgeProtocol) (msgValue : option Z)
  : Async BridgingSDK TransactionReceipt :=
  bridgeInternal
    {| o_targetChainId := targetChainId;
       o_protocol := protocol;
       o_msgValue := msgValue;
       o_fn := fn_bridgeTo;
       o_args := [VAddress target; VUint targetChainId; VUint amount; VUint (bridgeArg protocol)] |}.

(** [log.args.bridge === 0 ? "AXELAR" : "LAYERZERO"] *)
Definition parseBridge (bridge : Z) : BridgeProtocol :=
  if decide (bridge = 0) then AXELAR else LAYERZERO.

Definition getBridgeRequests (address : string) (options : option EventOptions)
  : Async BridgingSDK (list BridgeRequestEvent) :=
  this ← get_this;
  let contractAddress := Js.or_str (BRIDGE_CONTRACT_ADDRESSES !! currentChainId this) "" in
  if decide (contractAddress = "") then
    throw (Err "Error" ("Bridge contract not deployed on chain "
                        +:+ Js.BigInt_toString (currentChainId this)))
  else
    currentBlock ← call GetBlockNumber w_getBlockNumber;
    let fromBlock :=
      Js.or_num (options ≫= fromBlock)
        (if decide (currentBlock > 50000) then currentBlock - 50000 else 0) in
    let toBlock :=
      match options ≫= toBlock with
      | Some b => if decide (b = 0) then None else Some b
      | None => None
      end in
    let limit := Js.or_num (options ≫= limit) EVENT_QUERY_BATCH_SIZE in
    try_catch
      (let q := {| q_address := contractAddress; q_eventName := "BridgeRequest";
                   q_from := address; q_fromBlock := fromBlock; q_toBlock := toBlock |} in
       logs ← call (GetContractEvents q) (fun w h => w_getContractEvents w h q);
       mret (List.map
               (fun log =>
                  {| br_transactionHash := log_transactionHash log;
                     br_blockNumber := log_blockNumber log;
                     br_address := log_address log;
                     br_from := log_from log;
                     br_to := log_to log;
                     br_amount := log_normalizedAmount log;
                     br_targetChainId := log_targetChainId log;
                     br_timestamp := log_timestamp log;
                     br_bridge := parseBridge (log_bridge log);
                     br_id := log_id log |})
               (list_slice0 logs limit)))
      (fun error =>
         throw (Err "Error" ("Failed to fetch bridge requests: " +:+ errorMessage error))).

Definition getLayerZeroStatus (txHash : string) : Async BridgingSDK TransactionStatus :=
  response ← call (Fetch (LAYERZERO_SCAN +:+ "/message?txHash=" +:+ txHash))
                  (fun w h => w_fetchLayerZero w h txHash);
  data ← liftC (json response);
  match messages data with
  | None | Some [] =>
      mret {| status := pending; srcTxHash := None; dstTxHash := None;
              timestamp := None; ts_error := None |}
  | Some (message :: _) =>
      mret {| status := if decide (lz_status message = "DELIVERED") then completed
                        else if decide (lz_status message = "FAILED") then failed
                        else pending;
              srcTxHash := Some (lz_srcTxHash message);
              dstTxHash := lz_dstTxHash message;
              timestamp := Some (lz_timestamp message * Js.number_of_Z 1000)%float;
              ts_error := None |}
  end.

Definition getAxelarStatus (txHash : string) : Async BridgingSDK TransactionStatus :=
  response ← call (Fetch (AXELARSCAN +:+ "/gmp?txHash=" +:+ txHash))
                  (fun w h => w_fetchAxelar w h txHash);
  body ← liftC (json response);
  match data body with
  | None | Some [] =>
      mret {| status := pending; srcTxHash := None; dstTxHash := None;
              timestamp := None; ts_error := None |}
  | Some (transaction :: _) =>
      getTime ← world w_dateGetTime;
      mret {| status := if decide (ax_status transaction = "executed") then completed
                        else if decide (ax_status transaction = "failed") then failed
                        else pending;
              srcTxHash := Some (ax_sourceTxHash transaction);
              dstTxHash := ax_destinationTxHash transaction;
              timestamp := Some (getTime (ax_updatedAt transaction));
              ts_error := None |}
  end.

Definition getTransactionStatus (txHash : string) (protocol : BridgeProtocol)
  : Async BridgingSDK TransactionStatus :=
  if decide (protocol = LAYERZERO) then getLayerZeroStatus txHash
  else getAxelarStatus txHash.

End ViemSdk.

(** ** unnamed/part_003: the other variant of the BridgingSDK class *)
Module Part003.

Record BridgingSDK : Type := {
  walletClient : bool;          (* is a wallet client set? *)
  currentChainId : Z;
}.

Definition constructor (publicChainId : option Z) (wallet : bool) (chainId : option Z)
  : Completion BridgingSDK :=
  let cur := Js.or_num chainId (Js.or_num publicChainId 0) in
  match SUPPORTED_CHAINS !! cur with
  | None => Throw (Err "Error" ("Unsupported chain ID: " +:+ Js.BigInt_toString cur))
  | Some _ => Return {| walletClient := wallet; currentChainId := cur |}
  end.

Definition canBridge (from : string) (amount : Z) (targetChainId : Z)
  : Async BridgingSDK CanBridgeResult :=
  this ← get_this;
  match SUPPORTED_CHAINS !! targetChainId with
  | None =>
      mret {| isWithinLimit := false;
              cb_error := Some ("Unsupported target chain: " +:+ Js.BigInt_toString targetChainId) |}
  | Some _ =>
      try_catch
        (let contractAddress := Js.or_str (BRIDGE_CONTRACT_ADDRESSES !! currentChainId this) "" in
         if decide (contractAddress = "") then
           mret {| isWithinLimit := false;
                   cb_error := Some ("Bridge contract not deployed on chain "
                                     +:+ Js.BigInt_toString (currentChainId this)) |}
         else
           (* Normalize amount to 18 decimals for the contract check *)
           let normalizedAmount := normalizeAmount amount (currentChainId this) in
           r ← call (ReadContract contractAddress "canBridge" [VAddress from; VUint normalizedAmount])
                    (fun w h => w_readCanBridge w h contractAddress from normalizedAmount);
           let '(isWithinLimit, canBridgeError) := r in
           mret {| isWithinLimit := isWithinLimit;
                   cb_error := if isWithinLimit then None else Some canBridgeError |})
        (fun error =>
           mret {| isWithinLimit := false;
                   cb_error := Some ("Failed to check bridge limits: " +:+ errorMessage error) |})
  end.

Definition estimateFee (targetChainId : Z) (protocol : BridgeProtocol)
  : Async BridgingSDK FeeEstimate :=
  this ← get_this;
  getFeeEstimate (currentChainId this) targetChainId protocol.

Definition submitAndWait (params : ContractCall) (fee : Z)
  : Async BridgingSDK TransactionReceipt :=
  this ← get_this;
  if negb (walletClient this) then throw (Err "Error" "Wallet client not initialized")
  else
    account ← call GetAddresses w_getAddresses;
    let account0 := Js.or_str (account !! 0%nat) "" in
    if decide (account0 = "") then throw (Err "Error" "No account found in wallet client")
    else
      (* Simulate the transaction *)
      let simulated :=
        {| cc_account := Some account0;
           cc_address := cc_address params;
           cc_functionName := cc_functionName params;
           cc_args := cc_args params;
           cc_value := Some (Js.or_num (cc_value params) fee) |} in
      request ← call (SimulateContract simulated) (fun w h => w_simulateContract w h simulated);
      (* Submit the transaction *)
      hash ← call (WriteContract request) (fun w h => w_writeContract w h request);
      (* Wait for the transaction receipt *)
      call (WaitForTransactionReceipt hash) (fun w h => w_waitForTransactionReceipt w h hash).

Definition bridgeInternal (opts : BridgeOpts) : Async BridgingSDK TransactionReceipt :=
  this ← get_this;
  if negb (walletClient this) then throw (Err "Error" "Wallet client not initialized")
  else
    feeEstimate ← estimateFee (o_targetChainId opts) (o_protocol opts);
    let providedValue := default 0 (o_msgValue opts) in
    let feeValidation := validateFeeCoverage providedValue (fee feeEstimate) in
    if negb (isValid feeValidation) then
      throw (Err "Error" (default "" (v_error feeValidation)))
    else
      let contractAddress := Js.or_str (BRIDGE_CONTRACT_ADDRESSES !! currentChainId this) "" in
      if decide (contractAddress = "") then
        throw (Err "Error" ("Bridge contract not deployed on chain "
                            +:+ Js.BigInt_toString (currentChainId this)))
      else
        submitAndWait
          {| cc_account := None;
             cc_address := contractAddress;
             cc_functionName := BridgeFn_name (o_fn opts);
             cc_args := o_args opts;
             cc_value := Some (fee feeEstimate) |}
          (fee feeEstimate).

(** [protocol === "LAYERZERO" ? 0 : 1] *)
Definition bridgeArg (protocol : BridgeProtocol) : Z :=
  if decide (protocol = LAYERZERO) then 0 else 1.

Definition bridgeTo (target : string) (targetChainId amount : Z)
    (protocol : BridgeProtocol) (msgValue : option Z)
  : Async BridgingSDK TransactionReceipt :=
  bridgeInternal
    {| o_targetChainId := targetChainId;
       o_protocol := protocol;
       o_msgValue := msgValue;
       o_fn := fn_bridgeTo;
       o_args := [VAddress target; VUint targetChainId; VUint amount; VUint (bridgeArg protocol)] |}.

(** [log.args.bridge === 0 ? "LAYERZERO" : "AXELAR"] *)
Definition parseBridge (bridge : Z) : BridgeProtocol :=
  if decide (bridge = 0) then LAYERZERO else AXELAR.

Definition getBridgeRequests (address : string) (options : option EventOptions)
  : Async BridgingSDK (list BridgeRequestEvent) :=
  this ← get_this;
  let contractAddress := Js.or_str (BRIDGE_CONTRACT_ADDRESSES !! currentChainId this) "" in
  if decide (contractAddress = "") then
    throw (Err "Error" ("Bridge contract not deployed on chain "
                        +:+ Js.BigInt_toString (currentChainId this)))
  else
    let fromBlock := Js.or_num (options ≫= fromBlock) 0 in
    let toBlock :=
      match options ≫= toBlock with
      | Some b => if decide (b = 0) then None else Some b
      | None => None
      end in
    let limit := Js.or_num (options ≫= limit) EVENT_QUERY_BATCH_SIZE in
    try_catch
      (let q := {| q_address := contractAddress; q_eventName := "BridgeRequest";
                   q_from := address; q_fromBlock := fromBlock; q_toBlock := toBlock |} in
       logs ← call (GetContractEvents q) (fun w h => w_getContractEvents w h q);
       mret (List.map
               (fun log =>
                  {| br_transactionHash := log_transactionHash log;
                     br_blockNumber := log_blockNumber log;
                     br_address := log_address log;
                     br_from := log_from log;
                     br_to := log_to log;
                     br_amount := log_normalizedAmount log;
                     br_targetChainId := log_targetChainId log;
                     br_timestamp := log_timestamp log;
                     br_bridge := parseBridge (log_bridge log);
                     br_id := log_id log |})
               (list_slice0 logs limit)))
      (fun error =>
         throw (Err "Error" ("Failed to fetch bridge requests: " +:+ errorMessage error))).

Definition getTransactionStatus (txHash : string) (protocol : BridgeProtocol)
  : Async BridgingSDK TransactionStatus :=
  Tracking.getTransactionStatus txHash protocol.

End Part003.

(** ** What the properties speak about *)

(** The error of the protocol support validation of [estimateFee]. *)
Definition isAxelarUnsupportedError (e : Thrown) : Prop :=
  exists a b, e = Err "Error" ("Axelar bridging is not supported for " +:+ a +:+ " or " +:+ b).

(** A result of [canBridge] that reports a failure: not within the limit,
    with a message that is not empty. *)
Definition reportsFailure (r : CanBridgeResult) : Prop :=
  isWithinLimit r = false /\ exists msg, cb_error r = Some msg /\ msg <> "".

(** The contract calls that a run simulated. *)
Definition simulated (h : list Event) : list ContractCall :=
  omap (fun ev => match ev with SimulateContract c => Some c | _ => None end) h.

(** ** Worlds for the scenarios of the specification *)

(** Every call that leaves the process fails. *)
Definition offline_world : World := {|
  w_fetchFees _ := Throw (Err "TypeError" "fetch failed");
  w_fetchLayerZero _ _ := Throw (Err "TypeError" "fetch failed");
  w_fetchAxelar _ _ := Throw (Err "TypeError" "fetch failed");
  w_readCanBridge _ _ _ _ := Throw (Err "ContractFunctionExecutionError" "execution reverted");
  w_getBlockNumber _ := Throw (Err "HttpRequestError" "HTTP request failed.");
  w_getContractEvents _ _ := Throw (Err "HttpRequestError" "HTTP request failed.");
  w_getAddresses _ := Throw (Err "HttpRequestError" "HTTP request failed.");
  w_simulateContract _ _ := Throw (Err "ContractFunctionExecutionError" "execution reverted");
  w_writeContract _ _ := Throw (Err "HttpRequestError" "HTTP request failed.");
  w_waitForTransactionReceipt _ _ := Throw (Err "HttpRequestError" "HTTP request failed.");
  w_dateGetTime _ := nan;
|}.

(** The quote table [{"AXELAR": {"AXL_CELO_TO_ETH": "2.0 Celo"}}]. *)
Definition quote_table : GoodServerFeeResponse :=
  {[ "AXELAR" := {[ "AXL_CELO_TO_ETH" := "2.0 Celo" ]} ]}.

(** The fee service answers with [quote_table]; nothing else answers. *)
Definition quote_world : World := {|
  w_fetchFees _ := Return {| ok := true; statusText := "OK"; json := Return quote_table |};
  w_fetchLayerZero := w_fetchLayerZero offline_world;
  w_fetchAxelar := w_fetchAxelar offline_world;
  w_readCanBridge := w_readCanBridge offline_world;
  w_getBlockNumber := w_getBlockNumber offline_world;
  w_getContractEvents := w_getContractEvents offline_world;
  w_getAddresses := w_getAddresses offline_world;
  w_simulateContract := w_simulateContract offline_world;
  w_writeContract := w_writeContract offline_world;
  w_waitForTransactionReceipt := w_waitForTransactionReceipt offline_world;
  w_dateGetTime := w_dateGetTime offline_world;
|}.

(** The fee service answers with [quote_table], the wallet has one
    account and the chain accepts every call. *)
Definition bridge_world : World := {|
  w_fetchFees := w_fetchFees quote_world;
  w_fetchLayerZero := w_fetchLayerZero offline_world;
  w_fetchAxelar := w_fetchAxelar offline_world;
  w_readCanBridge _ _ _ _ := Return (true, "");
  w_getBlockNumber _ := Return 60000;
  w_getContractEvents _ _ :=
    Return [ {| log_transactionHash := "0xhash0"; log_blockNumber := 59000;
                log_address := "0xa3247276dbcc76dd7705273f766eb3e8a5ecf4a5";
                log_from := "0xSender"; log_to := "0xTarget";
                log_normalizedAmount := 1150000000000000000; log_targetChainId := 1;
                log_timestamp := 1700000000; log_bridge := 0; log_id := 7 |} ];
  w_getAddresses _ := Return ["0xSender"];
  w_simulateContract _ c := Return c;
  w_writeContract _ _ := Return "0xhash1";
  w_waitForTransactionReceipt _ hash :=
    Return {| receipt_transactionHash := hash; receipt_status := "success" |};
  w_dateGetTime := w_dateGetTime offline_world;
|}.

(** An SDK on Celo, as the constructor leaves it, in each variant. *)
Definition celo_sdk : ViemSdk.BridgingSDK :=
  {| ViemSdk.walletClient := true; ViemSdk.currentChainId := 42220; ViemSdk.fees := None |}.

Definition celo_sdk3 : Part003.BridgingSDK :=
  {| Part003.walletClient := true; Part003.currentChainId := 42220 |}.

(** The status that the words of the scan APIs map to. *)
Definition lzStatus (s : string) : Status :=
  if decide (s = "DELIVERED") then completed
  else if decide (s = "FAILED") then failed else pending.

Definition axelarStatus (s : string) : Status :=
  if decide (s = "executed") then completed
  else if decide (s = "failed") then failed else pending.

(** ** The rest of the code *)

(** *** More string primitives *)
Module JsStr.

Fixpoint drop (n : nat) (s : string) : string :=
  match n, s with
  | S n', String _ r => drop n' r
  | _, _ => s
  end.

(** [s.slice(b)]: a negative [b] counts from the end. *)
Definition slice_from (s : string) (b : Z) : string :=
  if b <? 0 then drop (Z.to_nat (Z.max (Js.len s + b) 0)) s
  else drop (Z.to_nat b) s.

Fixpoint all_chars (P : ascii -> bool) (s : string) : bool :=
  match s with
  | "" => true
  | String c r => P c && all_chars P r
  end.

(** The character class [[a-fA-F0-9]]. *)
Definition is_hex (c : ascii) : bool :=
  match Js.digit_value 16 c with Some _ => true | None => false end.

(** The number of occurrences of a character. *)
Fixpoint count_char (c : ascii) (s : string) : nat :=
  match s with
  | "" => O
  | String a r => (if decide (a = c) then 1 else 0) + count_char c r
  end.

(** [l.sort(cmp)]: the sort is stable, so for a consistent comparator
    the result is that of the insertion sort. *)
Fixpoint sort_insert {A} (cmp : A -> A -> Z) (x : A) (l : list A) : list A :=
  match l with
  | [] => [x]
  | y :: l' => if decide (cmp x y <= 0) then x :: y :: l' else y :: sort_insert cmp x l'
  end.

Definition sort {A} (cmp : A -> A -> Z) (l : list A) : list A :=
  foldr (sort_insert cmp) [] l.

End JsStr.

(** *** constants.ts *)

Definition CHAIN_NAMES : gmap Z string :=
  <[ 42220 := "CELO" ]> (<[ 122 := "FUSE" ]> (<[ 1 := "ETH" ]> (<[ 50 := "XDC" ]> ∅))).

Definition EXPLORER_URLS_LAYERZERO (txHash : string) : string :=
  "https://layerzeroscan.com/tx/" +:+ txHash.

Definition EXPLORER_URLS_AXELAR (txHash : string) : string :=
  "https://axelarscan.io/gmp/" +:+ txHash.

(** *** utils/decimals.ts *)

Definition validateAmountDecimals (amount : string) (chainId : Z) : bool :=
  let decimals := getChainDecimals chainId in
  let parts := Js.split "." amount in
  if decide (2 < length parts)%nat then false
  else
    let fractionalPart := Js.or_str (parts !! 1%nat) "" in
    bool_decide (Js.len fractionalPart <= decimals).


Record BalanceValidation : Type := {
  bv_isValid : bool;
  reason : option string;
}.

Module DecimalsTs.

(** [fee] is 0 when the caller leaves it out. *)
Definition validateSufficientBalance (balance amount : Z) (fee : option Z)
  : Completion BalanceValidation :=
  let totalRequired := amount + default 0 fee in
  if decide (balance < totalRequired) then
    required ← formatAmount totalRequired 18;
    available ← formatAmount balance 18;
    Return {| bv_isValid := false;
              reason := Some ("Insufficient balance. Required: " +:+ required
                              +:+ ", Available: " +:+ available) |}
  else Return {| bv_isValid := true; reason := None |}.

End DecimalsTs.

(** *** utils/fees.ts *)

Definition formatFee (fee : Z) (chainId : Z) : Completion string :=
  let decimals := Js.or_num (decimals <$> SUPPORTED_CHAINS !! chainId) 18 in
  divisor ← Js.BigInt_pow 10 decimals;
  let whole := Z.quot fee divisor in
  let fractional := Z.rem fee divisor in
  if decide (fractional = 0) then Return (Js.BigInt_toString whole)
  else
    let fractionalStr := Js.padStart (Js.BigInt_toString fractional) decimals "0" in
    let trimmedFractional := Js.strip_trailing "0" fractionalStr in
    Return (Js.BigInt_toString whole +:+ "." +:+ trimmedFractional).

Definition calculateTotalCost (bridgeAmount fee : Z) : Z := bridgeAmount + fee.

Module FeesTs.

Definition validateSufficientBalance (userBalance bridgeAmount fee : Z) : Validation :=
  let totalCost := calculateTotalCost bridgeAmount fee in
  if decide (userBalance < totalCost) then
    {| isValid := false;
       v_error := Some ("Insufficient balance. Required: " +:+ Js.BigInt_toString totalCost
                        +:+ ", Available: " +:+ Js.BigInt_toString userBalance) |}
  else {| isValid := true; v_error := None |}.

End FeesTs.

Section AllFees.
Context {T : Type}.

(** The loop of [getAllFeeEstimates] over the protocols that are left:
    an estimate that fails is skipped (and logged on the console, which
    the trace of calls does not record). *)
Fixpoint collectFeeEstimates (fromChainId toChainId : Z)
    (protocols : list BridgeProtocol) (estimates : list FeeEstimate)
  : Async T (list FeeEstimate) :=
  match protocols with
  | [] => mret estimates
  | protocol :: rest =>
      estimates' ← try_catch
                     (estimate ← getFeeEstimate fromChainId toChainId protocol;
                      mret (estimates ++ [estimate])%list)
                     (fun _ => mret estimates);
      collectFeeEstimates fromChainId toChainId rest estimates'
  end.

Definition getAllFeeEstimates (fromChainId toChainId : Z) : Async T (list FeeEstimate) :=
  let protocols := [AXELAR; LAYERZERO] in
  estimates ← collectFeeEstimates fromChainId toChainId protocols [];
  if decide (length estimates = 0%nat) then
    throw (Err "Error" ("No fee estimates available for route "
                        +:+ Js.BigInt_toString fromChainId +:+ " to "
                        +:+ Js.BigInt_toString toChainId))
  else mret estimates.
End AllFees.

(** *** utils/tracking.ts *)
Module TrackingTs.

Definition getExplorerLink (txHash : string) (protocol : BridgeProtocol) : string :=
  match protocol with
  | LAYERZERO => "https://layerzeroscan.com/tx/" +:+ txHash
  | AXELAR => "https://axelarscan.io/gmp/" +:+ txHash
  end.

(** [/^0x[a-fA-F0-9]{64}$/.test(hash)] *)
Definition isValidTxHash (hash : string) : bool :=
  match hash with
  | String "0" (String "x" r) =>
      (String.length r =? 64)%nat && JsStr.all_chars JsStr.is_hex r
  | _ => false
  end.

Definition truncateTxHash (hash : string) : string :=
  Js.slice0 hash 6 +:+ "..." +:+ JsStr.slice_from hash (-4).

Definition formatChainName (chainId : Z) : string :=
  if decide (chainId = 42220) then "Celo"
  else if decide (chainId = 122) then "Fuse"
  else if decide (chainId = 1) then "Ethereum"
  else if decide (chainId = 50) then "XDC"
  else "Chain " +:+ Js.BigInt_toString chainId.

End TrackingTs.

(** *** viem-sdk.ts: more of the class *)

Record ExecutedTransferEvent : Type := {
  ex_transactionHash : string;
  ex_blockNumber : Z;
  ex_address : string;
  ex_from : string;
  ex_to : string;
  ex_amount : Z;
  ex_fee : Z;
  ex_sourceChainId : Z;
  ex_bridge : BridgeProtocol;
  ex_id : Z;
}.

Definition blockNumber (e : BridgeRequestEvent + ExecutedTransferEvent) : Z :=
  match e with
  | inl r => br_blockNumber r
  | inr x => ex_blockNumber x
  end.

Module ViemSdkMore.
Import ViemSdk.

(** [setWalletClient(walletClient)], given the chain id of the wallet
    client when it has one: the object afterwards. *)
Definition setWalletClient (this : BridgingSDK) (walletChainId : option Z)
  : Completion BridgingSDK :=
  match walletChainId with
  | None => Throw (Err "Error" "Unsupported chain ID: undefined")
  | Some chainId =>
      if decide (chainId = 0) then
        Throw (Err "Error" ("Unsupported chain ID: " +:+ Js.BigInt_toString chainId))
      else
        match SUPPORTED_CHAINS !! chainId with
        | None => Throw (Err "Error" ("Unsupported chain ID: " +:+ Js.BigInt_toString chainId))
        | Some _ =>
            Return {| walletClient := true; currentChainId := chainId; fees := fees this |}
        end
  end.

Definition bridgeToWithLz (target : string) (targetChainId amount : Z)
    (adapterParams : option string) (msgValue : option Z)
  : Async BridgingSDK TransactionReceipt :=
  bridgeInternal
    {| o_targetChainId := targetChainId;
       o_protocol := LAYERZERO;
       o_msgValue := msgValue;
       o_fn := fn_bridgeToWithLzAdapterParams;
       o_args := [VAddress target; VUint targetChainId; VUint amount;
                  VBytes (Js.or_str adapterParams "0x")] |}.

Definition bridgeToWithAxelar (target : string) (targetChainId amount : Z)
    (_gasRefundAddress : option string) (msgValue : option Z)
  : Async BridgingSDK TransactionReceipt :=
  bridgeInternal
    {| o_targetChainId := targetChainId;
       o_protocol := AXELAR;
       o_msgValue := msgValue;
       o_fn := fn_bridgeToWithAxelar;
       o_args := [VAddress target; VUint targetChainId; VUint amount] |}.

(** The comparator of [getHistory]: later blocks first. *)
Definition compareHistory (a b : BridgeRequestEvent + ExecutedTransferEvent) : Z :=
  if decide (blockNumber a < blockNumber b) then 1
  else if decide (blockNumber a > blockNumber b) then -1
  else 0.

(** [getHistory] once both lists have arrived:
    [[...requests, ...executed].sort(...)]. *)
Definition mergeHistory (requests : list BridgeRequestEvent)
    (executed : list ExecutedTransferEvent)
  : list (BridgeRequestEvent + ExecutedTransferEvent) :=
  JsStr.sort compareHistory ((inl <$> requests) ++ (inr <$> executed))%list.

Definition explorerLink (txHash : string) (protocol : BridgeProtocol) : string :=
  if decide (protocol = LAYERZERO) then "https://layerzeroscan.com/tx/" +:+ txHash
  else "https://axelarscan.io/gmp/" +:+ txHash.

Definition formatChainName (chainId : Z) : string :=
  if decide (chainId = 42220) then "Celo"
  else if decide (chainId = 122) then "Fuse"
  else if decide (chainId = 1) then "Ethereum"
  else if decide (chainId = 50) then "XDC"
  else "Chain " +:+ Js.BigInt_toString chainId.

End ViemSdkMore.

(** *** unnamed/part_003: more of the class *)
Module Part003More.
Import Part003.

Definition setWalletClient (this : BridgingSDK) (walletChainId : option Z)
  : Completion BridgingSDK :=
  match walletChainId with
  | None => Throw (Err "Error" "Unsupported chain ID: undefined")
  | Some chainId =>
      if decide (chainId = 0) then
        Throw (Err "Error" ("Unsupported chain ID: " +:+ Js.BigInt_toString chainId))
      else
        match SUPPORTED_CHAINS !! chainId with
        | None => Throw (Err "Error" ("Unsupported chain ID: " +:+ Js.BigInt_toString chainId))
        | Some _ => Return {| walletClient := true; currentChainId := chainId |}
        end
  end.

Definition bridgeToWithLz (target : string) (targetChainId amount : Z)
    (adapterParams : option string) (msgValue : option Z)
  : Async BridgingSDK TransactionReceipt :=
  bridgeInternal
    {| o_targetChainId := targetChainId;
       o_protocol := LAYERZERO;
       o_msgValue := msgValue;
       o_fn := fn_bridgeToWithLzAdapterParams;
       o_args := [VAddress target; VUint targetChainId; VUint amount;
                  VBytes (Js.or_str adapterParams "0x")] |}.

Definition bridgeToWithAxelar (target : string) (targetChainId amount : Z)
    (gasRefundAddress : option string) (msgValue : option Z)
  : Async BridgingSDK TransactionReceipt :=
  bridgeInternal
    {| o_targetChainId := targetChainId;
       o_protocol := AXELAR;
       o_msgValue := msgValue;
       o_fn := fn_bridgeToWithAxelar;
       o_args := [VAddress target; VUint targetChainId; VUint amount] |}.

End Part003More.

(** *** The demo application: the decimals of a chain *)

(** [getDecimalsForChain] of the transaction card (unnamed/part_001). *)
Definition getDecimalsForChain (chainId : Z) : Z :=
  if decide (chainId = 42220 \/ chainId = 50) then 18
  else if decide (chainId = 1 \/ chainId = 122) then 2
  else 18.

(** The decimals of [formatAmountValue] (unnamed/part_002). *)
Definition formatAmountValue_decimals (chainId : Z) : Z :=
  if decide (chainId = 1 \/ chainId = 122) then 2 else 18.

(** *** What the further properties speak about *)

(** The requests that a run wrote to the chain. *)
Definition writes (h : list Event) : list ContractCall :=
  omap (fun ev => match ev with WriteContract c => Some c | _ => None end) h.

(** The calls [new] of a run simulate at most one contract call, of the
    function [fn] with the arguments [args], and write at most what they
    simulated. *)
Definition callsOnly (fn : string) (args : list AbiValue) (new : list Event) : Prop :=
  (length (writes new) <= length (simulated new) <= 1)%nat /\
  Forall (fun c => cc_functionName c = fn /\ cc_args c = args) (simulated new).

(** The call of the bridge contract of [chainId] that a transfer with
    the options [opts] simulates for [account], paying [fee]. *)
Definition transferCall (chainId : Z) (opts : BridgeOpts) (account : string) (fee : Z)
  : ContractCall :=
  {| cc_account := Some account;
     cc_address := Js.or_str (BRIDGE_CONTRACT_ADDRESSES !! chainId) "";
     cc_functionName := BridgeFn_name (o_fn opts);
     cc_args := o_args opts;
     cc_value := Some fee |}.

(** The wallet and chain requests of a transfer that goes through. *)
Definition transferSteps (call request : ContractCall) (hash : string) : list Event :=
  [GetAddresses; SimulateContract call; WriteContract request;
   WaitForTransactionReceipt hash].

(** How [getFeeEstimate] settles after the calls [h], whatever object
    runs it. *)
Definition feeEstimateAt (w : World) (h : list Event) (fromChainId toChainId : Z)
    (p : BridgeProtocol) : Completion FeeEstimate :=
  (getFeeEstimate (T:=unit) fromChainId toChainId p w tt h).2.

(** The values of the settlements that are not rejections. *)
Definition resolved {A} (rs : list (Completion A)) : list A :=
  omap (fun r => match r with Return a => Some a | Throw _ => None end) rs.

(** A list in the order of [getHistory]: no entry before one of a later
    block. *)
Fixpoint latestFirst (l : list (BridgeRequestEvent + ExecutedTransferEvent)) : Prop :=
  match l with
  | [] => True
  | a :: l' => Forall (fun b => blockNumber b <= blockNumber a) l' /\ latestFirst l'
  end.

(** The entries of a block, in the order of the list. *)
Definition ofBlock (n : Z) (l : list (BridgeRequestEvent + ExecutedTransferEvent))
  : list (BridgeRequestEvent + ExecutedTransferEvent) :=
  filter (fun e => blockNumber e = n) l.

(** What the scan API of the protocol answers about a transaction after
    the calls [h]: whether the response is ok, and the status word of the
    first message or transaction of its body, when it has one. *)
Definition firstStatus (w : World) (h : list Event) (txHash : string) (p : BridgeProtocol)
  : option (bool * string) :=
  match p with
  | LAYERZERO =>
      match w_fetchLayerZero w h txHash with
      | Return response =>
          match json response with
          | Return body =>
              match messages body with
              | Some (message :: _) => Some (ok response, lz_status message)
              | _ => None
              end
          | Throw _ => None
          end
      | Throw _ => None
      end
  | AXELAR =>
      match w_fetchAxelar w h txHash with
      | Return response =>
          match json response with
          | Return body =>
              match data body with
              | Some (transaction :: _) => Some (ok response, ax_status transaction)
              | _ => None
              end
          | Throw _ => None
          end
      | Throw _ => None
      end
  end.

(** The status word of a transfer that arrived. *)
Definition deliveredWord (p : BridgeProtocol) : string :=
  match p with
  | LAYERZERO => "DELIVERED"
  | AXELAR => "executed"
  end.

(** The first block of the default window of the event queries of
    viem-sdk.ts. *)
Definition windowStart (currentBlock : Z) : Z := Z.max (currentBlock - 50000) 0.

(** The query of [getBridgeRequests] for the requests of [address] on the
    bridge contract at [contractAddress]: [fromBlock] and [toBlock] are
    taken from the options unless they are left out or 0. *)
Definition requestsQuery (contractAddress address : string) (options : option EventOptions)
    (defaultFrom : Z) : EventQuery :=
  {| q_address := contractAddress; q_eventName := "BridgeRequest"; q_from := address;
     q_fromBlock :=
       match options ≫= fromBlock with
       | Some b => if decide (b = 0) then defaultFrom else b
       | None => defaultFrom
       end;
     q_toBlock :=
       match options ≫= toBlock with
       | Some b => if decide (b = 0) then None else Some b
       | None => None
       end |}.

(** The limit of an event query: 1000 when it is left out or 0. *)
Definition queryLimit (options : option EventOptions) : Z :=
  match options ≫= limit with
  | Some n => if decide (n = 0) then 1000 else n
  | None => 1000
  end.

(** The bridge request that the chain of [bridge_world] has logged, as
    each variant of the SDK reads it. *)
Definition bridge_world_request (bridge : BridgeProtocol) : BridgeRequestEvent :=
  {| br_transactionHash := "0xhash0"; br_blockNumber := 59000;
     br_address := "0xa3247276dbcc76dd7705273f766eb3e8a5ecf4a5";
     br_from := "0xSender"; br_to := "0xTarget";
     br_amount := 1150000000000000000; br_targetChainId := 1;
     br_timestamp := 1700000000; br_bridge := bridge; br_id := 7 |}.

(** * Properties *)

(** ** Facts about the string primitives *)
Module JsFacts.
Import Js.

Lemma append_cons c (s t : string) : String c s +:+ t = String c (s +:+ t).
Proof. reflexivity. Qed.

Lemma append_nil_l (t : string) : "" +:+ t = t.
Proof. reflexivity. Qed.

Lemma append_nil_r (s : string) : s +:+ "" = s.
Proof. induction s as [|c s IH]; [reflexivity | now rewrite append_cons, IH]. Qed.

Lemma append_assoc (a b c : string) : (a +:+ b) +:+ c = a +:+ (b +:+ c).
Proof. induction a as [|x a IH]; [reflexivity | now rewrite !append_cons, IH]. Qed.

Lemma length_append (a b : string) :
  String.length (a +:+ b) = (String.length a + String.length b)%nat.
Proof. induction a as [|x a IH]; [reflexivity | rewrite append_cons; simpl; now rewrite IH]. Qed.

Lemma length_repeat_char c n : String.length (repeat_char c n) = n.
Proof. induction n as [|n IH]; simpl; [reflexivity | now rewrite IH]. Qed.

Lemma repeat_char_snoc c n : repeat_char c (S n) = repeat_char c n +:+ String c "".
Proof.
  induction n as [|n IH]; [reflexivity|].
  change (repeat_char c (S (S n))) with (String c (repeat_char c (S n))).
  rewrite IH at 1. reflexivity.
Qed.

Lemma repeat_char_plus c n m :
  repeat_char c (n + m) = repeat_char c n +:+ repeat_char c m.
Proof. induction n as [|n IH]; [reflexivity | simpl; now rewrite append_cons, IH]. Qed.

(** *** Digits *)

Lemma digit_value_10_code c d :
  digit_value 10 c = Some d ->
  (48 <= N_of_ascii c <= 57)%N /\ d = (N_of_ascii c - 48)%N.
Proof.
  destruct c as [[] [] [] [] [] [] [] []]; vm_compute; intros H;
    try discriminate H; inversion H; repeat split; discriminate.
Qed.

Lemma digit_value_lt10 c d : digit_value 10 c = Some d -> (d < 10)%N.
Proof. intros H. apply digit_value_10_code in H. lia. Qed.

Lemma digit_value_digit_char d : (d < 10)%N -> digit_value 10 (digit_char d) = Some d.
Proof.
  intros H. unfold digit_value, digit_char.
  rewrite N_ascii_embedding by lia.
  destruct (N.leb_spec 48 (48 + d)); [|lia].
  destruct (N.leb_spec (48 + d) 57); [|lia]. simpl.
  replace (48 + d - 48)%N with d by lia.
  destruct (N.ltb_spec d 10); [reflexivity | lia].
Qed.

(** A digit is none of the characters the parsers treat specially. *)
Lemma digit_not_code c d (k : N) :
  digit_value 10 c = Some d -> (k < 48 \/ 57 < k)%N -> k = N_of_ascii (ascii_of_N k) ->
  c <> ascii_of_N k.
Proof.
  intros H Hk He ->. apply digit_value_10_code in H. lia.
Qed.

Lemma parse_digits_app r s1 s2 a :
  parse_digits r (s1 +:+ s2) a = parse_digits r s1 a ≫= parse_digits r s2.
Proof.
  revert a. induction s1 as [|c s1 IH]; intros a; [reflexivity|].
  rewrite append_cons. simpl.
  destruct (digit_value r c); [apply IH | reflexivity].
Qed.

Lemma parse_digits_add s a b v :
  parse_digits 10 s a = Some v ->
  parse_digits 10 s (a + b) = Some (v + b * 10 ^ N.of_nat (String.length s))%N.
Proof.
  revert a b v. induction s as [|c s IH]; intros a b v H; simpl in *.
  - inversion H; subst. f_equal. lia.
  - destruct (digit_value 10 c) as [d|]; [|discriminate].
    replace ((a + b) * 10 + d)%N with ((a * 10 + d) + b * 10)%N by lia.
    rewrite (IH _ (b * 10)%N _ H). f_equal.
    rewrite Nat2N.inj_succ, N.pow_succ_r'. lia.
Qed.

Lemma parse_digits_from0 s a v :
  parse_digits 10 s a = Some v -> exists v0, parse_digits 10 s 0 = Some v0.
Proof.
  revert a v. induction s as [|c s IH]; intros a v H; simpl in *.
  - now exists 0%N.
  - destruct (digit_value 10 c) as [d|]; [|discriminate].
    destruct (IH _ _ H) as [v0 H0].
    apply (parse_digits_add _ _ d) in H0. rewrite N.add_0_l in H0. eauto.
Qed.

(** A run of digits read after [a] is [a] shifted by its length plus the
    run read on its own. *)
Lemma parse_digits_acc s a v :
  parse_digits 10 s a = Some v ->
  exists v0, parse_digits 10 s 0 = Some v0 /\
             (v = a * 10 ^ N.of_nat (String.length s) + v0)%N.
Proof.
  intros H. destruct (parse_digits_from0 _ _ _ H) as [v0 H0].
  exists v0. split; [assumption|].
  apply (parse_digits_add _ _ a) in H0. rewrite N.add_0_l, H in H0.
  inversion H0. lia.
Qed.

Lemma parse_digits_acc_inv s a v0 :
  parse_digits 10 s 0 = Some v0 ->
  parse_digits 10 s a = Some (a * 10 ^ N.of_nat (String.length s) + v0)%N.
Proof.
  intros H. apply (parse_digits_add _ _ a) in H. rewrite N.add_0_l in H.
  rewrite H. f_equal. lia.
Qed.

(** The value of a run of digits is below the power of ten of its length. *)
Lemma parse_digits_bound s v :
  parse_digits 10 s 0 = Some v -> (v < 10 ^ N.of_nat (String.length s))%N.
Proof.
  revert v. induction s as [|c s IH]; intros v H; simpl in H.
  - inversion H. simpl. lia.
  - destruct (digit_value 10 c) as [d|] eqn:Hd; [|discriminate].
    apply digit_value_lt10 in Hd.
    destruct (parse_digits_acc _ _ _ H) as (v0 & H0 & ->).
    specialize (IH _ H0). cbn [String.length].
    rewrite Nat2N.inj_succ, N.pow_succ_r'. nia.
Qed.

Lemma parse_digits_zeros n a :
  parse_digits 10 (repeat_char "0" n) a = Some (a * 10 ^ N.of_nat n)%N.
Proof.
  revert a. induction n as [|n IH]; intros a.
  - simpl. f_equal. lia.
  - cbn [repeat_char parse_digits]. change (digit_value 10 "0") with (Some 0%N).
    cbv iota beta. rewrite IH. f_equal. rewrite Nat2N.inj_succ, N.pow_succ_r'. lia.
Qed.

(** *** BigInt.prototype.toString *)

Lemma digits_fuel_acc fuel n acc :
  digits_fuel fuel n acc = digits_fuel fuel n "" +:+ acc.
Proof.
  revert n acc. induction fuel as [|f IH]; intros n acc; [reflexivity|].
  cbn [digits_fuel]. destruct (n <? 10)%N; [reflexivity|].
  rewrite (IH _ (String _ acc)), (IH _ (String _ "")).
  now rewrite append_assoc.
Qed.

Lemma parse_digits_fuel fuel n :
  (n < 2 ^ N.of_nat fuel)%N ->
  parse_digits 10 (digits_fuel fuel n "") 0 = Some n.
Proof.
  revert n. induction fuel as [|f IH]; intros n Hn.
  - simpl in Hn. assert (n = 0)%N by lia. subst. reflexivity.
  - cbn [digits_fuel].
    assert (Hd : (n mod 10 < 10)%N) by (apply N.mod_lt; lia).
    destruct (N.ltb_spec n 10) as [Hlt|Hge].
    + cbn [parse_digits]. rewrite (digit_value_digit_char _ Hd).
      rewrite N.mod_small by lia. reflexivity.
    + rewrite digits_fuel_acc, parse_digits_app.
      rewrite IH.
      * cbn. rewrite (digit_value_digit_char _ Hd). f_equal.
        pose proof (N.div_mod n 10). lia.
      * rewrite Nat2N.inj_succ, N.pow_succ_r' in Hn.
        apply N.Div0.div_lt_upper_bound. lia.
Qed.

Lemma size_nat_bound n : (n < 2 ^ N.of_nat (N.size_nat n))%N.
Proof.
  destruct n as [|p]; [simpl; lia|].
  simpl. induction p as [p IH|p IH|]; cbn [Pos.size_nat].
  - rewrite Nat2N.inj_succ, N.pow_succ_r'. lia.
  - rewrite Nat2N.inj_succ, N.pow_succ_r'. lia.
  - simpl. lia.
Qed.

Lemma parse_N_toString n : parse_digits 10 (N_toString n) 0 = Some n.
Proof.
  apply parse_digits_fuel.
  pose proof (size_nat_bound n).
  rewrite Nat2N.inj_succ, N.pow_succ_r'. lia.
Qed.

Lemma digits_fuel_nonempty fuel n : digits_fuel (S fuel) n "" <> "".
Proof.
  cbn [digits_fuel]. destruct (n <? 10)%N; [discriminate|].
  rewrite digits_fuel_acc. destruct (digits_fuel fuel (n / 10) ""); discriminate.
Qed.

Lemma N_toString_nonempty n : N_toString n <> "".
Proof. apply digits_fuel_nonempty. Qed.

(** No more digits than the magnitude needs. *)
Lemma length_digits_fuel fuel n d :
  (n < 10 ^ N.of_nat d)%N -> (0 < d)%nat ->
  (String.length (digits_fuel fuel n "") <= d)%nat.
Proof.
  revert n d. induction fuel as [|f IH]; intros n d Hn Hd; [simpl; lia|].
  cbn [digits_fuel]. destruct (N.ltb_spec n 10) as [Hlt|Hge]; [simpl; lia|].
  rewrite digits_fuel_acc, length_append. simpl.
  destruct d as [|d]; [lia|].
  rewrite Nat2N.inj_succ, N.pow_succ_r' in Hn.
  destruct d as [|d]; [simpl in Hn; lia|].
  assert ((String.length (digits_fuel f (n / 10) "") <= S d)%nat); [|lia].
  apply IH; [|lia]. apply N.Div0.div_lt_upper_bound. lia.
Qed.

Lemma length_N_toString n d :
  (n < 10 ^ N.of_nat d)%N -> (0 < d)%nat -> (String.length (N_toString n) <= d)%nat.
Proof. apply length_digits_fuel. Qed.

Lemma BigInt_toString_nonneg z : 0 <= z -> BigInt_toString z = N_toString (Z.to_N z).
Proof. destruct z; [reflexivity | reflexivity | lia]. Qed.

(** *** Strings of decimal digits *)

Lemma digits_no_char s a v (k : N) :
  parse_digits 10 s a = Some v -> (k < 48 \/ 57 < k)%N -> k = N_of_ascii (ascii_of_N k) ->
  has_char (ascii_of_N k) s = false.
Proof.
  revert a v. induction s as [|c s IH]; intros a v H Hk He; [reflexivity|].
  simpl in *. destruct (digit_value 10 c) as [d|] eqn:Hd; [|discriminate].
  rewrite (IH _ _ H Hk He), orb_false_r.
  apply bool_decide_eq_false. eapply digit_not_code; eauto.
Qed.

Lemma digits_no_point s a v : parse_digits 10 s a = Some v -> has_char "." s = false.
Proof. intros H. apply (digits_no_char _ _ _ 46 H); [lia | reflexivity]. Qed.

Lemma split_no_sep sep s : has_char sep s = false -> split sep s = [s].
Proof.
  induction s as [|c s IH]; intros H; [reflexivity|].
  simpl in *. apply orb_false_iff in H as [Hc Hs].
  apply bool_decide_eq_false in Hc.
  destruct (decide (c = sep)); [contradiction|]. now rewrite (IH Hs).
Qed.

Lemma split_app sep s1 s2 :
  has_char sep s1 = false ->
  split sep (s1 +:+ String sep s2) = s1 :: split sep s2.
Proof.
  induction s1 as [|c s1 IH]; intros H.
  - rewrite append_nil_l. simpl. destruct (decide (sep = sep)); [reflexivity | contradiction].
  - simpl in H. apply orb_false_iff in H as [Hc Hs].
    apply bool_decide_eq_false in Hc.
    rewrite append_cons. simpl.
    destruct (decide (c = sep)); [contradiction|]. now rewrite (IH Hs).
Qed.

Lemma digit_not_space c d : digit_value 10 c = Some d -> is_space c = false.
Proof.
  intros H. apply digit_value_10_code in H as [H _]. unfold is_space.
  destruct (N.leb_spec 9 (N_of_ascii c)), (N.leb_spec (N_of_ascii c) 13),
    (N.eqb_spec (N_of_ascii c) 32); simpl; try reflexivity; lia.
Qed.

Lemma trim_end_digits s a v : parse_digits 10 s a = Some v -> trim_end s = s.
Proof.
  revert a v. induction s as [|c s IH]; intros a v H; [reflexivity|].
  simpl in *. destruct (digit_value 10 c) as [d|] eqn:Hd; [|discriminate].
  rewrite (IH _ _ H). destruct s; [|reflexivity].
  now rewrite (digit_not_space _ _ Hd).
Qed.

Lemma trim_digits s a v : parse_digits 10 s a = Some v -> trim s = s.
Proof.
  intros H. unfold trim.
  assert (trim_start s = s) as ->.
  { destruct s as [|c s]; [reflexivity|]. simpl in *.
    destruct (digit_value 10 c) as [d|] eqn:Hd; [|discriminate].
    now rewrite (digit_not_space _ _ Hd). }
  eapply trim_end_digits; eauto.
Qed.

Lemma radix_prefix_digits s a v : parse_digits 10 s a = Some v -> radix_prefix s = None.
Proof.
  intros H. destruct s as [|z [|p r]]; try reflexivity.
  simpl in *.
  destruct (digit_value 10 z) as [dz|]; [|discriminate].
  destruct (digit_value 10 p) as [dp|] eqn:Hp; [|discriminate].
  assert (Hne : forall k : N, (57 < k)%N -> k = N_of_ascii (ascii_of_N k) -> p <> ascii_of_N k).
  { intros k Hk He. eapply digit_not_code; eauto. }
  destruct (decide (z = "0"%char)); [|reflexivity].
  pose proof (Hne 120%N ltac:(lia) eq_refl). pose proof (Hne 88%N ltac:(lia) eq_refl).
  pose proof (Hne 111%N ltac:(lia) eq_refl). pose proof (Hne 79%N ltac:(lia) eq_refl).
  pose proof (Hne 98%N ltac:(lia) eq_refl). pose proof (Hne 66%N ltac:(lia) eq_refl).
  repeat (case_decide; [tauto|]). reflexivity.
Qed.

(** [BigInt] of a run of decimal digits is its value; of no digits, 0. *)
Lemma BigInt_ofString_digits s v :
  parse_digits 10 s 0 = Some v -> BigInt_ofString s = Return (Z.of_N v).
Proof.
  intros H. unfold BigInt_ofString. rewrite (trim_digits _ _ _ H).
  destruct s as [|c r]; [inversion H; reflexivity|].
  rewrite (radix_prefix_digits _ _ _ H).
  assert (Hc : exists d, digit_value 10 c = Some d).
  { simpl in H. destruct (digit_value 10 c); [eauto | discriminate]. }
  destruct Hc as [d Hd].
  pose proof (digit_not_code c d 43%N Hd ltac:(lia) eq_refl).
  pose proof (digit_not_code c d 45%N Hd ltac:(lia) eq_refl).
  repeat (case_decide; [contradiction|]).
  unfold parse_nonempty. rewrite H. reflexivity.
Qed.

(** *** Trailing zeros *)

Lemma strip_trailing_spec c s :
  exists k, s = strip_trailing c s +:+ repeat_char c k.
Proof.
  induction s as [|a s [k IH]]; [now exists O|].
  cbn [strip_trailing]. destruct (strip_trailing c s) as [|b t] eqn:E.
  - destruct (decide (a = c)) as [->|].
    + exists (S k). rewrite append_nil_l in *. simpl. now rewrite <- IH.
    + exists k. rewrite append_cons. now rewrite <- IH.
  - exists k. rewrite append_cons. now rewrite <- IH.
Qed.

Lemma strip_trailing_last c s t : strip_trailing c s <> t +:+ String c "".
Proof.
  revert t. induction s as [|a s IH]; intros t.
  - simpl. destruct t; discriminate.
  - cbn [strip_trailing]. destruct (strip_trailing c s) as [|b u] eqn:E.
    + destruct (decide (a = c)); [destruct t; discriminate|].
      destruct t as [|x [|y t]]; [|discriminate..]. intros [=]. contradiction.
    + destruct t as [|x t]; [discriminate|]. rewrite append_cons. intros [= -> Hu].
      exact (IH _ Hu).
Qed.

Lemma strip_trailing_empty c s :
  strip_trailing c s = "" -> s = repeat_char c (String.length s).
Proof.
  intros H. destruct (strip_trailing_spec c s) as [k Hk].
  rewrite H, append_nil_l in Hk. rewrite Hk at 2. now rewrite length_repeat_char.
Qed.

(** *** Prefixes *)

Lemma take_app s1 s2 : take (String.length s1) (s1 +:+ s2) = s1.
Proof.
  induction s1 as [|c s1 IH]; [destruct s2; reflexivity|].
  rewrite append_cons. simpl. now rewrite IH.
Qed.

Lemma take_split n s :
  (n <= String.length s)%nat ->
  exists r, s = take n s +:+ r /\ String.length (take n s) = n.
Proof.
  revert s. induction n as [|n IH]; intros s H.
  - exists s. destruct s; split; reflexivity.
  - destruct s as [|c s]; [simpl in H; lia|]. simpl in H.
    destruct (IH s ltac:(lia)) as (r & Hr & Hl).
    exists r. cbn [take]. rewrite append_cons, <- Hr. simpl. now rewrite Hl.
Qed.

End JsFacts.

(** ** utils/decimals.ts *)
Module DecimalsFacts.
Import Js JsFacts.

(** The registry has four chains, of 18 or 2 decimals. *)
Lemma SUPPORTED_CHAINS_inv chainId c :
  SUPPORTED_CHAINS !! chainId = Some c ->
  (chainId = 42220 /\ decimals c = 18) \/ (chainId = 122 /\ decimals c = 2) \/
  (chainId = 1 /\ decimals c = 2) \/ (chainId = 50 /\ decimals c = 18).
Proof.
  unfold SUPPORTED_CHAINS. intros H.
  repeat (apply lookup_insert_Some in H as [[<- <-]|[? H]]; [simpl; tauto|]).
  now rewrite lookup_empty in H.
Qed.

Lemma getChainDecimals_supported chainId c :
  SUPPORTED_CHAINS !! chainId = Some c -> getChainDecimals chainId = decimals c.
Proof.
  intros H. unfold getChainDecimals. rewrite H. simpl.
  apply SUPPORTED_CHAINS_inv in H.
  case_decide; [lia | reflexivity].
Qed.

Lemma Z_of_N_pow10 (a : N) (k : nat) :
  Z.of_N (a * 10 ^ N.of_nat k) = Z.of_N a * 10 ^ Z.of_nat k.
Proof. rewrite N2Z.inj_mul, N2Z.inj_pow, nat_N_Z. reflexivity. Qed.

(** The fractional digits before trimming: [d] digits denoting [n]. *)
Lemma padStart_digits (n : N) (d : nat) :
  (n < 10 ^ N.of_nat d)%N -> (0 < d)%nat ->
  parse_digits 10 (padStart (N_toString n) (Z.of_nat d) "0") 0 = Some n /\
  String.length (padStart (N_toString n) (Z.of_nat d) "0") = d.
Proof.
  intros Hn Hd. pose proof (length_N_toString _ _ Hn Hd) as Hl.
  unfold padStart, len.
  replace (Z.to_nat (Z.of_nat d - Z.of_nat (String.length (N_toString n))))
    with (d - String.length (N_toString n))%nat by lia.
  split.
  - rewrite parse_digits_app, parse_digits_zeros. simpl. apply parse_N_toString.
  - rewrite length_append, length_repeat_char. lia.
Qed.

(** The trimmed fractional digits: a non-empty run of at most [d] digits
    that does not end in a zero and denotes [n] once padded to [d]. *)
Lemma trimmed_fraction (n : N) (d : nat) :
  (n < 10 ^ N.of_nat d)%N -> n <> 0%N ->
  let f := strip_trailing "0" (padStart (N_toString n) (Z.of_nat d) "0") in
  exists F,
    parse_digits 10 f 0 = Some F /\
    f <> "" /\ (forall t, f <> t +:+ "0") /\
    (String.length f <= d)%nat /\
    (F * 10 ^ N.of_nat (d - String.length f) = n)%N /\
    padStart (N_toString n) (Z.of_nat d) "0" = f +:+ repeat_char "0" (d - String.length f).
Proof.
  intros Hn Hnz f.
  assert (Hd : (0 < d)%nat).
  { destruct d; [simpl in Hn; lia | lia]. }
  destruct (padStart_digits n d Hn Hd) as [Hp Hl].
  destruct (strip_trailing_spec "0" (padStart (N_toString n) (Z.of_nat d) "0")) as [k Hk].
  fold f in Hk. rewrite Hk in Hp, Hl.
  rewrite length_append, length_repeat_char in Hl.
  rewrite parse_digits_app in Hp.
  destruct (parse_digits 10 f 0) as [F|] eqn:HF; [|discriminate].
  simpl in Hp. rewrite parse_digits_zeros in Hp.
  assert (HFn : (F * 10 ^ N.of_nat k)%N = n) by congruence.
  replace (d - String.length f)%nat with k by lia.
  exists F. repeat split; try assumption.
  - intros E. rewrite E in HF. inversion HF. subst F. lia.
  - intros t. apply strip_trailing_last.
  - lia.
Qed.

(** What [formatAmount] returns, by the fractional part. *)
Lemma formatAmount_cases (x d : Z) :
  0 <= x -> 0 <= d ->
  formatAmount x d =
    Return (if decide (x mod 10 ^ d = 0) then BigInt_toString (x / 10 ^ d)
            else BigInt_toString (x / 10 ^ d) +:+ "." +:+
                 strip_trailing "0" (padStart (N_toString (Z.to_N (x mod 10 ^ d))) d "0")).
Proof.
  intros Hx Hd. unfold formatAmount, BigInt_pow.
  destruct (Z.ltb_spec d 0); [lia|]. simpl.
  assert (0 < 10 ^ d) by (apply Z.pow_pos_nonneg; lia).
  rewrite Z.quot_div_nonneg, Z.rem_mod_nonneg by lia.
  case_decide; [reflexivity|].
  rewrite (BigInt_toString_nonneg (x mod 10 ^ d)); [reflexivity|].
  apply Z.mod_pos_bound. lia.
Qed.

Lemma parse_BigInt_toString z :
  0 <= z -> parse_digits 10 (BigInt_toString z) 0 = Some (Z.to_N z).
Proof. intros H. rewrite BigInt_toString_nonneg by assumption. apply parse_N_toString. Qed.

(** The numeral of a natural number has no leading zero. *)
Lemma N_toString_canonical n c r : N_toString n <> String "0" (String c r).
Proof.
  intros E. pose proof (parse_N_toString n) as Hp. rewrite E in Hp.
  change (parse_digits 10 (String "0" (String c r)) 0)
    with (parse_digits 10 (String c r) 0) in Hp.
  pose proof (parse_digits_bound _ _ Hp) as Hb.
  pose proof (length_N_toString n (String.length (String c r)) Hb ltac:(simpl; lia)) as Hl.
  rewrite E in Hl. simpl in Hl. lia.
Qed.

Lemma BigInt_toString_canonical z c r :
  0 <= z -> BigInt_toString z <> String "0" (String c r).
Proof. intros Hz. rewrite BigInt_toString_nonneg by assumption. apply N_toString_canonical. Qed.

Lemma BigInt_toString_nonempty z : BigInt_toString z <> "".
Proof. destruct z; [discriminate | apply N_toString_nonempty | discriminate]. Qed.

Lemma mod_pow10_N (x : Z) (d : nat) :
  0 <= x -> (Z.to_N (x mod 10 ^ Z.of_nat d) < 10 ^ N.of_nat d)%N.
Proof.
  intros Hx.
  assert (0 < 10 ^ Z.of_nat d) by (apply Z.pow_pos_nonneg; lia).
  pose proof (Z.mod_pos_bound x (10 ^ Z.of_nat d) ltac:(lia)).
  apply N2Z.inj_lt. rewrite Z2N.id, N2Z.inj_pow, nat_N_Z by lia. simpl. lia.
Qed.

(** [padEnd] of a run of digits no longer than [d]: zeros on the right. *)
Lemma BigInt_padEnd (f : string) (F : N) (d : nat) :
  parse_digits 10 f 0 = Some F -> (String.length f <= d)%nat ->
  BigInt_ofString (or_str (Some (padEnd f (Z.of_nat d) "0")) "0")
  = Return (Z.of_N F * 10 ^ (Z.of_nat d - len f)).
Proof.
  intros HF Hl. unfold padEnd, len.
  replace (Z.to_nat (Z.of_nat d - Z.of_nat (String.length f)))
    with (d - String.length f)%nat by lia.
  assert (Hp : parse_digits 10 (f +:+ repeat_char "0" (d - String.length f)) 0
               = Some (F * 10 ^ N.of_nat (d - String.length f))%N).
  { rewrite parse_digits_app, HF. simpl. apply parse_digits_zeros. }
  replace (Z.of_nat d - Z.of_nat (String.length f)) with (Z.of_nat (d - String.length f)) by lia.
  rewrite <- Z_of_N_pow10.
  unfold or_str. case_decide as E.
  - rewrite E in Hp. simpl in Hp.
    assert ((F * 10 ^ N.of_nat (d - String.length f))%N = 0%N) as -> by congruence.
    reflexivity.
  - apply BigInt_ofString_digits. assumption.
Qed.

(** [slice] of a run of digits longer than [d]: the digits beyond [d]
    are dropped. *)
Lemma BigInt_slice0 (f : string) (F : N) (d : nat) :
  parse_digits 10 f 0 = Some F -> (d < String.length f)%nat ->
  BigInt_ofString (or_str (Some (slice0 f (Z.of_nat d))) "0")
  = Return (Z.of_N F / 10 ^ (len f - Z.of_nat d)).
Proof.
  intros HF Hl. unfold slice0, len.
  destruct (Z.ltb_spec (Z.of_nat d) 0); [lia|]. rewrite Nat2Z.id.
  destruct (take_split d f ltac:(lia)) as (r & Hr & Hlen).
  rewrite Hr in HF. rewrite parse_digits_app in HF.
  destruct (parse_digits 10 (take d f) 0) as [V|] eqn:HV; [|discriminate].
  simpl in HF. destruct (parse_digits_acc _ _ _ HF) as (v0 & H0 & ->).
  apply parse_digits_bound in H0.
  assert (Hlr : String.length f = (d + String.length r)%nat).
  { rewrite Hr at 1. rewrite length_append, Hlen. reflexivity. }
  replace (Z.of_nat (String.length f) - Z.of_nat d) with (Z.of_nat (String.length r)) by lia.
  assert (Hq : Z.of_N (V * 10 ^ N.of_nat (String.length r) + v0) / 10 ^ Z.of_nat (String.length r)
               = Z.of_N V).
  { rewrite N2Z.inj_add, Z_of_N_pow10.
    assert (0 < 10 ^ Z.of_nat (String.length r)) by (apply Z.pow_pos_nonneg; lia).
    rewrite Z.add_comm, Z.div_add by lia.
    rewrite Z.div_small; [lia|].
    split; [lia|]. apply N2Z.inj_lt in H0. rewrite N2Z.inj_pow, nat_N_Z in H0. exact H0. }
  rewrite Hq. unfold or_str. case_decide as E.
  - rewrite E in HV. inversion HV. reflexivity.
  - apply BigInt_ofString_digits. assumption.
Qed.

(** [parseAmount] on [w.f] for runs of digits [w] and [f]. *)
Lemma parseAmount_point (w f : string) (W F : N) (d : Z) :
  0 <= d -> parse_digits 10 w 0 = Some W -> parse_digits 10 f 0 = Some F ->
  parseAmount (w +:+ "." +:+ f) d =
    Return (Z.of_N W * 10 ^ d +
            (if len f >? d then Z.of_N F / 10 ^ (len f - d)
             else Z.of_N F * 10 ^ (d - len f))).
Proof.
  intros Hd HW HF. unfold parseAmount.
  case_decide as E.
  { exfalso. destruct E as [E|E]; destruct w as [|c [|c' w]]; discriminate E. }
  change ("." +:+ f) with (String "." f).
  rewrite (split_app "." w f (digits_no_point _ _ _ HW)).
  rewrite (split_no_sep "." f (digits_no_point _ _ _ HF)).
  cbn [lookup list_lookup].
  assert (HwS : BigInt_ofString (or_str (Some w) "0") = Return (Z.of_N W)).
  { unfold or_str. case_decide as Ew.
    - subst w. inversion HW. reflexivity.
    - now apply BigInt_ofString_digits. }
  assert (Hf : or_str (Some f) "" = f).
  { unfold or_str. case_decide; congruence. }
  rewrite HwS, Hf. cbn [mbind Completion_bind].
  unfold BigInt_pow. destruct (Z.ltb_spec d 0); [lia|].
  rewrite <- (Z2Nat.id d) by lia.
  destruct (Z.gtb_spec (len f) (Z.of_nat (Z.to_nat d))) as [Hgt|Hle].
  - rewrite (BigInt_slice0 f F) by (assumption || (unfold len in Hgt; lia)). reflexivity.
  - rewrite (BigInt_padEnd f F) by (assumption || (unfold len in Hle; lia)). reflexivity.
Qed.

(** [parseAmount] on a run of digits without a point. *)
Lemma parseAmount_whole (w : string) (W : N) (d : Z) :
  0 <= d -> parse_digits 10 w 0 = Some W ->
  parseAmount w d = Return (Z.of_N W * 10 ^ d).
Proof.
  intros Hd HW. unfold parseAmount.
  case_decide as E.
  { destruct E as [-> | ->]; inversion HW; reflexivity. }
  rewrite (split_no_sep "." w (digits_no_point _ _ _ HW)).
  cbn [lookup list_lookup].
  assert (HwS : BigInt_ofString (or_str (Some w) "0") = Return (Z.of_N W)).
  { unfold or_str. case_decide as Ew; [tauto|]. now apply BigInt_ofString_digits. }
  rewrite HwS. cbn [mbind Completion_bind].
  change (or_str None "") with "". change (len "") with 0. destruct (Z.gtb_spec 0 d); [lia|].
  destruct (Z_of_nat_complete d Hd) as [n ->].
  rewrite (BigInt_padEnd "" 0%N) by (reflexivity || simpl; lia).
  cbn [mbind Completion_bind]. unfold BigInt_pow.
  destruct (Z.ltb_spec (Z.of_nat n) 0); [lia|].
  cbn [mbind Completion_bind]. f_equal. change (Z.of_N 0) with 0. lia.
Qed.
End DecimalsFacts.

Import Js JsFacts DecimalsFacts.

(** *** Running the decimal converter on the values of the specification *)

Example normalize_fuse_115 : normalizeAmount 115 122 = 1150000000000000000.
Proof. vm_compute. reflexivity. Qed.

Example denormalize_fuse : denormalizeAmount 1150000000000000000 122 = 115.
Proof. vm_compute. reflexivity. Qed.

Example normalize_celo : normalizeAmount 1150000000000000000 42220 = 1150000000000000000.
Proof. vm_compute. reflexivity. Qed.

Example format_zero : formatAmount 0 18 = Return "0".
Proof. vm_compute. reflexivity. Qed.

Example format_small : formatAmount 1050 4 = Return "0.105".
Proof. vm_compute. reflexivity. Qed.

Example parse_truncates : parseAmount "1.999" 2 = Return 199.
Proof. vm_compute. reflexivity. Qed.

Example parse_pads : parseAmount "7.5" 2 = Return 750.
Proof. vm_compute. reflexivity. Qed.

(** C2: on a supported chain, [normalizeAmount] returns the amount unchanged
    when the chain has 18 decimals and the amount times [10^(18-d)] when it
    has [d < 18] decimals; 115 units of a 2-decimal chain normalize to
    1_150_000_000_000_000_000. *)
Theorem normalizeAmount_spec (amount chainId : Z) (c : BridgeChain) :
  SUPPORTED_CHAINS !! chainId = Some c ->
  (decimals c = 18 -> normalizeAmount amount chainId = amount) /\
  (decimals c < 18 ->
   normalizeAmount amount chainId = amount * 10 ^ (18 - decimals c)) /\
  normalizeAmount 115 122 = 1150000000000000000 /\
  normalizeAmount 115 1 = 1150000000000000000.
Proof.
  intros Hc. unfold normalizeAmount.
  fold (getChainDecimals chainId).
  rewrite (getChainDecimals_supported _ _ Hc). unfold NORMALIZED_DECIMALS.
  repeat split.
  - intros ->. reflexivity.
  - intros Hlt. repeat case_decide; lia.
Qed.

Lemma normalizeAmount_spec_witness :
  SUPPORTED_CHAINS !! 122 = Some
    {| id := 122; name := "Fuse"; decimals := 2;
       tokenAddress := "0x495d133B938596C9984d462F007B676bDc57eCEC";
       nativeCurrency := {| nc_name := "Fuse"; nc_symbol := "FUSE"; nc_decimals := 18 |} |} /\
  normalizeAmount 7 122 = 7 * 10 ^ (18 - 2).
Proof.
  split; [reflexivity|].
  apply (normalizeAmount_spec 7 122 _ eq_refl). simpl. lia.
Defined.

(** C1 (as amended): on a supported chain, normalizing an amount and then
    denormalizing it returns the amount exactly, with 18 decimals and with
    fewer; the composition that loses digits is the other one: denormalizing
    an 18-decimal amount [y] and normalizing it again returns [y] without its
    remainder modulo [10^(18-d)]. *)
Theorem denormalize_normalize_exact (x y chainId : Z) (c : BridgeChain) :
  SUPPORTED_CHAINS !! chainId = Some c ->
  0 <= x -> 0 <= y ->
  decimals c <= 18 /\
  denormalizeAmount (normalizeAmount x chainId) chainId = x /\
  normalizeAmount (denormalizeAmount y chainId) chainId
  = y - y mod 10 ^ (18 - decimals c).
Proof.
  intros Hc Hx Hy. unfold normalizeAmount, denormalizeAmount.
  fold (getChainDecimals chainId).
  rewrite (getChainDecimals_supported _ _ Hc). unfold NORMALIZED_DECIMALS.
  apply SUPPORTED_CHAINS_inv in Hc.
  assert (Hd : decimals c = 18 \/ decimals c = 2) by tauto. clear Hc.
  destruct Hd as [-> | ->]; repeat case_decide; try lia; (split; [lia|]).
  - split; [reflexivity|]. simpl. rewrite Z.mod_1_r. lia.
  - split.
    + apply Z.quot_mul. lia.
    + rewrite Z.quot_div_nonneg by lia.
      pose proof (Z.div_mod y (10 ^ (18 - 2)) ltac:(lia)). lia.
Qed.

Lemma denormalize_normalize_exact_witness :
  denormalizeAmount (normalizeAmount 115 122) 122 = 115 /\
  normalizeAmount (denormalizeAmount 1234567890123456789 122) 122 = 1230000000000000000.
Proof.
  pose proof (denormalize_normalize_exact 115 1234567890123456789 122 _ eq_refl
                ltac:(lia) ltac:(lia)) as (_ & H1 & H2).
  split; [exact H1|]. rewrite H2. reflexivity.
Defined.

(** C1 (as stated) fails at 115 units on Fuse: the round trip returns 115,
    not 115 truncated to a multiple representable in 2 decimals of the
    18-decimal scale, and it loses nothing. *)
Lemma denormalize_normalize_not_truncated :
  denormalizeAmount (normalizeAmount 115 122) 122 = 115 /\
  truncated_to_decimals 115 2 = 0 /\
  denormalizeAmount (normalizeAmount 115 122) 122 <> truncated_to_decimals 115 2.
Proof. vm_compute. repeat split; discriminate. Qed.

(** C7: for an unsigned amount, [formatAmount] returns the integer part
    alone when the fractional part is zero, and otherwise the integer part,
    a point and the fractional digits without trailing zeros: a non-empty
    run of at most [d] digits that does not end in "0" and denotes the
    fractional part; the integer part is the decimal numeral of the
    quotient, without a point and without a leading zero. *)
Theorem formatAmount_minimal (x d : Z) :
  0 <= x -> 0 <= d ->
  parse_digits 10 (BigInt_toString (x / 10 ^ d)) 0 = Some (Z.to_N (x / 10 ^ d)) /\
  has_char "." (BigInt_toString (x / 10 ^ d)) = false /\
  (forall c r, BigInt_toString (x / 10 ^ d) <> String "0" (String c r)) /\
  (x mod 10 ^ d = 0 -> formatAmount x d = Return (BigInt_toString (x / 10 ^ d))) /\
  (x mod 10 ^ d <> 0 ->
   exists f F,
     formatAmount x d = Return (BigInt_toString (x / 10 ^ d) +:+ "." +:+ f) /\
     parse_digits 10 f 0 = Some F /\
     f <> "" /\ (forall t, f <> t +:+ "0") /\
     len f <= d /\
     Z.of_N F * 10 ^ (d - len f) = x mod 10 ^ d) /\
  formatAmount (10 ^ 18) 18 = Return "1" /\
  formatAmount (15 * 10 ^ 17) 18 = Return "1.5".
Proof.
  intros Hx Hd.
  assert (Hp : 0 < 10 ^ d) by (apply Z.pow_pos_nonneg; lia).
  assert (Hq : 0 <= x / 10 ^ d) by (apply Z.div_pos; lia).
  pose proof (parse_BigInt_toString _ Hq) as Hw.
  split; [exact Hw|]. split; [exact (digits_no_point _ _ _ Hw)|].
  split; [intros c r; apply BigInt_toString_canonical; exact Hq|].
  rewrite (formatAmount_cases x d Hx Hd).
  split; [|split; [|split; vm_compute; reflexivity]].
  - intros E. case_decide; [reflexivity | contradiction].
  - intros E. case_decide; [contradiction|].
    destruct (Z_of_nat_complete d Hd) as [n ->].
    destruct (trimmed_fraction (Z.to_N (x mod 10 ^ Z.of_nat n)) n) as (F & HF & Hne & Hlast & Hlen & HFn & _).
    { apply mod_pow10_N. assumption. }
    { pose proof (Z.mod_pos_bound x (10 ^ Z.of_nat n) Hp). lia. }
    eexists _, F. split; [reflexivity|]. repeat split; try assumption.
    + unfold len. lia.
    + unfold len.
      replace (Z.of_nat n - Z.of_nat (String.length
                 (strip_trailing "0" (padStart (N_toString (Z.to_N (x mod 10 ^ Z.of_nat n))) (Z.of_nat n) "0"))))
        with (Z.of_nat (n - String.length
                 (strip_trailing "0" (padStart (N_toString (Z.to_N (x mod 10 ^ Z.of_nat n))) (Z.of_nat n) "0"))))
        by lia.
      rewrite <- Z_of_N_pow10, HFn.
      pose proof (Z.mod_pos_bound x (10 ^ Z.of_nat n) Hp). lia.
Qed.

Lemma formatAmount_minimal_witness :
  exists f F,
    formatAmount 1050 4 = Return ("0" +:+ "." +:+ f) /\
    parse_digits 10 f 0 = Some F /\ Z.of_N F * 10 ^ (4 - len f) = 1050.
Proof.
  destruct (formatAmount_minimal 1050 4 ltac:(lia) ltac:(lia)) as (_ & _ & _ & _ & H & _).
  destruct (H ltac:(vm_compute; discriminate)) as (f & F & H1 & H2 & _ & _ & _ & H3).
  exists f, F. repeat split; assumption.
Defined.

(** C5: for a non-negative amount [x] and a number of decimals [d],
    [formatAmount] returns a string on which [parseAmount] returns [x]. *)
Theorem parseAmount_formatAmount (x d : Z) :
  0 <= x -> 0 <= d ->
  exists s, formatAmount x d = Return s /\ parseAmount s d = Return x.
Proof.
  intros Hx Hd.
  assert (Hp : 0 < 10 ^ d) by (apply Z.pow_pos_nonneg; lia).
  assert (Hq : 0 <= x / 10 ^ d) by (apply Z.div_pos; lia).
  pose proof (parse_BigInt_toString _ Hq) as Hw.
  pose proof (Z.mod_pos_bound x (10 ^ d) Hp) as Hm.
  pose proof (Z.div_mod x (10 ^ d) ltac:(lia)) as Hdm.
  rewrite (formatAmount_cases x d Hx Hd).
  eexists. split; [reflexivity|]. case_decide as E.
  - rewrite (parseAmount_whole _ _ d Hd Hw). f_equal. rewrite Z2N.id by lia. lia.
  - destruct (Z_of_nat_complete d Hd) as [n ->].
    destruct (trimmed_fraction (Z.to_N (x mod 10 ^ Z.of_nat n)) n) as (F & HF & Hne & Hlast & Hlen & HFn & _).
    { apply mod_pow10_N. assumption. }
    { lia. }
    rewrite (parseAmount_point _ _ _ _ (Z.of_nat n) Hd Hw HF). f_equal.
    unfold len.
    destruct (Z.gtb_spec (Z.of_nat (String.length
                 (strip_trailing "0" (padStart (N_toString (Z.to_N (x mod 10 ^ Z.of_nat n))) (Z.of_nat n) "0"))))
                (Z.of_nat n)); [lia|].
    replace (Z.of_nat n - Z.of_nat (String.length
               (strip_trailing "0" (padStart (N_toString (Z.to_N (x mod 10 ^ Z.of_nat n))) (Z.of_nat n) "0"))))
      with (Z.of_nat (n - String.length
               (strip_trailing "0" (padStart (N_toString (Z.to_N (x mod 10 ^ Z.of_nat n))) (Z.of_nat n) "0"))))
      by lia.
    rewrite <- (Z_of_N_pow10 F), HFn. rewrite !Z2N.id by lia. lia.
Qed.

Lemma parseAmount_formatAmount_witness :
  exists s, formatAmount 1500000000000000000 18 = Return s /\
            parseAmount s 18 = Return 1500000000000000000.
Proof. apply (parseAmount_formatAmount 1500000000000000000 18); lia. Defined.

(** C6: on a decimal string [w.f], [parseAmount] returns the whole part
    scaled by [10^d] plus the fractional digits: cut after [d] digits
    (rounded down) when there are more, padded with zeros on the right when
    there are fewer; on a run of digits without a point, the value scaled;
    on the empty string and on "0", zero; on "1.5" with 18 decimals,
    1_500_000_000_000_000_000. *)
Theorem parseAmount_decimal (w f : string) (W F : N) (d : Z) :
  0 <= d ->
  parse_digits 10 w 0 = Some W ->
  parse_digits 10 f 0 = Some F ->
  (len f > d ->
   parseAmount (w +:+ "." +:+ f) d = Return (Z.of_N W * 10 ^ d + Z.of_N F / 10 ^ (len f - d))) /\
  (len f <= d ->
   parseAmount (w +:+ "." +:+ f) d = Return (Z.of_N W * 10 ^ d + Z.of_N F * 10 ^ (d - len f))) /\
  parseAmount w d = Return (Z.of_N W * 10 ^ d) /\
  parseAmount "" d = Return 0 /\
  parseAmount "0" d = Return 0 /\
  parseAmount "1.5" 18 = Return 1500000000000000000.
Proof.
  intros Hd HW HF.
  pose proof (parseAmount_point w f W F d Hd HW HF) as Hp.
  repeat split; try reflexivity.
  - intros Hgt. rewrite Hp. destruct (Z.gtb_spec (len f) d); [reflexivity | lia].
  - intros Hle. rewrite Hp. destruct (Z.gtb_spec (len f) d); [lia | reflexivity].
  - apply parseAmount_whole; assumption.
Qed.

Lemma parseAmount_decimal_witness :
  parseAmount ("12" +:+ "." +:+ "3456") 2 = Return (12 * 10 ^ 2 + 3456 / 10 ^ (4 - 2)) /\
  parseAmount ("12" +:+ "." +:+ "3") 2 = Return (12 * 10 ^ 2 + 3 * 10 ^ (2 - 1)).
Proof.
  split.
  - apply (parseAmount_decimal "12" "3456" 12 3456 2 ltac:(lia) eq_refl eq_refl).
    vm_compute. reflexivity.
  - apply (parseAmount_decimal "12" "3" 12 3 2 ltac:(lia) eq_refl eq_refl).
    vm_compute. discriminate.
Defined.

(** ** utils/fees.ts *)
Module FeesFacts.

Example FEE_MULTIPLIER_bits :
  Prim2SF FEE_MULTIPLIER = S754_finite false 4953959590107546 (-52).
Proof. vm_compute. reflexivity. Qed.

Example parseNativeFee_2_celo : parseNativeFee "2.0 Celo" 42220 = Return 2000000000000000000.
Proof. vm_compute. reflexivity. Qed.

Example parseNativeFee_quote :
  parseNativeFee "4.8367843657257685 Celo" 42220 = Return 4836784365725768704.
Proof. vm_compute. reflexivity. Qed.

Example parseNativeFee_fuse : parseNativeFee "0.29 Fuse" 122 = Return 28.
Proof. vm_compute. reflexivity. Qed.

Example parseNativeFee_nan : parseNativeFee "free" 42220 = Throw (Err "Error" "Invalid fee amount").
Proof. vm_compute. reflexivity. Qed.

(** [BigInt(Math.floor(FEE_MULTIPLIER * 100))] is 110: the product is
    110.00000000000001. *)
Lemma fee_percent :
  BigInt_ofNumber (floor (FEE_MULTIPLIER * number_of_Z 100)%float) = Return 110.
Proof. vm_compute. reflexivity. Qed.

Example getFeeEstimate_quote :
  getFeeEstimate 42220 1 AXELAR quote_world tt []
  = (tt, [Fetch GOODSERVER_FEES],
     Return {| fee := 2200000000000000000; feeInNative := "2.0 Celo"; protocol := AXELAR |}).
Proof. vm_compute. reflexivity. Qed.

(** With a quote for the route, [getFeeEstimate] makes one request and
    returns the parsed fee with the buffer. *)
Lemma getFeeEstimate_quoted {T} (w : World) (t : T) (h : list Event)
    (fromChainId toChainId : Z) (p : BridgeProtocol)
    (response : HttpResponse GoodServerFeeResponse)
    (feeData : GoodServerFeeResponse) (protocolData : gmap string string)
    (fromName toName feeString : string) (F : Z) :
  w_fetchFees w h = Return response ->
  ok response = true ->
  json response = Return feeData ->
  feeData !! BridgeProtocol_name p = Some protocolData ->
  getChainName fromChainId = Return fromName ->
  getChainName toChainId = Return toName ->
  protocolData !! ((if decide (p = AXELAR) then "AXL" else "LZ")
                   +:+ "_" +:+ fromName +:+ "_TO_" +:+ toName) = Some feeString ->
  parseNativeFee feeString fromChainId = Return F ->
  getFeeEstimate fromChainId toChainId p w t h
  = (t, (h ++ [Fetch GOODSERVER_FEES])%list,
     Return {| fee := Z.quot (F * 110) 100; feeInNative := feeString; protocol := p |}).
Proof.
  intros Hfetch Hok Hjson Hp Hfrom Hto Hroute Hparse.
  assert (Hne : feeString <> "").
  { intros ->. vm_compute in Hparse. discriminate. }
  unfold getFeeEstimate, fetchFeeEstimates.
  cbv [mbind Async_bind abind try_catch call liftC throw mret Async_ret aret].
  rewrite Hfetch, Hok. cbn [negb]. rewrite Hjson, Hp, Hfrom, Hto, Hroute.
  assert (or_str (Some feeString) "" = feeString) as ->.
  { unfold or_str. destruct (decide (feeString = "")); congruence. }
  destruct (decide (feeString = "")) as [|_]; [contradiction|].
  rewrite Hparse, fee_percent. reflexivity.
Qed.
End FeesFacts.

Import FeesFacts.

(** C4: when the quote of the route parses to an unsigned base fee [F],
    [getFeeEstimate] returns the fee [floor(F * 110 / 100)]; the route
    CELO to ETH via AXELAR quoted "2.0 Celo" yields
    2_200_000_000_000_000_000. *)
Theorem getFeeEstimate_buffered {T} (w : World) (t : T) (h : list Event)
    (fromChainId toChainId : Z) (p : BridgeProtocol)
    (response : HttpResponse GoodServerFeeResponse)
    (feeData : GoodServerFeeResponse) (protocolData : gmap string string)
    (fromName toName feeString : string) (F : Z) :
  w_fetchFees w h = Return response ->
  ok response = true ->
  json response = Return feeData ->
  feeData !! BridgeProtocol_name p = Some protocolData ->
  getChainName fromChainId = Return fromName ->
  getChainName toChainId = Return toName ->
  protocolData !! ((if decide (p = AXELAR) then "AXL" else "LZ")
                   +:+ "_" +:+ fromName +:+ "_TO_" +:+ toName) = Some feeString ->
  parseNativeFee feeString fromChainId = Return F ->
  0 <= F ->
  getFeeEstimate fromChainId toChainId p w t h
  = (t, (h ++ [Fetch GOODSERVER_FEES])%list,
     Return {| fee := F * 110 / 100; feeInNative := feeString; protocol := p |}) /\
  getFeeEstimate 42220 1 AXELAR quote_world t []
  = (t, [Fetch GOODSERVER_FEES],
     Return {| fee := 2200000000000000000; feeInNative := "2.0 Celo"; protocol := AXELAR |}).
Proof.
  intros Hfetch Hok Hjson Hp Hfrom Hto Hroute Hparse HF. split.
  - rewrite (getFeeEstimate_quoted w t h _ _ _ _ _ _ _ _ _ _
               Hfetch Hok Hjson Hp Hfrom Hto Hroute Hparse).
    rewrite Z.quot_div_nonneg by lia. reflexivity.
  - vm_compute. reflexivity.
Qed.

Lemma getFeeEstimate_buffered_witness :
  getFeeEstimate 42220 1 AXELAR quote_world tt []
  = (tt, ([] ++ [Fetch GOODSERVER_FEES])%list,
     Return {| fee := 2000000000000000000 * 110 / 100;
               feeInNative := "2.0 Celo"; protocol := AXELAR |}).
Proof.
  apply (getFeeEstimate_buffered quote_world tt [] 42220 1 AXELAR
           {| ok := true; statusText := "OK"; json := Return quote_table |}
           quote_table {[ "AXL_CELO_TO_ETH" := "2.0 Celo" ]} "CELO" "ETH" "2.0 Celo"
           2000000000000000000);
    try reflexivity; lia.
Defined.

(** ** The asynchronous functions *)
Module AsyncFacts.

Ltac run :=
  cbv [mbind Async_bind abind try_catch call liftC throw mret Async_ret aret
       get_this set_this world].

Ltac run_in H :=
  cbv [mbind Async_bind abind try_catch call liftC throw mret Async_ret aret
       get_this set_this world] in H.

(** No message built on another literal is the message of the protocol
    support validation. *)
Ltac not_axelar :=
  let a := fresh "a" in let b := fresh "b" in let E := fresh "E" in
  intros (a & b & E); cbv beta iota delta [String.append typeErrorUndefined] in E;
  discriminate E.

Lemma append_literal_nonempty c (s t : string) : String c s +:+ t <> "".
Proof. discriminate. Qed.

(** [fetchFeeEstimates] makes one request; it rejects only with its own
    message. *)
Lemma fetchFeeEstimates_run {T} (w : World) (t : T) (h : list Event) :
  exists r,
    fetchFeeEstimates w t h = (t, (h ++ [Fetch GOODSERVER_FEES])%list, r) /\
    match r with
    | Return _ => True
    | Throw e => exists m, e = Err "Error" ("Fee estimation failed: " +:+ m)
    end.
Proof.
  unfold fetchFeeEstimates. run.
  destruct (w_fetchFees w h) as [response|e].
  2:{ eexists; split; [reflexivity|]. simpl. eauto. }
  destruct (ok response); cbn [negb].
  2:{ eexists; split; [reflexivity|]. simpl. eauto. }
  destruct (json response); (eexists; split; [reflexivity|]); simpl; eauto.
Qed.

(** [getFeeEstimate] makes one request, leaves the object alone and never
    rejects with the message of the protocol support validation. *)
Lemma getFeeEstimate_run {T} (w : World) (t : T) (h : list Event)
    (fromChainId toChainId : Z) (p : BridgeProtocol) :
  exists r,
    getFeeEstimate fromChainId toChainId p w t h
    = (t, (h ++ [Fetch GOODSERVER_FEES])%list, r) /\
    forall e, r = Throw e -> ~ isAxelarUnsupportedError e.
Proof.
  unfold getFeeEstimate.
  destruct (fetchFeeEstimates_run w t h) as (r0 & Hf & Hr0).
  cbv [mbind Async_bind abind]. rewrite Hf.
  destruct r0 as [feeData|e0].
  2:{ eexists; split; [reflexivity|]. intros e [= <-]. destruct Hr0 as [m ->]. not_axelar. }
  destruct (feeData !! BridgeProtocol_name p) as [protocolData|].
  2:{ run. eexists; split; [reflexivity|]. intros e [= <-]. not_axelar. }
  run. unfold getChainName.
  assert (Hparse : forall feeString e1,
            parseNativeFee feeString fromChainId = Throw e1 -> ~ isAxelarUnsupportedError e1).
  { intros feeString e1 HF. unfold parseNativeFee in HF.
    case_decide; [inversion HF; not_axelar|].
    destruct (PrimFloat.is_nan _); [inversion HF; not_axelar|].
    unfold BigInt_ofNumber in HF. cbv [mbind Completion_bind] in HF.
    repeat case_match; simplify_eq; not_axelar. }
  repeat case_decide; subst;
    try (eexists; split; [reflexivity|]; intros e [= <-]; not_axelar);
    (destruct (parseNativeFee _ _) as [F|e1] eqn:HF;
     [ rewrite fee_percent; eexists; split; [reflexivity|]; intros e [=]
     | eexists; split; [reflexivity|]; intros e [= <-]; exact (Hparse _ _ HF) ]).
Qed.
End AsyncFacts.

Import AsyncFacts.

(** ** The BridgingSDK class: canBridge *)

Example canBridge_offline :
  ViemSdk.canBridge "0xSender" 115 1 offline_world celo_sdk []
  = (celo_sdk,
     [ReadContract "0xa3247276dbcc76dd7705273f766eb3e8a5ecf4a5" "canBridge"
        [VAddress "0xSender"; VUint 115]],
     Return {| isWithinLimit := false;
               cb_error := Some "Failed to check bridge limits: execution reverted" |}).
Proof. vm_compute. reflexivity. Qed.

Example canBridge_unsupported_target :
  ViemSdk.canBridge "0xSender" 115 137 offline_world celo_sdk []
  = (celo_sdk, [],
     Return {| isWithinLimit := false;
               cb_error := Some "Unsupported target chain: 137" |}).
Proof. vm_compute. reflexivity. Qed.

(** C8: in both variants of the class, [canBridge] resolves, whatever the
    contract read does; when the target chain is not supported, when no
    bridge contract is known for the current chain, or when the read
    throws (a revert, an RPC error, an [Error] or not), the result is not
    within the limit and carries a non-empty message. *)
Theorem canBridge_never_throws (w : World) (h : list Event)
    (from : string) (amount targetChainId : Z)
    (sdk : ViemSdk.BridgingSDK) (sdk3 : Part003.BridgingSDK) :
  (exists h' r,
     ViemSdk.canBridge from amount targetChainId w sdk h = (sdk, h', Return r) /\
     (SUPPORTED_CHAINS !! targetChainId = None -> reportsFailure r) /\
     (or_str (BRIDGE_CONTRACT_ADDRESSES !! ViemSdk.currentChainId sdk) "" = "" ->
      reportsFailure r) /\
     (forall e,
        w_readCanBridge w h (or_str (BRIDGE_CONTRACT_ADDRESSES !! ViemSdk.currentChainId sdk) "")
          from (normalizeAmount amount (ViemSdk.currentChainId sdk)) = Throw e ->
        reportsFailure r)) /\
  (exists h' r,
     Part003.canBridge from amount targetChainId w sdk3 h = (sdk3, h', Return r) /\
     (SUPPORTED_CHAINS !! targetChainId = None -> reportsFailure r) /\
     (or_str (BRIDGE_CONTRACT_ADDRESSES !! Part003.currentChainId sdk3) "" = "" ->
      reportsFailure r) /\
     (forall e,
        w_readCanBridge w h (or_str (BRIDGE_CONTRACT_ADDRESSES !! Part003.currentChainId sdk3) "")
          from (normalizeAmount amount (Part003.currentChainId sdk3)) = Throw e ->
        reportsFailure r)).
Proof.
  assert (Hrep : forall c s t, reportsFailure
            {| isWithinLimit := false; cb_error := Some (String c s +:+ t) |}).
  { intros c s t. split; [reflexivity|]. eexists. split; [reflexivity|].
    apply append_literal_nonempty. }
  split.
  - unfold ViemSdk.canBridge. run.
    destruct (SUPPORTED_CHAINS !! targetChainId) as [c|].
    2:{ do 2 eexists. split; [reflexivity|]. repeat split; intros; apply Hrep. }
    destruct (decide (or_str (BRIDGE_CONTRACT_ADDRESSES !! ViemSdk.currentChainId sdk) "" = ""))
      as [E|E].
    { do 2 eexists. split; [reflexivity|]. repeat split; intros; apply Hrep. }
    destruct (w_readCanBridge w h _ from _) as [[b msg]|e] eqn:Hread.
    + do 2 eexists. split; [reflexivity|].
      split; [discriminate|]. split; [contradiction|]. discriminate.
    + do 2 eexists. split; [reflexivity|]. repeat split; intros; apply Hrep.
  - unfold Part003.canBridge. run.
    destruct (SUPPORTED_CHAINS !! targetChainId) as [c|].
    2:{ do 2 eexists. split; [reflexivity|]. repeat split; intros; apply Hrep. }
    destruct (decide (or_str (BRIDGE_CONTRACT_ADDRESSES !! Part003.currentChainId sdk3) "" = ""))
      as [E|E].
    { do 2 eexists. split; [reflexivity|]. repeat split; intros; apply Hrep. }
    destruct (w_readCanBridge w h _ from _) as [[b msg]|e] eqn:Hread.
    + do 2 eexists. split; [reflexivity|].
      split; [discriminate|]. split; [contradiction|]. discriminate.
    + do 2 eexists. split; [reflexivity|]. repeat split; intros; apply Hrep.
Qed.

Lemma canBridge_never_throws_witness :
  exists h' r,
    ViemSdk.canBridge "0xSender" 115 1 offline_world celo_sdk [] = (celo_sdk, h', Return r) /\
    reportsFailure r.
Proof.
  destruct (canBridge_never_throws offline_world [] "0xSender" 115 1 celo_sdk celo_sdk3)
    as [(h' & r & Hrun & _ & _ & Hthrow) _].
  exists h', r. split; [exact Hrun|].
  apply (Hthrow (Err "ContractFunctionExecutionError" "execution reverted")).
  reflexivity.
Defined.

(** ** Transaction status *)
Module StatusFacts.

(** utils/tracking.ts: [getTransactionStatus] always resolves, and leaves
    the object alone. *)
Lemma tracking_resolves {T} (w : World) (t : T) (h : list Event)
    (txHash : string) (p : BridgeProtocol) :
  exists h' r, Tracking.getTransactionStatus txHash p w t h = (t, h', Return r).
Proof.
  destruct p; cbn [Tracking.getTransactionStatus];
    [unfold Tracking.getAxelarStatus | unfold Tracking.getLayerZeroStatus]; run.
  - destruct (w_fetchAxelar w h txHash) as [resp|e]; [|eauto].
    destruct (ok resp); cbn [negb]; [|eauto].
    destruct (json resp) as [body|e]; [|eauto].
    destruct (data body) as [[|tx txs]|]; eauto.
    repeat case_decide; eauto.
  - destruct (w_fetchLayerZero w h txHash) as [resp|e]; [|eauto].
    destruct (ok resp); cbn [negb]; [|eauto].
    destruct (json resp) as [body|e]; [|eauto].
    destruct (messages body) as [[|m ms]|]; eauto.
    repeat case_decide; eauto.
Qed.

(** utils/tracking.ts: a request that rejects, a response that is not ok
    and a body that does not parse all give the status [failed] with a
    message. *)
Lemma tracking_fails_closed {T} (w : World) (t : T) (h : list Event)
    (txHash : string) (p : BridgeProtocol) :
  (match p with
   | LAYERZERO =>
       match w_fetchLayerZero w h txHash with
       | Throw _ => True
       | Return resp => ok resp = false \/ exists e, json resp = Throw e
       end
   | AXELAR =>
       match w_fetchAxelar w h txHash with
       | Throw _ => True
       | Return resp => ok resp = false \/ exists e, json resp = Throw e
       end
   end) ->
  exists h' msg,
    Tracking.getTransactionStatus txHash p w t h
    = (t, h', Return {| status := failed; srcTxHash := None; dstTxHash := None;
                        timestamp := None; ts_error := Some msg |}).
Proof.
  destruct p; cbn [Tracking.getTransactionStatus];
    [unfold Tracking.getAxelarStatus | unfold Tracking.getLayerZeroStatus]; run.
  - destruct (w_fetchAxelar w h txHash) as [resp|e]; [|eauto].
    intros [Hok | [e He]].
    + rewrite Hok. cbn [negb]. eauto.
    + destruct (ok resp); cbn [negb]; [|eauto]. rewrite He. eauto.
  - destruct (w_fetchLayerZero w h txHash) as [resp|e]; [|eauto].
    intros [Hok | [e He]].
    + rewrite Hok. cbn [negb]. eauto.
    + destruct (ok resp); cbn [negb]; [|eauto]. rewrite He. eauto.
Qed.

(** utils/tracking.ts: the status of the first message or transaction. *)
Lemma tracking_maps_status {T} (w : World) (t : T) (h : list Event) (txHash : string) :
  (forall resp body m ms,
     w_fetchLayerZero w h txHash = Return resp -> ok resp = true ->
     json resp = Return body -> messages body = Some (m :: ms) ->
     exists h' r, Tracking.getTransactionStatus txHash LAYERZERO w t h = (t, h', Return r) /\
                  status r = lzStatus (lz_status m)) /\
  (forall resp body tx txs,
     w_fetchAxelar w h txHash = Return resp -> ok resp = true ->
     json resp = Return body -> data body = Some (tx :: txs) ->
     exists h' r, Tracking.getTransactionStatus txHash AXELAR w t h = (t, h', Return r) /\
                  status r = axelarStatus (ax_status tx)) /\
  (forall resp body,
     w_fetchLayerZero w h txHash = Return resp -> ok resp = true ->
     json resp = Return body -> messages body = None \/ messages body = Some [] ->
     exists h' r, Tracking.getTransactionStatus txHash LAYERZERO w t h = (t, h', Return r) /\
                  status r = pending) /\
  (forall resp body,
     w_fetchAxelar w h txHash = Return resp -> ok resp = true ->
     json resp = Return body -> data body = None \/ data body = Some [] ->
     exists h' r, Tracking.getTransactionStatus txHash AXELAR w t h = (t, h', Return r) /\
                  status r = pending).
Proof.
  repeat split.
  - intros resp body m ms Hf Hok Hj Hm. cbn [Tracking.getTransactionStatus].
    unfold Tracking.getLayerZeroStatus, lzStatus. run.
    rewrite Hf, Hok. cbn [negb]. rewrite Hj, Hm.
    repeat case_decide; eauto.
  - intros resp body tx txs Hf Hok Hj Hm. cbn [Tracking.getTransactionStatus].
    unfold Tracking.getAxelarStatus, axelarStatus. run.
    rewrite Hf, Hok. cbn [negb]. rewrite Hj, Hm.
    repeat case_decide; eauto.
  - intros resp body Hf Hok Hj Hm. cbn [Tracking.getTransactionStatus].
    unfold Tracking.getLayerZeroStatus. run.
    rewrite Hf, Hok. cbn [negb]. rewrite Hj. destruct Hm as [-> | ->]; eauto.
  - intros resp body Hf Hok Hj Hm. cbn [Tracking.getTransactionStatus].
    unfold Tracking.getAxelarStatus. run.
    rewrite Hf, Hok. cbn [negb]. rewrite Hj. destruct Hm as [-> | ->]; eauto.
Qed.

(** viem-sdk.ts: the class's own [getTransactionStatus] maps the status
    in the same way when the request and the parse succeed. *)
Lemma viem_maps_status (w : World) (sdk : ViemSdk.BridgingSDK) (h : list Event)
    (txHash : string) :
  (forall resp body m ms,
     w_fetchLayerZero w h txHash = Return resp ->
     json resp = Return body -> messages body = Some (m :: ms) ->
     exists h' r, ViemSdk.getTransactionStatus txHash LAYERZERO w sdk h = (sdk, h', Return r) /\
                  status r = lzStatus (lz_status m)) /\
  (forall resp body tx txs,
     w_fetchAxelar w h txHash = Return resp ->
     json resp = Return body -> data body = Some (tx :: txs) ->
     exists h' r, ViemSdk.getTransactionStatus txHash AXELAR w sdk h = (sdk, h', Return r) /\
                  status r = axelarStatus (ax_status tx)).
Proof.
  split.
  - intros resp body m ms Hf Hj Hm. unfold ViemSdk.getTransactionStatus.
    case_decide; [|congruence].
    unfold ViemSdk.getLayerZeroStatus, lzStatus. run. rewrite Hf, Hj, Hm. eauto.
  - intros resp body tx txs Hf Hj Hm. unfold ViemSdk.getTransactionStatus.
    case_decide; [congruence|].
    unfold ViemSdk.getAxelarStatus, axelarStatus. run. rewrite Hf, Hj, Hm. eauto.
Qed.

(** viem-sdk.ts: what the request or the parse throws, the class's own
    [getTransactionStatus] throws. *)
Lemma viem_propagates (w : World) (sdk : ViemSdk.BridgingSDK) (h : list Event)
    (txHash : string) (e : Thrown) :
  (w_fetchLayerZero w h txHash = Throw e \/
   (exists resp, w_fetchLayerZero w h txHash = Return resp /\ json resp = Throw e) ->
   exists h', ViemSdk.getTransactionStatus txHash LAYERZERO w sdk h = (sdk, h', Throw e)) /\
  (w_fetchAxelar w h txHash = Throw e \/
   (exists resp, w_fetchAxelar w h txHash = Return resp /\ json resp = Throw e) ->
   exists h', ViemSdk.getTransactionStatus txHash AXELAR w sdk h = (sdk, h', Throw e)).
Proof.
  split; intros [Hf | (resp & Hf & Hj)]; unfold ViemSdk.getTransactionStatus;
    case_decide; try congruence;
    unfold ViemSdk.getLayerZeroStatus, ViemSdk.getAxelarStatus; run;
    rewrite Hf; try rewrite Hj; eauto.
Qed.
End StatusFacts.

(** C9 on a network that is down: the class of viem-sdk.ts rejects with
    the error of [fetch], for both protocols, where utils/tracking.ts (and
    the class of the other variant, which calls it) resolves to the status
    [failed] with a message. *)
Theorem getTransactionStatus_offline :
  ViemSdk.getTransactionStatus "0xabc" LAYERZERO offline_world celo_sdk []
  = (celo_sdk, [Fetch "https://scan.layerzero-api.com/v1/message?txHash=0xabc"],
     Throw (Err "TypeError" "fetch failed")) /\
  ViemSdk.getTransactionStatus "0xabc" AXELAR offline_world celo_sdk []
  = (celo_sdk, [Fetch "https://api.axelarscan.io/gmp?txHash=0xabc"],
     Throw (Err "TypeError" "fetch failed")) /\
  Part003.getTransactionStatus "0xabc" LAYERZERO offline_world celo_sdk3 []
  = (celo_sdk3,
     [Fetch "https://scan.layerzero-api.com/v1/message?txHash=0xabc"],
     Return {| status := failed; srcTxHash := None; dstTxHash := None; timestamp := None;
               ts_error := Some "Failed to fetch LayerZero status: fetch failed" |}).
Proof. repeat split; vm_compute; reflexivity. Qed.

(** ** The BridgingSDK class: estimateFee *)
Module EstimateFacts.

(** viem-sdk.ts: when the protocol support validation passes, the fees are
    requested, once or twice, and no rejection carries the message of the
    validation. *)
Lemma viem_estimateFee_unguarded (w : World) (sdk : ViemSdk.BridgingSDK) (h : list Event)
    (targetChainId : Z) (p : BridgeProtocol) :
  ~ ViemSdk.axelarUnsupported (ViemSdk.currentChainId sdk) targetChainId p ->
  exists sdk' new r,
    ViemSdk.estimateFee targetChainId p w sdk h
    = (sdk', (h ++ Fetch GOODSERVER_FEES :: new)%list, r) /\
    (forall e, r = Throw e -> ~ isAxelarUnsupportedError e) /\
    (new = [] \/ new = [Fetch GOODSERVER_FEES]) /\
    ViemSdk.currentChainId sdk' = ViemSdk.currentChainId sdk /\
    ViemSdk.walletClient sdk' = ViemSdk.walletClient sdk.
Proof.
  intros Hg. unfold ViemSdk.estimateFee.
  cbv [mbind Async_bind abind get_this].
  destruct (decide _) as [|_]; [contradiction|].
  destruct (ViemSdk.fees sdk) as [cached|].
  - cbv [mret Async_ret aret].
    destruct (getFeeEstimate_run w sdk h (ViemSdk.currentChainId sdk) targetChainId p)
      as (r & -> & Hr).
    exists sdk, [], r. auto.
  - unfold ViemSdk.initialize. cbv [mbind Async_bind abind get_this set_this].
    destruct (fetchFeeEstimates_run w sdk h) as (r0 & -> & Hr0).
    destruct r0 as [f|e0].
    + match goal with
      | |- context [getFeeEstimate ?a ?b ?c w ?s ?hh] =>
          destruct (getFeeEstimate_run w s hh a b c) as (r & -> & Hr)
      end.
      eexists _, [Fetch GOODSERVER_FEES], r.
      rewrite <- app_assoc. auto.
    + exists sdk, [], (Throw e0). repeat split; auto.
      intros e [= <-]. destruct Hr0 as [m ->]. not_axelar.
Qed.

(** viem-sdk.ts: when the validation fails, nothing is requested. *)
Lemma viem_estimateFee_guarded (w : World) (sdk : ViemSdk.BridgingSDK) (h : list Event)
    (targetChainId : Z) (p : BridgeProtocol) :
  ViemSdk.axelarUnsupported (ViemSdk.currentChainId sdk) targetChainId p ->
  exists e,
    ViemSdk.estimateFee targetChainId p w sdk h = (sdk, h, Throw e) /\
    forall c t,
      SUPPORTED_CHAINS !! ViemSdk.currentChainId sdk = Some c ->
      SUPPORTED_CHAINS !! targetChainId = Some t ->
      e = Err "Error" ("Axelar bridging is not supported for " +:+ name c
                       +:+ " or " +:+ name t).
Proof.
  intros Hg. unfold ViemSdk.estimateFee.
  cbv [mbind Async_bind abind get_this throw].
  destruct (decide _) as [_|]; [|contradiction].
  destruct (SUPPORTED_CHAINS !! ViemSdk.currentChainId sdk) as [c|];
    destruct (SUPPORTED_CHAINS !! targetChainId) as [t|];
    eexists; (split; [reflexivity|]); intros c' t' Hc Ht; congruence.
Qed.

(** In both variants, [estimateFee] simulates no contract call and keeps
    the chain and the wallet of the object. *)
Lemma viem_estimateFee_trace (w : World) (sdk : ViemSdk.BridgingSDK) (h : list Event)
    (targetChainId : Z) (p : BridgeProtocol) :
  exists sdk' new r,
    ViemSdk.estimateFee targetChainId p w sdk h = (sdk', (h ++ new)%list, r) /\
    simulated new = [] /\
    ViemSdk.currentChainId sdk' = ViemSdk.currentChainId sdk /\
    ViemSdk.walletClient sdk' = ViemSdk.walletClient sdk.
Proof.
  destruct (decide (ViemSdk.axelarUnsupported (ViemSdk.currentChainId sdk) targetChainId p))
    as [Hg|Hg].
  - destruct (viem_estimateFee_guarded w sdk h _ _ Hg) as (e & -> & _).
    exists sdk, [], (Throw e). rewrite app_nil_r. auto.
  - destruct (viem_estimateFee_unguarded w sdk h _ _ Hg) as (sdk' & new & r & -> & _ & Hn & ? & ?).
    exists sdk', (Fetch GOODSERVER_FEES :: new), r.
    repeat split; auto. destruct Hn as [-> | ->]; reflexivity.
Qed.

Lemma part003_estimateFee_trace (w : World) (sdk : Part003.BridgingSDK) (h : list Event)
    (targetChainId : Z) (p : BridgeProtocol) :
  exists r,
    Part003.estimateFee targetChainId p w sdk h
    = (sdk, (h ++ [Fetch GOODSERVER_FEES])%list, r).
Proof.
  unfold Part003.estimateFee. cbv [mbind Async_bind abind get_this].
  destruct (getFeeEstimate_run w sdk h (Part003.currentChainId sdk) targetChainId p)
    as (r & -> & _).
  eauto.
Qed.
End EstimateFacts.

Import EstimateFacts.

Example estimateFee_celo_to_eth :
  ViemSdk.estimateFee 1 AXELAR quote_world celo_sdk []
  = ({| ViemSdk.walletClient := true; ViemSdk.currentChainId := 42220;
        ViemSdk.fees := Some quote_table |},
     [Fetch GOODSERVER_FEES; Fetch GOODSERVER_FEES],
     Return {| fee := 2200000000000000000; feeInNative := "2.0 Celo"; protocol := AXELAR |}).
Proof. vm_compute. reflexivity. Qed.

(** C3 (as amended): in viem-sdk.ts, [estimateFee] with AXELAR where the
    current or the target chain is XDC (50) or Fuse (122) rejects at once,
    before any request, with the message that Axelar is not supported for
    the two chains (when both are in the registry); for any other call the
    fees are requested and no rejection carries that message. *)
Theorem estimateFee_axelar_guard (w : World) (sdk : ViemSdk.BridgingSDK) (h : list Event)
    (targetChainId : Z) (p : BridgeProtocol) :
  (p = AXELAR /\
   (ViemSdk.currentChainId sdk = 50 \/ ViemSdk.currentChainId sdk = 122 \/
    targetChainId = 50 \/ targetChainId = 122) ->
   exists e,
     ViemSdk.estimateFee targetChainId p w sdk h = (sdk, h, Throw e) /\
     forall c t,
       SUPPORTED_CHAINS !! ViemSdk.currentChainId sdk = Some c ->
       SUPPORTED_CHAINS !! targetChainId = Some t ->
       e = Err "Error" ("Axelar bridging is not supported for " +:+ name c
                        +:+ " or " +:+ name t)) /\
  (~ (p = AXELAR /\
      (ViemSdk.currentChainId sdk = 50 \/ ViemSdk.currentChainId sdk = 122 \/
       targetChainId = 50 \/ targetChainId = 122)) ->
   exists sdk' new r,
     ViemSdk.estimateFee targetChainId p w sdk h
     = (sdk', (h ++ Fetch GOODSERVER_FEES :: new)%list, r) /\
     forall e, r = Throw e -> ~ isAxelarUnsupportedError e).
Proof.
  split.
  - intros Hg. apply viem_estimateFee_guarded. exact Hg.
  - intros Hg.
    destruct (viem_estimateFee_unguarded w sdk h targetChainId p Hg)
      as (sdk' & new & r & Hrun & Hr & _).
    eauto.
Qed.

Lemma estimateFee_axelar_guard_witness :
  exists e,
    ViemSdk.estimateFee 50 AXELAR quote_world celo_sdk [] = (celo_sdk, [], Throw e) /\
    e = Err "Error" "Axelar bridging is not supported for Celo or XDC".
Proof.
  destruct (estimateFee_axelar_guard quote_world celo_sdk [] 50 AXELAR) as [Hg _].
  destruct Hg as (e & Hrun & He).
  { split; [reflexivity|]. right; right; left. reflexivity. }
  exists e. split; [exact Hrun|].
  exact (He _ _ eq_refl eq_refl).
Defined.

(** C3 (as stated) fails: with AXELAR from Celo to Ethereum (id 1, one of
    the two chains of 2 decimals) the fee is estimated, and from Celo to
    XDC (id 50, 18 decimals: neither chain has 2 decimals) the call is
    rejected. *)
Lemma estimateFee_axelar_ethereum_not_rejected :
  (decimals <$> SUPPORTED_CHAINS !! 1) = Some 2 /\
  ViemSdk.estimateFee 1 AXELAR quote_world celo_sdk []
  = ({| ViemSdk.walletClient := true; ViemSdk.currentChainId := 42220;
        ViemSdk.fees := Some quote_table |},
     [Fetch GOODSERVER_FEES; Fetch GOODSERVER_FEES],
     Return {| fee := 2200000000000000000; feeInNative := "2.0 Celo"; protocol := AXELAR |}) /\
  (decimals <$> SUPPORTED_CHAINS !! 42220) = Some 18 /\
  (decimals <$> SUPPORTED_CHAINS !! 50) = Some 18 /\
  ViemSdk.estimateFee 50 AXELAR quote_world celo_sdk []
  = (celo_sdk, [],
     Throw (Err "Error" "Axelar bridging is not supported for Celo or XDC")).
Proof. repeat split; vm_compute; reflexivity. Qed.

(** ** The BridgingSDK class: bridgeTo and the bridge of an event *)
Module BridgeFacts.

Lemma simulated_app (h1 h2 : list Event) :
  simulated (h1 ++ h2) = (simulated h1 ++ simulated h2)%list.
Proof. apply omap_app. Qed.

(** A run that made no call, or the calls that it made after [h]. *)
Ltac trace_done :=
  rewrite <- ?app_assoc;
  first [ eexists _, _; split; [reflexivity|]
        | eexists [], _; rewrite app_nil_r; split; [reflexivity|] ];
  cbn; repeat constructor.

(** [submitAndWait] simulates the call it was given, if any. *)
Lemma viem_submitAndWait_trace (w : World) (sdk : ViemSdk.BridgingSDK) (h : list Event)
    (params : ContractCall) (fee : Z) :
  exists new r,
    ViemSdk.submitAndWait params fee w sdk h = (sdk, (h ++ new)%list, r) /\
    Forall (fun c => cc_functionName c = cc_functionName params /\
                     cc_args c = cc_args params) (simulated new).
Proof.
  unfold ViemSdk.submitAndWait. run.
  destruct (ViemSdk.walletClient sdk); cbn [negb]; [|trace_done].
  destruct (w_getAddresses w h) as [account|e]; [|trace_done].
  case_decide; [trace_done|].
  destruct (w_simulateContract w _ _) as [request|e]; [|trace_done].
  destruct (w_writeContract w _ _) as [hash|e]; [|trace_done].
  trace_done.
Qed.

Lemma part003_submitAndWait_trace (w : World) (sdk : Part003.BridgingSDK) (h : list Event)
    (params : ContractCall) (fee : Z) :
  exists new r,
    Part003.submitAndWait params fee w sdk h = (sdk, (h ++ new)%list, r) /\
    Forall (fun c => cc_functionName c = cc_functionName params /\
                     cc_args c = cc_args params) (simulated new).
Proof.
  unfold Part003.submitAndWait. run.
  destruct (Part003.walletClient sdk); cbn [negb]; [|trace_done].
  destruct (w_getAddresses w h) as [account|e]; [|trace_done].
  case_decide; [trace_done|].
  destruct (w_simulateContract w _ _) as [request|e]; [|trace_done].
  destruct (w_writeContract w _ _) as [hash|e]; [|trace_done].
  trace_done.
Qed.

(** viem-sdk.ts: every contract call that [bridgeTo] simulates is a call
    of the contract's [bridgeTo] whose last argument is [bridgeArg]. *)
Lemma viem_bridgeTo_simulated (w : World) (sdk : ViemSdk.BridgingSDK) (h : list Event)
    (target : string) (targetChainId amount : Z) (p : BridgeProtocol) (msgValue : option Z) :
  exists sdk' new r,
    ViemSdk.bridgeTo target targetChainId amount p msgValue w sdk h
    = (sdk', (h ++ new)%list, r) /\
    Forall (fun c => cc_functionName c = "bridgeTo" /\
                     cc_args c = [VAddress target; VUint targetChainId; VUint amount;
                                  VUint (ViemSdk.bridgeArg p)])
           (simulated new).
Proof.
  unfold ViemSdk.bridgeTo, ViemSdk.bridgeInternal.
  cbv [mbind Async_bind abind get_this throw].
  destruct (ViemSdk.walletClient sdk); cbn [negb].
  2:{ exists sdk, [], (Throw (Err "Error" "Wallet client not initialized")).
      rewrite app_nil_r. split; [reflexivity | constructor]. }
  cbn [o_targetChainId o_protocol o_msgValue o_fn o_args].
  destruct (viem_estimateFee_trace w sdk h targetChainId p) as (sdk' & new1 & r1 & -> & Hs1 & _).
  destruct r1 as [feeEstimate|e].
  2:{ exists sdk', new1, (Throw e). split; [reflexivity|]. rewrite Hs1. constructor. }
  destruct (isValid _); cbn [negb].
  2:{ eexists sdk', new1, _. split; [reflexivity|]. rewrite Hs1. constructor. }
  case_decide.
  { eexists sdk', new1, _. split; [reflexivity|]. rewrite Hs1. constructor. }
  match goal with
  | |- context [ViemSdk.submitAndWait ?ps ?f w ?s ?hh] =>
      destruct (viem_submitAndWait_trace w s hh ps f) as (new2 & r2 & -> & Hs2)
  end.
  exists sdk', (new1 ++ new2)%list, r2. rewrite app_assoc. split; [reflexivity|].
  rewrite simulated_app, Hs1. exact Hs2.
Qed.

Lemma part003_bridgeTo_simulated (w : World) (sdk : Part003.BridgingSDK) (h : list Event)
    (target : string) (targetChainId amount : Z) (p : BridgeProtocol) (msgValue : option Z) :
  exists new r,
    Part003.bridgeTo target targetChainId amount p msgValue w sdk h
    = (sdk, (h ++ new)%list, r) /\
    Forall (fun c => cc_functionName c = "bridgeTo" /\
                     cc_args c = [VAddress target; VUint targetChainId; VUint amount;
                                  VUint (Part003.bridgeArg p)])
           (simulated new).
Proof.
  unfold Part003.bridgeTo, Part003.bridgeInternal.
  cbv [mbind Async_bind abind get_this throw].
  destruct (Part003.walletClient sdk); cbn [negb].
  2:{ exists [], (Throw (Err "Error" "Wallet client not initialized")).
      rewrite app_nil_r. split; [reflexivity | constructor]. }
  cbn [o_targetChainId o_protocol o_msgValue o_fn o_args].
  destruct (part003_estimateFee_trace w sdk h targetChainId p) as (r1 & ->).
  destruct r1 as [feeEstimate|e].
  2:{ eexists _, (Throw e). split; [reflexivity|]. constructor. }
  destruct (isValid _); cbn [negb].
  2:{ eexists _, _. split; [reflexivity|]. constructor. }
  case_decide.
  { eexists _, _. split; [reflexivity|]. constructor. }
  match goal with
  | |- context [Part003.submitAndWait ?ps ?f w ?s ?hh] =>
      destruct (part003_submitAndWait_trace w s hh ps f) as (new2 & r2 & -> & Hs2)
  end.
  exists ([Fetch GOODSERVER_FEES] ++ new2)%list, r2. rewrite app_assoc.
  split; [reflexivity|]. rewrite simulated_app. exact Hs2.
Qed.

(** In both variants, the events that [getBridgeRequests] returns carry
    the bridge that the variant's parser reads in the logs of the chain
    client. *)
Lemma viem_getBridgeRequests_bridge (w : World) (sdk sdk' : ViemSdk.BridgingSDK)
    (h h' : list Event) (address : string) (options : option EventOptions)
    (evs : list BridgeRequestEvent) :
  ViemSdk.getBridgeRequests address options w sdk h = (sdk', h', Return evs) ->
  exists hq q logs,
    w_getContractEvents w hq q = Return logs /\
    q_eventName q = "BridgeRequest" /\ q_from q = address /\
    br_bridge <$> evs
    = (fun log => ViemSdk.parseBridge (log_bridge log))
      <$> list_slice0 logs (or_num (options ≫= limit) EVENT_QUERY_BATCH_SIZE).
Proof.
  unfold ViemSdk.getBridgeRequests. run.
  case_decide; [discriminate|].
  destruct (w_getBlockNumber w h) as [currentBlock|e]; [|discriminate].
  destruct (w_getContractEvents w _ _) as [logs|e] eqn:Hq; [|discriminate].
  intros [= _ _ <-]. do 3 eexists. split; [exact Hq|].
  split; [reflexivity|]. split; [reflexivity|].
  rewrite <- list_fmap_compose. reflexivity.
Qed.

Lemma part003_getBridgeRequests_bridge (w : World) (sdk sdk' : Part003.BridgingSDK)
    (h h' : list Event) (address : string) (options : option EventOptions)
    (evs : list BridgeRequestEvent) :
  Part003.getBridgeRequests address options w sdk h = (sdk', h', Return evs) ->
  exists hq q logs,
    w_getContractEvents w hq q = Return logs /\
    q_eventName q = "BridgeRequest" /\ q_from q = address /\
    br_bridge <$> evs
    = (fun log => Part003.parseBridge (log_bridge log))
      <$> list_slice0 logs (or_num (options ≫= limit) EVENT_QUERY_BATCH_SIZE).
Proof.
  unfold Part003.getBridgeRequests. run.
  case_decide; [discriminate|].
  destruct (w_getContractEvents w _ _) as [logs|e] eqn:Hq; [|discriminate].
  intros [= _ _ <-]. do 3 eexists. split; [exact Hq|].
  split; [reflexivity|]. split; [reflexivity|].
  rewrite <- list_fmap_compose. reflexivity.
Qed.
End BridgeFacts.

Import BridgeFacts.

Example bridgeTo_celo_to_eth :
  ViemSdk.bridgeTo "0xTarget" 1 115 AXELAR (Some 2200000000000000000) bridge_world celo_sdk []
  = ({| ViemSdk.walletClient := true; ViemSdk.currentChainId := 42220;
        ViemSdk.fees := Some quote_table |},
     [Fetch GOODSERVER_FEES; Fetch GOODSERVER_FEES; GetAddresses;
      SimulateContract
        {| cc_account := Some "0xSender";
           cc_address := "0xa3247276dbcc76dd7705273f766eb3e8a5ecf4a5";
           cc_functionName := "bridgeTo";
           cc_args := [VAddress "0xTarget"; VUint 1; VUint 115; VUint 0];
           cc_value := Some 2200000000000000000 |};
      WriteContract
        {| cc_account := Some "0xSender";
           cc_address := "0xa3247276dbcc76dd7705273f766eb3e8a5ecf4a5";
           cc_functionName := "bridgeTo";
           cc_args := [VAddress "0xTarget"; VUint 1; VUint 115; VUint 0];
           cc_value := Some 2200000000000000000 |};
      WaitForTransactionReceipt "0xhash1"],
     Return {| receipt_transactionHash := "0xhash1"; receipt_status := "success" |}).
Proof. vm_compute. reflexivity. Qed.

Example bridgeTo_insufficient_fee :
  ViemSdk.bridgeTo "0xTarget" 1 115 AXELAR None bridge_world celo_sdk []
  = ({| ViemSdk.walletClient := true; ViemSdk.currentChainId := 42220;
        ViemSdk.fees := Some quote_table |},
     [Fetch GOODSERVER_FEES; Fetch GOODSERVER_FEES],
     Throw (Err "Error" "Insufficient fee. Required: 2200000000000000000, Provided: 0")).
Proof. vm_compute. reflexivity. Qed.

(** C10: for each protocol the two variants of [bridgeTo] put different
    numbers in the enum argument of the contract call (viem-sdk.ts: AXELAR
    is 0 and LAYERZERO is 1; the other variant: LAYERZERO is 0 and AXELAR
    is 1), as the calls simulated for the same AXELAR transfer show; in
    each variant, the variant's parser of the event field reads the
    variant's own number back as the protocol. *)
Theorem bridgeTo_enum_argument (p : BridgeProtocol) :
  ViemSdk.bridgeArg p = 1 - Part003.bridgeArg p /\
  ViemSdk.bridgeArg p <> Part003.bridgeArg p /\
  ViemSdk.bridgeArg AXELAR = 0 /\ Part003.bridgeArg AXELAR = 1 /\
  ViemSdk.parseBridge (ViemSdk.bridgeArg p) = p /\
  Part003.parseBridge (Part003.bridgeArg p) = p /\
  cc_args <$> simulated
    (ViemSdk.bridgeTo "0xTarget" 1 115 AXELAR (Some 2200000000000000000)
       bridge_world celo_sdk []).1.2
  = [[VAddress "0xTarget"; VUint 1; VUint 115; VUint 0]] /\
  cc_args <$> simulated
    (Part003.bridgeTo "0xTarget" 1 115 AXELAR (Some 2200000000000000000)
       bridge_world celo_sdk3 []).1.2
  = [[VAddress "0xTarget"; VUint 1; VUint 115; VUint 1]].
Proof.
  destruct p; repeat split; try (vm_compute; reflexivity); vm_compute; discriminate.
Qed.

(** * Further properties of the code *)

(** ** utils/decimals.ts: the other functions *)
Module MoreDecimalsFacts.

(** Every chain id has 18 or 2 decimals: 18 when it is not in the
    registry. *)
Lemma getChainDecimals_cases chainId :
  getChainDecimals chainId = 18 \/ getChainDecimals chainId = 2.
Proof.
  unfold getChainDecimals.
  destruct (SUPPORTED_CHAINS !! chainId) as [c|] eqn:Hc; [|left; reflexivity].
  apply SUPPORTED_CHAINS_inv in Hc. simpl. unfold NORMALIZED_DECIMALS.
  case_decide; [lia|]. lia.
Qed.

Lemma normalizeAmount_scale x chainId :
  normalizeAmount x chainId = x * 10 ^ (18 - getChainDecimals chainId).
Proof.
  unfold normalizeAmount. fold (getChainDecimals chainId). unfold NORMALIZED_DECIMALS.
  destruct (getChainDecimals_cases chainId) as [-> | ->];
    repeat case_decide; try lia; simpl; lia.
Qed.

Lemma denormalizeAmount_scale y chainId :
  denormalizeAmount y chainId = Z.quot y (10 ^ (18 - getChainDecimals chainId)).
Proof.
  unfold denormalizeAmount. fold (getChainDecimals chainId). unfold NORMALIZED_DECIMALS.
  destruct (getChainDecimals_cases chainId) as [-> | ->];
    repeat case_decide; try lia; try reflexivity; simpl; now rewrite Z.quot_1_r.
Qed.

(** Formatting and parsing back, from the cases of [formatAmount]. *)
Lemma parse_format (x d : Z) :
  0 <= x -> 0 <= d ->
  exists s, formatAmount x d = Return s /\ parseAmount s d = Return x.
Proof.
  intros Hx Hd.
  assert (Hp : 0 < 10 ^ d) by (apply Z.pow_pos_nonneg; lia).
  assert (Hq : 0 <= x / 10 ^ d) by (apply Z.div_pos; lia).
  pose proof (parse_BigInt_toString _ Hq) as Hw.
  pose proof (Z.mod_pos_bound x (10 ^ d) Hp) as Hm.
  pose proof (Z.div_mod x (10 ^ d) ltac:(lia)) as Hdm.
  rewrite (formatAmount_cases x d Hx Hd).
  eexists. split; [reflexivity|]. case_decide as E.
  - rewrite (parseAmount_whole _ _ d Hd Hw). f_equal. rewrite Z2N.id by lia. lia.
  - destruct (Z_of_nat_complete d Hd) as [n ->].
    destruct (trimmed_fraction (Z.to_N (x mod 10 ^ Z.of_nat n)) n)
      as (F & HF & Hne & Hlast & Hlen & HFn & _).
    { apply mod_pow10_N. assumption. }
    { lia. }
    rewrite (parseAmount_point _ _ _ _ (Z.of_nat n) Hd Hw HF). f_equal.
    unfold len.
    set (f := strip_trailing "0" (padStart (N_toString (Z.to_N (x mod 10 ^ Z.of_nat n)))
                                    (Z.of_nat n) "0")) in *.
    destruct (Z.gtb_spec (Z.of_nat (String.length f)) (Z.of_nat n)); [lia|].
    replace (Z.of_nat n - Z.of_nat (String.length f))
      with (Z.of_nat (n - String.length f)) by lia.
    rewrite <- (Z_of_N_pow10 F), HFn. rewrite !Z2N.id by lia. lia.
Qed.

Lemma count_char_app c (a b : string) :
  JsStr.count_char c (a +:+ b) = (JsStr.count_char c a + JsStr.count_char c b)%nat.
Proof.
  induction a as [|x a IH]; [reflexivity|].
  rewrite append_cons. simpl. rewrite IH. lia.
Qed.

(** [split] gives one part more than there are separators. *)
Lemma length_split sep s : length (split sep s) = S (JsStr.count_char sep s).
Proof.
  induction s as [|a s IH]; [reflexivity|].
  simpl. destruct (decide (a = sep)).
  - simpl. now rewrite IH.
  - destruct (split sep s) as [|p ps]; simpl in *; lia.
Qed.
End MoreDecimalsFacts.

Import MoreDecimalsFacts.



(** X2 [validateAmountDecimals] and [parseAmount]: on a supported chain a
    decimal string [w.f] is valid exactly when [f] has no more digits than
    the chain has decimals, and then [parseAmount] with the chain's
    decimals loses no digit; a string with two points or more is never
    valid. *)
Theorem validateAmountDecimals_exact (w f : string) (W F : N) (chainId : Z) (c : BridgeChain) :
  SUPPORTED_CHAINS !! chainId = Some c ->
  parse_digits 10 w 0 = Some W ->
  parse_digits 10 f 0 = Some F ->
  validateAmountDecimals (w +:+ "." +:+ f) chainId = bool_decide (len f <= decimals c) /\
  (validateAmountDecimals (w +:+ "." +:+ f) chainId = true ->
   parseAmount (w +:+ "." +:+ f) (decimals c)
   = Return (Z.of_N W * 10 ^ decimals c + Z.of_N F * 10 ^ (decimals c - len f))) /\
  (forall a b r : string,
     validateAmountDecimals (a +:+ "." +:+ b +:+ "." +:+ r) chainId = false).
Proof.
  intros Hc HW HF.
  assert (Hv : validateAmountDecimals (w +:+ "." +:+ f) chainId
               = bool_decide (len f <= decimals c)).
  { unfold validateAmountDecimals. rewrite (getChainDecimals_supported _ _ Hc).
    change ("." +:+ f) with (String "." f).
    rewrite (split_app "." w f (digits_no_point _ _ _ HW)).
    rewrite (split_no_sep "." f (digits_no_point _ _ _ HF)).
    cbn [length lookup list_lookup].
    destruct (decide (2 < 2)%nat); [lia|].
    unfold or_str. destruct (decide (f = "")); [subst f|]; reflexivity. }
  split; [exact Hv|]. split.
  - rewrite Hv. intros Hle. apply bool_decide_eq_true in Hle.
    assert (Hd : 0 <= decimals c).
    { apply SUPPORTED_CHAINS_inv in Hc. lia. }
    rewrite (parseAmount_point w f W F (decimals c) Hd HW HF).
    destruct (Z.gtb_spec (len f) (decimals c)); [lia | reflexivity].
  - intros a b r. unfold validateAmountDecimals.
    rewrite length_split.
    change ("." +:+ b +:+ "." +:+ r) with (String "." (b +:+ String "." r)).
    rewrite count_char_app. cbn [JsStr.count_char].
    rewrite count_char_app. cbn [JsStr.count_char].
    destruct (decide ("."%char = "."%char)); [|contradiction].
    destruct (decide (2 < _)%nat); [reflexivity | lia].
Qed.

Lemma validateAmountDecimals_exact_witness :
  validateAmountDecimals ("1" +:+ "." +:+ "15") 122 = true /\
  parseAmount ("1" +:+ "." +:+ "15") 2 = Return (1 * 10 ^ 2 + 15 * 10 ^ (2 - len "15")) /\
  validateAmountDecimals ("1" +:+ "." +:+ "155") 122 = false.
Proof.
  destruct (validateAmountDecimals_exact "1" "15" 1 15 122 _ eq_refl eq_refl eq_refl)
    as (H1 & H2 & _).
  destruct (validateAmountDecimals_exact "1" "155" 1 155 122 _ eq_refl eq_refl eq_refl)
    as (H3 & _).
  split; [rewrite H1; reflexivity|]. split; [|rewrite H3; reflexivity].
  apply H2. rewrite H1. reflexivity.
Defined.

(** X3 [parseAmount] reads the text up to the second point only: what
    follows a second point is ignored, whatever it is. *)
Theorem parseAmount_second_point (w f rest : string) (d : Z) :
  has_char "." w = false ->
  has_char "." f = false ->
  parseAmount (w +:+ "." +:+ f +:+ "." +:+ rest) d = parseAmount (w +:+ "." +:+ f) d.
Proof.
  intros Hw Hf. unfold parseAmount.
  change ("." +:+ f +:+ "." +:+ rest) with (String "." (f +:+ String "." rest)).
  change ("." +:+ f) with (String "." f).
  rewrite !(split_app "." w _ Hw), (split_app "." f rest Hf), (split_no_sep "." f Hf).
  cbn [lookup list_lookup].
  destruct (decide (w +:+ String "." (f +:+ String "." rest) = "" \/
                    w +:+ String "." (f +:+ String "." rest) = "0")) as [[E|E]|_];
    [destruct w as [|? [|? ?]]; discriminate E..|].
  destruct (decide (w +:+ String "." f = "" \/ w +:+ String "." f = "0")) as [[E|E]|_];
    [destruct w as [|? [|? ?]]; discriminate E..|].
  reflexivity.
Qed.

Lemma parseAmount_second_point_witness :
  parseAmount ("1" +:+ "." +:+ "5" +:+ "." +:+ "999") 2 = parseAmount ("1" +:+ "." +:+ "5") 2.
Proof. apply parseAmount_second_point; reflexivity. Defined.

(** X4 [formatFee]: for every chain id and unsigned fee it returns a
    string, the one [formatAmount] gives with the decimals of the chain,
    and [parseAmount] with those decimals reads the fee back. *)
Theorem formatFee_roundtrip (fee chainId : Z) :
  0 <= fee ->
  exists s,
    formatFee fee chainId = Return s /\
    formatAmount fee (getChainDecimals chainId) = Return s /\
    parseAmount s (getChainDecimals chainId) = Return fee.
Proof.
  intros Hfee.
  assert (Hd : 0 <= getChainDecimals chainId).
  { destruct (getChainDecimals_cases chainId); lia. }
  destruct (parse_format fee (getChainDecimals chainId) Hfee Hd) as (s & Hs & Hp).
  exists s. split; [|split; assumption].
  rewrite <- Hs. reflexivity.
Qed.

Lemma formatFee_roundtrip_witness :
  exists s, formatFee 115 122 = Return s /\ formatAmount 115 (getChainDecimals 122) = Return s /\
            parseAmount s (getChainDecimals 122) = Return 115.
Proof. apply (formatFee_roundtrip 115 122). lia. Defined.

(** X5 [formatAmount] never shows two unsigned amounts alike: with the
    same decimals, equal strings come from equal amounts. *)
Theorem formatAmount_injective (x y d : Z) :
  0 <= x -> 0 <= y -> 0 <= d ->
  formatAmount x d = formatAmount y d -> x = y.
Proof.
  intros Hx Hy Hd E.
  destruct (parse_format x d Hx Hd) as (s & Hs & Hp).
  destruct (parse_format y d Hy Hd) as (t & Ht & Hq).
  rewrite Hs, Ht in E. inversion E; subst t. congruence.
Qed.

Lemma formatAmount_injective_witness : 1500 = 15 * 100.
Proof.
  apply (formatAmount_injective 1500 (15 * 100) 3); [lia | lia | lia | reflexivity].
Defined.

(** X6 [normalizeAmount] keeps the order of amounts on every chain id,
    in and out of the registry: one amount is below another exactly when
    it is so after normalization. *)
Theorem normalizeAmount_order (x y chainId : Z) :
  (x < y <-> normalizeAmount x chainId < normalizeAmount y chainId) /\
  (x = y <-> normalizeAmount x chainId = normalizeAmount y chainId).
Proof.
  rewrite !normalizeAmount_scale.
  assert (0 < 10 ^ (18 - getChainDecimals chainId)).
  { apply Z.pow_pos_nonneg; [lia|]. destruct (getChainDecimals_cases chainId); lia. }
  split; split; intros; nia.
Qed.

(** X7 Moving an unsigned amount from one chain to another, by
    [normalizeAmount] on the first and [denormalizeAmount] on the second:
    the amount times [10^(d2-d1)] when the second chain has at least as
    many decimals, and the amount divided by [10^(d1-d2)], rounded down,
    when it has fewer; between chains of equal decimals, the amount. *)
Theorem denormalize_normalize_across (x chain1 chain2 : Z) :
  0 <= x ->
  (getChainDecimals chain1 <= getChainDecimals chain2 ->
   denormalizeAmount (normalizeAmount x chain1) chain2
   = x * 10 ^ (getChainDecimals chain2 - getChainDecimals chain1)) /\
  (getChainDecimals chain2 < getChainDecimals chain1 ->
   denormalizeAmount (normalizeAmount x chain1) chain2
   = x / 10 ^ (getChainDecimals chain1 - getChainDecimals chain2)) /\
  (getChainDecimals chain1 = getChainDecimals chain2 ->
   denormalizeAmount (normalizeAmount x chain1) chain2 = x).
Proof.
  intros Hx. rewrite denormalizeAmount_scale, normalizeAmount_scale.
  destruct (getChainDecimals_cases chain1) as [-> | ->];
    destruct (getChainDecimals_cases chain2) as [-> | ->];
    (split; [|split]); intros Hd; try lia; simpl.
  - rewrite Z.quot_1_r. lia.
  - rewrite Z.quot_1_r. lia.
  - rewrite Z.mul_1_r. apply Z.quot_div_nonneg; lia.
  - rewrite Z.quot_1_r. lia.
  - rewrite Z.mul_1_r. apply Z.quot_mul. lia.
  - apply Z.quot_mul. lia.
Qed.

Lemma denormalize_normalize_across_witness :
  denormalizeAmount (normalizeAmount 115 122) 42220 = 115 * 10 ^ (18 - 2) /\
  denormalizeAmount (normalizeAmount 1159999999999999999 42220) 1 = 115.
Proof.
  destruct (denormalize_normalize_across 115 122 42220 ltac:(lia)) as (H1 & _ & _).
  destruct (denormalize_normalize_across 1159999999999999999 42220 1 ltac:(lia)) as (_ & H2 & _).
  split; [apply H1 | rewrite H2]; vm_compute; congruence.
Defined.

(** X8 The decimals that the demo application hard-codes for the
    transaction cards are the decimals of the registry, for every chain
    id. *)
Theorem demo_decimals_agree (chainId : Z) :
  getDecimalsForChain chainId = getChainDecimals chainId /\
  formatAmountValue_decimals chainId = getChainDecimals chainId.
Proof.
  unfold getDecimalsForChain, formatAmountValue_decimals, getChainDecimals.
  destruct (SUPPORTED_CHAINS !! chainId) as [c|] eqn:Hc.
  - apply SUPPORTED_CHAINS_inv in Hc. simpl. unfold NORMALIZED_DECIMALS.
    repeat case_decide; lia.
  - assert (Hn : chainId <> 42220 /\ chainId <> 122 /\ chainId <> 1 /\ chainId <> 50).
    { repeat split; intros ->; vm_compute in Hc; discriminate. }
    simpl. unfold NORMALIZED_DECIMALS. repeat case_decide; lia.
Qed.

(** ** The registry of chains and the objects built on it *)
Module RegistryFacts.

Lemma lookup_unsupported {V} (chainId : Z) (a b c d : V) :
  chainId <> 42220 -> chainId <> 122 -> chainId <> 1 -> chainId <> 50 ->
  (<[42220 := a]> (<[122 := b]> (<[1 := c]> (<[50 := d]> (∅ : gmap Z V))))) !! chainId = None.
Proof.
  intros. rewrite !lookup_insert_ne by congruence. apply lookup_empty.
Qed.

(** A chain id is one of the four of the registry, or in none of the
    tables. *)
Lemma chain_cases (chainId : Z) :
  chainId = 42220 \/ chainId = 122 \/ chainId = 1 \/ chainId = 50 \/
  (SUPPORTED_CHAINS !! chainId = None /\ BRIDGE_CONTRACT_ADDRESSES !! chainId = None /\
   CHAIN_NAMES !! chainId = None /\
   chainId <> 42220 /\ chainId <> 122 /\ chainId <> 1 /\ chainId <> 50).
Proof.
  destruct (decide (chainId = 42220)); [tauto|].
  destruct (decide (chainId = 122)); [tauto|].
  destruct (decide (chainId = 1)); [tauto|].
  destruct (decide (chainId = 50)); [tauto|].
  do 4 right. repeat split; try assumption; apply lookup_unsupported; assumption.
Qed.

(** A chain of the registry has a bridge contract address. *)
Lemma supported_has_contract chainId :
  is_Some (SUPPORTED_CHAINS !! chainId) ->
  exists addr, BRIDGE_CONTRACT_ADDRESSES !! chainId = Some addr /\ addr <> "" /\
               or_str (BRIDGE_CONTRACT_ADDRESSES !! chainId) "" = addr.
Proof.
  intros [c Hc].
  destruct (chain_cases chainId) as [-> | [-> | [-> | [-> | (Hn & _)]]]];
    try (eexists; split; [reflexivity|]; split; [discriminate | reflexivity]).
  congruence.
Qed.
End RegistryFacts.

Import RegistryFacts.

(** X9 The tables of chains agree: a chain id is in the registry exactly
    when it has a route name for the fee service and a bridge contract
    address; then the route name is the one of [CHAIN_NAMES] and the
    display name is the registry's; any other id is rejected by
    [getChainName] and displayed as "Chain <id>". *)
Theorem chain_tables_agree (chainId : Z) :
  (is_Some (SUPPORTED_CHAINS !! chainId) <-> exists n, getChainName chainId = Return n) /\
  (is_Some (SUPPORTED_CHAINS !! chainId) <-> is_Some (BRIDGE_CONTRACT_ADDRESSES !! chainId)) /\
  (forall c, SUPPORTED_CHAINS !! chainId = Some c ->
     id c = chainId /\
     TrackingTs.formatChainName chainId = name c /\
     ViemSdkMore.formatChainName chainId = name c /\
     exists n, CHAIN_NAMES !! chainId = Some n /\ getChainName chainId = Return n) /\
  (SUPPORTED_CHAINS !! chainId = None ->
     getChainName chainId
     = Throw (Err "Error" ("Unsupported chain ID: " +:+ BigInt_toString chainId)) /\
     TrackingTs.formatChainName chainId = "Chain " +:+ BigInt_toString chainId).
Proof.
  destruct (chain_cases chainId) as [-> | [-> | [-> | [-> | (Hs & Hb & Hc & H1 & H2 & H3 & H4)]]]].
  1-4: (split; [split; [intros _; eexists; reflexivity | intros _; eexists; reflexivity]|];
        split; [split; intros _; eexists; reflexivity|];
        split; [intros c [= <-]; repeat split; eexists; split; reflexivity
               | intros Hn; vm_compute in Hn; discriminate]).
  rewrite Hs, Hb.
  assert (Hg : getChainName chainId
               = Throw (Err "Error" ("Unsupported chain ID: " +:+ BigInt_toString chainId))).
  { unfold getChainName. repeat (case_decide; [congruence|]). reflexivity. }
  split; [|split; [|split]].
  - split; [intros [? [=]] | intros [n Hn]; rewrite Hg in Hn; discriminate].
  - split; intros [? [=]].
  - intros c [=].
  - intros _. split; [exact Hg|].
    unfold TrackingTs.formatChainName. repeat (case_decide; [congruence|]). reflexivity.
Qed.


(** X11 On an object whose chain is in the registry, [canBridge] to a
    chain of the registry asks the bridge contract once, with the amount
    scaled to 18 decimals by the current chain's decimals (the target
    chain plays no part), and returns the contract's answer: no error when
    it is within the limit, the contract's message when it is not, and
    the message of the failure when the read throws. The two variants of
    the class do the same. *)
Theorem canBridge_asks_contract (w : World) (h : list Event)
    (from : string) (amount targetChainId : Z) (c t : BridgeChain)
    (sdk : ViemSdk.BridgingSDK) (sdk3 : Part003.BridgingSDK) :
  SUPPORTED_CHAINS !! ViemSdk.currentChainId sdk = Some c ->
  Part003.currentChainId sdk3 = ViemSdk.currentChainId sdk ->
  SUPPORTED_CHAINS !! targetChainId = Some t ->
  exists addr,
    BRIDGE_CONTRACT_ADDRESSES !! ViemSdk.currentChainId sdk = Some addr /\
    let normalized := amount * 10 ^ (18 - decimals c) in
    let result :=
      match w_readCanBridge w h addr from normalized with
      | Return (true, _) => {| isWithinLimit := true; cb_error := None |}
      | Return (false, msg) => {| isWithinLimit := false; cb_error := Some msg |}
      | Throw e =>
          {| isWithinLimit := false;
             cb_error := Some ("Failed to check bridge limits: " +:+ errorMessage e) |}
      end in
    let trace :=
      (h ++ [ReadContract addr "canBridge" [VAddress from; VUint normalized]])%list in
    ViemSdk.canBridge from amount targetChainId w sdk h = (sdk, trace, Return result) /\
    Part003.canBridge from amount targetChainId w sdk3 h = (sdk3, trace, Return result).
Proof.
  intros Hc H3 Ht.
  destruct (supported_has_contract (ViemSdk.currentChainId sdk)) as (addr & Ha & Hne & Hor);
    [eauto|].
  exists addr. split; [exact Ha|]. cbv zeta.
  assert (Hn : normalizeAmount amount (ViemSdk.currentChainId sdk)
               = amount * 10 ^ (18 - decimals c)).
  { rewrite normalizeAmount_scale, (getChainDecimals_supported _ _ Hc). reflexivity. }
  split.
  - unfold ViemSdk.canBridge. run. rewrite Ht, Hor, Hn.
    destruct (decide (addr = "")); [contradiction|].
    destruct (w_readCanBridge w h addr from _) as [[[] msg]|e]; reflexivity.
  - unfold Part003.canBridge. run. rewrite Ht, H3, Hor, Hn.
    destruct (decide (addr = "")); [contradiction|].
    destruct (w_readCanBridge w h addr from _) as [[[] msg]|e]; reflexivity.
Qed.

Lemma canBridge_asks_contract_witness :
  ViemSdk.canBridge "0xSender" 115
    1 bridge_world
    {| ViemSdk.walletClient := true; ViemSdk.currentChainId := 122; ViemSdk.fees := None |} []
  = ({| ViemSdk.walletClient := true; ViemSdk.currentChainId := 122; ViemSdk.fees := None |},
     [ReadContract "0xa3247276dbcc76dd7705273f766eb3e8a5ecf4a5" "canBridge"
        [VAddress "0xSender"; VUint 1150000000000000000]],
     Return {| isWithinLimit := true; cb_error := None |}).
Proof.
  destruct (canBridge_asks_contract bridge_world [] "0xSender" 115 1 _ _
              {| ViemSdk.walletClient := true; ViemSdk.currentChainId := 122;
                 ViemSdk.fees := None |}
              {| Part003.walletClient := true; Part003.currentChainId := 122 |}
              eq_refl eq_refl eq_refl) as (addr & Ha & Hv & _).
  inversion Ha; subst addr. exact Hv.
Defined.

(** ** The BridgingSDK class: the steps of a transfer *)
Module StepsFacts.

(** [estimateFee] only requests the fees, and keeps the chain and the
    wallet of the object. *)
Lemma viem_estimateFee_fetches (w : World) (sdk : ViemSdk.BridgingSDK) (h : list Event)
    (targetChainId : Z) (p : BridgeProtocol) :
  exists sdk' new r,
    ViemSdk.estimateFee targetChainId p w sdk h = (sdk', (h ++ new)%list, r) /\
    Forall (fun ev => ev = Fetch GOODSERVER_FEES) new /\
    ViemSdk.currentChainId sdk' = ViemSdk.currentChainId sdk /\
    ViemSdk.walletClient sdk' = ViemSdk.walletClient sdk.
Proof.
  destruct (decide (ViemSdk.axelarUnsupported (ViemSdk.currentChainId sdk) targetChainId p))
    as [Hg|Hg].
  - destruct (viem_estimateFee_guarded w sdk h _ _ Hg) as (e & -> & _).
    exists sdk, [], (Throw e). rewrite app_nil_r. auto.
  - destruct (viem_estimateFee_unguarded w sdk h _ _ Hg)
      as (sdk' & new & r & -> & _ & Hn & ? & ?).
    exists sdk', (Fetch GOODSERVER_FEES :: new), r.
    repeat split; auto. destruct Hn as [-> | ->]; repeat constructor.
Qed.

Lemma validateFeeCoverage_valid (msgValue requiredFee : Z) :
  isValid (validateFeeCoverage msgValue requiredFee) = true <-> requiredFee <= msgValue.
Proof.
  unfold validateFeeCoverage. case_decide; simpl; split; intros; try lia; discriminate.
Qed.

(** The steps of [submitAndWait], with a wallet: the accounts, the
    simulation, the write and the wait, in this order, as far as they go. *)
Ltac submit_steps :=
  rewrite <- ?app_assoc; cbn [app];
  first
    [ eexists _, _, _, _, _; split; [reflexivity|]; split;
      [ eexists; reflexivity | intros ? [=] ]
    | eexists _, _, _, _, _; split; [reflexivity|]; split;
      [ eexists; reflexivity | intros ? _; reflexivity ] ].

Lemma viem_submitAndWait_steps (w : World) (sdk : ViemSdk.BridgingSDK) (h : list Event)
    (params : ContractCall) (fee : Z) :
  ViemSdk.walletClient sdk = true ->
  exists steps r account request hash,
    ViemSdk.submitAndWait params fee w sdk h = (sdk, (h ++ steps)%list, r) /\
    steps `prefix_of`
      [GetAddresses;
       SimulateContract {| cc_account := Some account;
                           cc_address := cc_address params;
                           cc_functionName := cc_functionName params;
                           cc_args := cc_args params;
                           cc_value := Some (or_num (cc_value params) fee) |};
       WriteContract request;
       WaitForTransactionReceipt hash] /\
    (forall receipt, r = Return receipt ->
       steps = [GetAddresses;
                SimulateContract {| cc_account := Some account;
                                    cc_address := cc_address params;
                                    cc_functionName := cc_functionName params;
                                    cc_args := cc_args params;
                                    cc_value := Some (or_num (cc_value params) fee) |};
                WriteContract request;
                WaitForTransactionReceipt hash]).
Proof.
  intros Hw. unfold ViemSdk.submitAndWait. run. rewrite Hw. cbn [negb].
  destruct (w_getAddresses w h) as [account|e].
  2:{ exists [GetAddresses], (Throw e), "", params, "".
      split; [reflexivity|]. split; [eexists; reflexivity | intros ? [=]]. }
  case_decide as Ea.
  { eexists [GetAddresses], _, "", params, "".
    split; [reflexivity|]. split; [eexists; reflexivity | intros ? [=]]. }
  destruct (w_simulateContract w _ _) as [request|e].
  2:{ eexists [GetAddresses; SimulateContract _], (Throw e), _, params, "".
      rewrite <- app_assoc. split; [reflexivity|].
      split; [eexists; reflexivity | intros ? [=]]. }
  destruct (w_writeContract w _ _) as [hash|e].
  2:{ eexists [GetAddresses; SimulateContract _; WriteContract request], (Throw e), _, request, "".
      rewrite <- !app_assoc. split; [reflexivity|].
      split; [eexists; reflexivity | intros ? [=]]. }
  eexists [GetAddresses; SimulateContract _; WriteContract request;
           WaitForTransactionReceipt hash], _, _, request, hash.
  rewrite <- !app_assoc. split; [reflexivity|].
  split; [exists []; reflexivity | intros ? _; reflexivity].
Qed.

Lemma part003_submitAndWait_steps (w : World) (sdk : Part003.BridgingSDK) (h : list Event)
    (params : ContractCall) (fee : Z) :
  Part003.walletClient sdk = true ->
  exists steps r account request hash,
    Part003.submitAndWait params fee w sdk h = (sdk, (h ++ steps)%list, r) /\
    steps `prefix_of`
      [GetAddresses;
       SimulateContract {| cc_account := Some account;
                           cc_address := cc_address params;
                           cc_functionName := cc_functionName params;
                           cc_args := cc_args params;
                           cc_value := Some (or_num (cc_value params) fee) |};
       WriteContract request;
       WaitForTransactionReceipt hash] /\
    (forall receipt, r = Return receipt ->
       steps = [GetAddresses;
                SimulateContract {| cc_account := Some account;
                                    cc_address := cc_address params;
                                    cc_functionName := cc_functionName params;
                                    cc_args := cc_args params;
                                    cc_value := Some (or_num (cc_value params) fee) |};
                WriteContract request;
                WaitForTransactionReceipt hash]).
Proof.
  intros Hw. unfold Part003.submitAndWait. run. rewrite Hw. cbn [negb].
  destruct (w_getAddresses w h) as [account|e].
  2:{ exists [GetAddresses], (Throw e), "", params, "".
      split; [reflexivity|]. split; [eexists; reflexivity | intros ? [=]]. }
  case_decide as Ea.
  { eexists [GetAddresses], _, "", params, "".
    split; [reflexivity|]. split; [eexists; reflexivity | intros ? [=]]. }
  destruct (w_simulateContract w _ _) as [request|e].
  2:{ eexists [GetAddresses; SimulateContract _], (Throw e), _, params, "".
      rewrite <- app_assoc. split; [reflexivity|].
      split; [eexists; reflexivity | intros ? [=]]. }
  destruct (w_writeContract w _ _) as [hash|e].
  2:{ eexists [GetAddresses; SimulateContract _; WriteContract request], (Throw e), _, request, "".
      rewrite <- !app_assoc. split; [reflexivity|].
      split; [eexists; reflexivity | intros ? [=]]. }
  eexists [GetAddresses; SimulateContract _; WriteContract request;
           WaitForTransactionReceipt hash], _, _, request, hash.
  rewrite <- !app_assoc. split; [reflexivity|].
  split; [exists []; reflexivity | intros ? _; reflexivity].
Qed.
End StepsFacts.

Module TransferFacts.
Import StepsFacts.

Lemma or_num_self (v : Z) : or_num (Some v) v = v.
Proof. unfold or_num. repeat case_match; simplify_eq; reflexivity. Qed.

Lemma viem_bridgeInternal_steps (w : World) (sdk : ViemSdk.BridgingSDK) (h : list Event)
    (opts : BridgeOpts) :
  exists sdk' fetches steps r,
    ViemSdk.bridgeInternal opts w sdk h = (sdk', (h ++ fetches ++ steps)%list, r) /\
    ViemSdk.currentChainId sdk' = ViemSdk.currentChainId sdk /\
    ViemSdk.walletClient sdk' = ViemSdk.walletClient sdk /\
    Forall (fun ev => ev = Fetch GOODSERVER_FEES) fetches /\
    (ViemSdk.walletClient sdk = false ->
       fetches = [] /\ steps = [] /\
       r = Throw (Err "Error" "Wallet client not initialized")) /\
    exists account request hash fee,
      steps `prefix_of`
        transferSteps (transferCall (ViemSdk.currentChainId sdk) opts account fee)
                      request hash /\
      (steps <> [] -> fee <= default 0 (o_msgValue opts)) /\
      (forall receipt, r = Return receipt ->
         steps = transferSteps (transferCall (ViemSdk.currentChainId sdk) opts account fee)
                               request hash).
Proof.
  pose (nocall := {| cc_account := None; cc_address := ""; cc_functionName := "";
                     cc_args := []; cc_value := None |}).
  unfold ViemSdk.bridgeInternal.
  cbv [mbind Async_bind abind get_this throw].
  destruct (ViemSdk.walletClient sdk) eqn:Hw; cbn [negb].
  2:{ exists sdk, [], [], (Throw (Err "Error" "Wallet client not initialized")).
      rewrite app_nil_r. repeat split; auto.
      exists "", nocall, "", 0. split; [apply prefix_nil|]. split; [congruence|intros ? [=]]. }
  destruct (viem_estimateFee_fetches w sdk h (o_targetChainId opts) (o_protocol opts))
    as (sdk' & new1 & r1 & -> & Hf & Hc & Hw').
  destruct r1 as [feeEstimate|e].
  2:{ exists sdk', new1, [], (Throw e). rewrite app_nil_r. repeat split; auto; try congruence.
      exists "", nocall, "", 0. split; [apply prefix_nil|]. split; [congruence|intros ? [=]]. }
  destruct (isValid _) eqn:Hv; cbn [negb].
  2:{ eexists sdk', new1, [], _. rewrite app_nil_r. split; [reflexivity|].
      repeat split; auto; try congruence.
      exists "", nocall, "", 0. split; [apply prefix_nil|]. split; [congruence|intros ? [=]]. }
  apply validateFeeCoverage_valid in Hv.
  case_decide.
  { eexists sdk', new1, [], _. rewrite app_nil_r. split; [reflexivity|].
    repeat split; auto; try congruence.
    exists "", nocall, "", 0. split; [apply prefix_nil|]. split; [congruence|intros ? [=]]. }
  match goal with
  | |- context [ViemSdk.submitAndWait ?ps ?f w ?s ?hh] =>
      destruct (viem_submitAndWait_steps w s hh ps f)
        as (steps & r2 & account & request & hash & -> & Hp & Hr)
  end.
  { congruence. }
  cbn [cc_address cc_functionName cc_args cc_value] in Hp, Hr.
  rewrite or_num_self in Hp, Hr.
  exists sdk', new1, steps, r2. rewrite <- app_assoc. split; [reflexivity|].
  repeat split; auto; try congruence.
  exists account, request, hash, (fee feeEstimate). auto.
Qed.

Lemma part003_bridgeInternal_steps (w : World) (sdk : Part003.BridgingSDK) (h : list Event)
    (opts : BridgeOpts) :
  exists fetches steps r,
    Part003.bridgeInternal opts w sdk h = (sdk, (h ++ fetches ++ steps)%list, r) /\
    Forall (fun ev => ev = Fetch GOODSERVER_FEES) fetches /\
    (Part003.walletClient sdk = false ->
       fetches = [] /\ steps = [] /\
       r = Throw (Err "Error" "Wallet client not initialized")) /\
    exists account request hash fee,
      steps `prefix_of`
        transferSteps (transferCall (Part003.currentChainId sdk) opts account fee)
                      request hash /\
      (steps <> [] -> fee <= default 0 (o_msgValue opts)) /\
      (forall receipt, r = Return receipt ->
         steps = transferSteps (transferCall (Part003.currentChainId sdk) opts account fee)
                               request hash).
Proof.
  pose (nocall := {| cc_account := None; cc_address := ""; cc_functionName := "";
                     cc_args := []; cc_value := None |}).
  unfold Part003.bridgeInternal.
  cbv [mbind Async_bind abind get_this throw].
  destruct (Part003.walletClient sdk) eqn:Hw; cbn [negb].
  2:{ exists [], [], (Throw (Err "Error" "Wallet client not initialized")).
      rewrite app_nil_r. repeat split; auto.
      exists "", nocall, "", 0. split; [apply prefix_nil|]. split; [congruence|intros ? [=]]. }
  destruct (part003_estimateFee_trace w sdk h (o_targetChainId opts) (o_protocol opts))
    as (r1 & ->).
  destruct r1 as [feeEstimate|e].
  2:{ exists [Fetch GOODSERVER_FEES], [], (Throw e). rewrite app_nil_r.
      repeat split; auto; try congruence.
      exists "", nocall, "", 0. split; [apply prefix_nil|]. split; [congruence|intros ? [=]]. }
  destruct (isValid _) eqn:Hv; cbn [negb].
  2:{ eexists [Fetch GOODSERVER_FEES], [], _. rewrite app_nil_r. split; [reflexivity|].
      repeat split; auto; try congruence.
      exists "", nocall, "", 0. split; [apply prefix_nil|]. split; [congruence|intros ? [=]]. }
  apply validateFeeCoverage_valid in Hv.
  case_decide.
  { eexists [Fetch GOODSERVER_FEES], [], _. rewrite app_nil_r. split; [reflexivity|].
    repeat split; auto; try congruence.
    exists "", nocall, "", 0. split; [apply prefix_nil|]. split; [congruence|intros ? [=]]. }
  match goal with
  | |- context [Part003.submitAndWait ?ps ?f w ?s ?hh] =>
      destruct (part003_submitAndWait_steps w s hh ps f)
        as (steps & r2 & account & request & hash & -> & Hp & Hr)
  end.
  { congruence. }
  cbn [cc_address cc_functionName cc_args cc_value] in Hp, Hr.
  rewrite or_num_self in Hp, Hr.
  exists [Fetch GOODSERVER_FEES], steps, r2. rewrite <- app_assoc. split; [reflexivity|].
  repeat split; auto; try congruence.
  exists account, request, hash, (fee feeEstimate). auto.
Qed.
End TransferFacts.

Import TransferFacts.


(** X13: viem-sdk.ts: a transfer over Axelar from or to XDC or Fuse, by
    [bridgeToWithAxelar] or by [bridgeTo] with the protocol AXELAR, is
    rejected before anything is requested: no fee request, no wallet or
    chain call, and the object is unchanged. *)
Theorem axelar_transfer_guarded (w : World) (sdk : ViemSdk.BridgingSDK) (h : list Event)
    (target : string) (targetChainId amount : Z) (gasRefundAddress : option string)
    (msgValue : option Z) :
  ViemSdk.axelarUnsupported (ViemSdk.currentChainId sdk) targetChainId AXELAR ->
  (exists e,
     ViemSdkMore.bridgeToWithAxelar target targetChainId amount gasRefundAddress msgValue
       w sdk h = (sdk, h, Throw e)) /\
  (exists e,
     ViemSdk.bridgeTo target targetChainId amount AXELAR msgValue w sdk h
     = (sdk, h, Throw e)).
Proof.
  intros Hg.
  unfold ViemSdkMore.bridgeToWithAxelar, ViemSdk.bridgeTo, ViemSdk.bridgeInternal.
  cbv [mbind Async_bind abind get_this throw].
  destruct (viem_estimateFee_guarded w sdk h targetChainId AXELAR Hg) as (e & He & _).
  destruct (ViemSdk.walletClient sdk); cbn [negb o_targetChainId o_protocol];
    rewrite ?He; split; eauto.
Qed.

Lemma axelar_transfer_guarded_witness :
  (exists e,
     ViemSdkMore.bridgeToWithAxelar "0xTarget" 122 100 None (Some 5) bridge_world celo_sdk []
     = (celo_sdk, [], Throw e)) /\
  (exists e,
     ViemSdk.bridgeTo "0xTarget" 122 100 AXELAR (Some 5) bridge_world celo_sdk []
     = (celo_sdk, [], Throw e)).
Proof.
  apply (axelar_transfer_guarded bridge_world celo_sdk [] "0xTarget" 122 100 None (Some 5)).
  unfold ViemSdk.axelarUnsupported. simpl. split; [reflexivity | lia].
Defined.

(** ** Fee estimates, whatever object asks *)
Module EstimateAtFacts.

(** [getFeeEstimate] makes one request and settles the same way for every
    object. *)
Lemma getFeeEstimate_at {T} (w : World) (t : T) (h : list Event)
    (fromChainId toChainId : Z) (p : BridgeProtocol) :
  getFeeEstimate fromChainId toChainId p w t h
  = (t, (h ++ [Fetch GOODSERVER_FEES])%list, feeEstimateAt w h fromChainId toChainId p).
Proof.
  unfold feeEstimateAt, getFeeEstimate, fetchFeeEstimates. run.
  destruct (w_fetchFees w h) as [response|e]; [|reflexivity].
  destruct (ok response); cbn [negb]; [|reflexivity].
  destruct (json response) as [feeData|e]; [|reflexivity].
  destruct (feeData !! BridgeProtocol_name p) as [protocolData|]; [|reflexivity].
  destruct (getChainName fromChainId) as [fromName|e]; [|reflexivity].
  destruct (getChainName toChainId) as [toName|e]; [|reflexivity].
  case_decide; [reflexivity|].
  destruct (parseNativeFee _ _) as [F|e]; [|reflexivity].
  rewrite fee_percent. reflexivity.
Qed.

End EstimateAtFacts.

Import EstimateAtFacts.



(** ** utils/fees.ts: all estimates, rejections, the unit of a quote *)
Module MoreFeesFacts.

(** An estimate carries the protocol it was asked for. *)
Lemma feeEstimateAt_protocol (w : World) (h : list Event) (fromChainId toChainId : Z)
    (p : BridgeProtocol) (estimate : FeeEstimate) :
  feeEstimateAt w h fromChainId toChainId p = Return estimate -> protocol estimate = p.
Proof.
  unfold feeEstimateAt, getFeeEstimate, fetchFeeEstimates. run.
  destruct (w_fetchFees w h) as [response|e]; [|intros [=]].
  destruct (ok response); cbn [negb]; [|intros [=]].
  destruct (json response) as [feeData|e]; [|intros [=]].
  destruct (feeData !! BridgeProtocol_name p) as [protocolData|]; [|intros [=]].
  destruct (getChainName fromChainId) as [fromName|e]; [|intros [=]].
  destruct (getChainName toChainId) as [toName|e]; [|intros [=]].
  case_decide; [intros [=]|].
  destruct (parseNativeFee _ _) as [F|e]; [|intros [=]].
  rewrite fee_percent. cbn. intros [= <-]. reflexivity.
Qed.



End MoreFeesFacts.

Import MoreFeesFacts.

(** X15: [getAllFeeEstimates] always makes two requests, for AXELAR and
    then for LAYERZERO, and leaves the object alone.  It returns the
    estimates that succeeded, in this order, each with its protocol; the
    error of a failed estimate is never passed on, and the only rejection,
    when both failed, is "No fee estimates available for route <from> to
    <to>" with the two chain ids. *)
Theorem getAllFeeEstimates_collects {T} (w : World) (t : T) (h : list Event)
    (fromChainId toChainId : Z) :
  let first := feeEstimateAt w h fromChainId toChainId AXELAR in
  let second :=
    feeEstimateAt w (h ++ [Fetch GOODSERVER_FEES]) fromChainId toChainId LAYERZERO in
  getAllFeeEstimates fromChainId toChainId w t h
  = (t, (h ++ [Fetch GOODSERVER_FEES; Fetch GOODSERVER_FEES])%list,
     match resolved [first; second] with
     | [] => Throw (Err "Error" ("No fee estimates available for route "
                                 +:+ BigInt_toString fromChainId +:+ " to "
                                 +:+ BigInt_toString toChainId))
     | estimates => Return estimates
     end) /\
  (protocol <$> resolved [first; second]) `sublist_of` [AXELAR; LAYERZERO].
Proof.
  intros first second. split.
  - unfold getAllFeeEstimates, collectFeeEstimates.
    cbv [mbind Async_bind abind try_catch mret Async_ret aret throw].
    rewrite getFeeEstimate_at. fold first.
    destruct first as [x1|e1]; cbn [app].
    + rewrite getFeeEstimate_at. fold second. rewrite <- app_assoc.
      destruct second as [x2|e2]; reflexivity.
    + rewrite getFeeEstimate_at. fold second. rewrite <- app_assoc.
      destruct second as [x2|e2]; reflexivity.
  - destruct first as [x1|e1] eqn:H1; destruct second as [x2|e2] eqn:H2; cbn;
      repeat match goal with
             | H : _ = Return _ |- _ => apply feeEstimateAt_protocol in H; rewrite H; clear H
             end.
    + reflexivity.
    + apply sublist_skip. apply sublist_nil_l.
    + apply sublist_cons. reflexivity.
    + apply sublist_nil_l.
Qed.



(** X17: [parseNativeFee] reads the amount before the first space and
    nothing else: the unit of the quote is not looked at, so the same
    amount with any unit, or none, gives the same fee on a chain; a quote
    that is empty or starts with a space is refused with "Invalid fee
    format". *)
Theorem parseNativeFee_unit (amount unit : string) (chainId : Z) :
  has_char " " amount = false ->
  parseNativeFee (amount +:+ " " +:+ unit) chainId = parseNativeFee amount chainId /\
  (amount = "" ->
   parseNativeFee (amount +:+ " " +:+ unit) chainId = Throw (Err "Error" "Invalid fee format")).
Proof.
  intros Hsp.
  assert (E : parseNativeFee (amount +:+ " " +:+ unit) chainId = parseNativeFee amount chainId).
  { unfold parseNativeFee.
    change (" " +:+ unit) with (String " " unit).
    rewrite (split_app " " amount unit Hsp), (split_no_sep " " amount Hsp).
    reflexivity. }
  split; [exact E|]. intros ->. rewrite E. reflexivity.
Qed.

Lemma parseNativeFee_unit_witness :
  parseNativeFee ("2.0" +:+ " " +:+ "Fuse") 42220 = parseNativeFee "2.0" 42220 /\
  ("2.0" = "" ->
   parseNativeFee ("2.0" +:+ " " +:+ "Fuse") 42220 = Throw (Err "Error" "Invalid fee format")).
Proof.
  apply (parseNativeFee_unit "2.0" "Fuse" 42220). reflexivity.
Defined.

(** X18: the two balance checks, of utils/decimals.ts and of
    utils/fees.ts, accept the same balances: exactly those that cover the
    amount plus the fee ([calculateTotalCost]); the check of decimals.ts
    never throws, takes a fee left out as 0 and gives a reason exactly
    when it refuses. *)
Theorem balance_checks_agree (balance amount fee : Z) :
  exists v v0,
    DecimalsTs.validateSufficientBalance balance amount (Some fee) = Return v /\
    DecimalsTs.validateSufficientBalance balance amount None = Return v0 /\
    bv_isValid v = isValid (FeesTs.validateSufficientBalance balance amount fee) /\
    (bv_isValid v = true <-> calculateTotalCost amount fee <= balance) /\
    (bv_isValid v0 = true <-> amount <= balance) /\
    (bv_isValid v = true <-> reason v = None) /\
    (isValid (FeesTs.validateSufficientBalance balance amount fee) = true
     <-> v_error (FeesTs.validateSufficientBalance balance amount fee) = None).
Proof.
  unfold DecimalsTs.validateSufficientBalance, FeesTs.validateSufficientBalance,
    calculateTotalCost, formatAmount.
  change (BigInt_pow 10 18) with (Return (A:=Z) (10 ^ 18)).
  change (default 0 (Some fee)) with fee. change (default 0 None) with 0.
  cbn [mbind Completion_bind].
  rewrite Z.add_0_r.
  destruct (decide (balance < amount + fee)); destruct (decide (balance < amount));
    repeat case_decide; cbn [mbind Completion_bind];
    eexists _, _; (split; [reflexivity|]); (split; [reflexivity|]);
    cbn [bv_isValid reason isValid v_error];
    repeat split; intros; try lia; try discriminate; try reflexivity.
Qed.

(** X19: the explorer link of utils/tracking.ts and the one of the class
    are the same, the URL of the protocol's explorer in constants.ts
    followed by the hash; a link tells the hash and the protocol it was
    made for. *)
Theorem explorer_links (txHash : string) (p : BridgeProtocol) :
  TrackingTs.getExplorerLink txHash p = ViemSdkMore.explorerLink txHash p /\
  TrackingTs.getExplorerLink txHash p
  = (match p with
     | LAYERZERO => EXPLORER_URLS_LAYERZERO txHash
     | AXELAR => EXPLORER_URLS_AXELAR txHash
     end) /\
  (forall txHash' p',
     TrackingTs.getExplorerLink txHash' p' = TrackingTs.getExplorerLink txHash p ->
     txHash' = txHash /\ p' = p).
Proof.
  split; [|split].
  - unfold TrackingTs.getExplorerLink, ViemSdkMore.explorerLink.
    destruct p; case_decide; congruence.
  - destruct p; reflexivity.
  - intros txHash' p'. unfold TrackingTs.getExplorerLink.
    destruct p, p'; cbv beta iota delta [String.append]; intros H;
      try discriminate H; injection H as ->; auto.
Qed.

(** ** Transaction hashes and the history *)
Module HashFacts.

Lemma length_take n s : String.length (take n s) = Nat.min n (String.length s).
Proof.
  revert s. induction n as [|n IH]; intros [|c s]; simpl; try reflexivity.
  now rewrite IH.
Qed.

Lemma length_drop n s : String.length (JsStr.drop n s) = (String.length s - n)%nat.
Proof.
  revert s. induction n as [|n IH]; intros [|c s]; simpl; try reflexivity.
  now rewrite IH.
Qed.

Lemma slice0_6 s : slice0 s 6 = take 6 s.
Proof. reflexivity. Qed.

Lemma slice_from_last4 s : JsStr.slice_from s (-4) = JsStr.drop (String.length s - 4) s.
Proof.
  unfold JsStr.slice_from, len. change (-4 <? 0) with true. cbv iota.
  f_equal. lia.
Qed.

Lemma isValidTxHash_inv hash :
  TrackingTs.isValidTxHash hash = true ->
  exists r, hash = String "0" (String "x" r) /\ String.length r = 64%nat /\
            JsStr.all_chars JsStr.is_hex r = true.
Proof.
  destruct hash as [|c0 [|c1 r]]; try discriminate.
  - destruct c0 as [[] [] [] [] [] [] [] []]; discriminate.
  - destruct (decide (c0 = "0"%char)) as [->|N0].
    2:{ destruct c0 as [[] [] [] [] [] [] [] []]; try discriminate. congruence. }
    destruct (decide (c1 = "x"%char)) as [->|N1].
    2:{ destruct c1 as [[] [] [] [] [] [] [] []]; try discriminate. congruence. }
    unfold TrackingTs.isValidTxHash. intros H. apply andb_true_iff in H as [Hl Hh].
    apply Nat.eqb_eq in Hl. eauto.
Qed.

(** Insertion keeps the entries. *)
Lemma sort_insert_perm {A} (cmp : A -> A -> Z) (x : A) (l : list A) :
  JsStr.sort_insert cmp x l ≡ₚ x :: l.
Proof.
  induction l as [|y l IH]; simpl; [reflexivity|].
  case_decide; [reflexivity|]. rewrite IH. apply Permutation_swap.
Qed.

Lemma sort_perm {A} (cmp : A -> A -> Z) (l : list A) : JsStr.sort cmp l ≡ₚ l.
Proof.
  induction l as [|x l IH]; simpl; [reflexivity|].
  unfold JsStr.sort in *. simpl. rewrite sort_insert_perm. now rewrite IH.
Qed.

Lemma compareHistory_le a b :
  ViemSdkMore.compareHistory a b <= 0 <-> blockNumber b <= blockNumber a.
Proof. unfold ViemSdkMore.compareHistory. repeat case_decide; lia. Qed.

Lemma sort_insert_latestFirst x l :
  latestFirst l -> latestFirst (JsStr.sort_insert ViemSdkMore.compareHistory x l).
Proof.
  induction l as [|y l IH]; simpl; [intros _; split; [constructor | exact I]|].
  intros [Hy Hl]. case_decide as Hc.
  - apply compareHistory_le in Hc. simpl. split; [|split; assumption].
    constructor; [assumption|].
    eapply Forall_impl; [exact Hy|]. simpl. intros; lia.
  - rewrite compareHistory_le in Hc. simpl. split; [|apply IH; assumption].
    rewrite sort_insert_perm. constructor; [lia | assumption].
Qed.

Lemma sort_latestFirst l : latestFirst (JsStr.sort ViemSdkMore.compareHistory l).
Proof.
  induction l as [|x l IH]; [exact I|].
  unfold JsStr.sort in *. simpl. apply sort_insert_latestFirst, IH.
Qed.

(** Insertion keeps the order of the entries of a block. *)
Lemma sort_insert_ofBlock n x l :
  ofBlock n (JsStr.sort_insert ViemSdkMore.compareHistory x l) = ofBlock n (x :: l).
Proof.
  unfold ofBlock. induction l as [|y l IH]; simpl; [reflexivity|].
  case_decide as Hc; [reflexivity|].
  rewrite compareHistory_le in Hc.
  rewrite (filter_cons _ y), IH, !(filter_cons _ x), (filter_cons _ y).
  repeat case_decide; try reflexivity; lia.
Qed.

Lemma sort_ofBlock n l : ofBlock n (JsStr.sort ViemSdkMore.compareHistory l) = ofBlock n l.
Proof.
  induction l as [|x l IH]; [reflexivity|].
  unfold JsStr.sort in *. simpl. rewrite sort_insert_ofBlock.
  unfold ofBlock in *. rewrite !(filter_cons _ x), IH. reflexivity.
Qed.
End HashFacts.

Import HashFacts.

(** X20: [truncateTxHash] keeps the first six and the last four
    characters around "...": never more than 13 characters, and exactly
    "0x", four digits, "...", four digits for a hash that [isValidTxHash]
    accepts, which has 66 characters. *)
Theorem truncateTxHash_shape (hash : string) :
  TrackingTs.truncateTxHash hash
  = take 6 hash +:+ "..." +:+ JsStr.drop (String.length hash - 4) hash /\
  String.length (TrackingTs.truncateTxHash hash)
  = (Nat.min 6 (String.length hash) + 3 + Nat.min 4 (String.length hash))%nat /\
  (TrackingTs.isValidTxHash hash = true ->
   String.length hash = 66%nat /\
   String.length (TrackingTs.truncateTxHash hash) = 13%nat /\
   take 2 (TrackingTs.truncateTxHash hash) = "0x").
Proof.
  assert (E : TrackingTs.truncateTxHash hash
              = take 6 hash +:+ "..." +:+ JsStr.drop (String.length hash - 4) hash).
  { unfold TrackingTs.truncateTxHash. now rewrite slice0_6, slice_from_last4. }
  assert (L : String.length (TrackingTs.truncateTxHash hash)
              = (Nat.min 6 (String.length hash) + 3 + Nat.min 4 (String.length hash))%nat).
  { rewrite E, !length_append, length_take, length_drop. simpl String.length. lia. }
  split; [exact E|]. split; [exact L|].
  intros (r & -> & Hr & _)%isValidTxHash_inv.
  assert (H66 : String.length (String "0" (String "x" r)) = 66%nat) by (simpl; lia).
  split; [exact H66|]. split; [rewrite L, H66; reflexivity|].
  rewrite E. reflexivity.
Qed.

(** X21: the history that [getHistory] returns once both lists of events
    have arrived has exactly the entries of the two lists, the later
    blocks first, and the entries of one block in the order they came:
    the requests before the executed transfers, each in the order of its
    list. *)
Theorem mergeHistory_sorted (requests : list BridgeRequestEvent)
    (executed : list ExecutedTransferEvent) :
  ViemSdkMore.mergeHistory requests executed
    ≡ₚ ((inl <$> requests) ++ (inr <$> executed))%list /\
  latestFirst (ViemSdkMore.mergeHistory requests executed) /\
  (forall n,
     ofBlock n (ViemSdkMore.mergeHistory requests executed)
     = (ofBlock n (inl <$> requests) ++ ofBlock n (inr <$> executed))%list).
Proof.
  unfold ViemSdkMore.mergeHistory. split; [apply sort_perm|].
  split; [apply sort_latestFirst|].
  intros n. rewrite sort_ofBlock. unfold ofBlock. apply filter_app.
Qed.

(** X22: a transfer is only reported as completed when the scan API of
    its protocol says so: utils/tracking.ts makes one request, always
    resolves, and resolves to [completed] exactly when the response is ok
    and its first message is DELIVERED (LayerZero) or its first
    transaction executed (Axelar); the class of viem-sdk.ts, when it
    resolves, does so on the same word, whether the response is ok or
    not. *)
Theorem completed_only_when_delivered {T} (w : World) (t : T) (sdk : ViemSdk.BridgingSDK)
    (h : list Event) (txHash : string) (p : BridgeProtocol) :
  (exists url r,
     Tracking.getTransactionStatus txHash p w t h = (t, (h ++ [Fetch url])%list, Return r) /\
     (status r = completed <-> firstStatus w h txHash p = Some (true, deliveredWord p))) /\
  (forall sdk' h' r,
     ViemSdk.getTransactionStatus txHash p w sdk h = (sdk', h', Return r) ->
     (status r = completed <->
      exists isOk, firstStatus w h txHash p = Some (isOk, deliveredWord p))).
Proof.
  split.
  - unfold Tracking.getTransactionStatus, firstStatus, deliveredWord. destruct p.
    + unfold Tracking.getAxelarStatus. run.
      destruct (w_fetchAxelar w h txHash) as [resp|e].
      2:{ eexists _, _. split; [reflexivity|]. simpl. split; intros; discriminate. }
      destruct (ok resp); cbn [negb].
      2:{ eexists _, _. split; [reflexivity|]. simpl.
          split; [discriminate|]. repeat case_match; intros; simplify_eq. }
      destruct (json resp) as [body|e].
      2:{ eexists _, _. split; [reflexivity|]. simpl. split; intros; discriminate. }
      destruct (data body) as [[|tx txs]|];
        try (eexists _, _; split; [reflexivity|]; simpl; split; intros; discriminate).
      repeat case_decide; (eexists _, _; split; [reflexivity|]); simpl;
        split; intros; simplify_eq; congruence.
    + unfold Tracking.getLayerZeroStatus. run.
      destruct (w_fetchLayerZero w h txHash) as [resp|e].
      2:{ eexists _, _. split; [reflexivity|]. simpl. split; intros; discriminate. }
      destruct (ok resp); cbn [negb].
      2:{ eexists _, _. split; [reflexivity|]. simpl.
          split; [discriminate|]. repeat case_match; intros; simplify_eq. }
      destruct (json resp) as [body|e].
      2:{ eexists _, _. split; [reflexivity|]. simpl. split; intros; discriminate. }
      destruct (messages body) as [[|m ms]|];
        try (eexists _, _; split; [reflexivity|]; simpl; split; intros; discriminate).
      repeat case_decide; (eexists _, _; split; [reflexivity|]); simpl;
        split; intros; simplify_eq; congruence.
  - intros sdk' h' r. unfold ViemSdk.getTransactionStatus, firstStatus, deliveredWord.
    destruct p; (case_decide; [|try congruence]); try congruence.
    + unfold ViemSdk.getAxelarStatus. run.
      destruct (w_fetchAxelar w h txHash) as [resp|e]; [|discriminate].
      destruct (json resp) as [body|e]; [|discriminate].
      destruct (data body) as [[|tx txs]|]; intros [= _ _ <-]; simpl;
        try (split; [discriminate | intros [? [=]]]).
      destruct (decide (ax_status tx = "executed")) as [E|N].
      * split; [intros _; exists (ok resp); rewrite E; reflexivity | reflexivity].
      * split; [case_decide; discriminate | intros [? [=]]; congruence].
    + unfold ViemSdk.getLayerZeroStatus. run.
      destruct (w_fetchLayerZero w h txHash) as [resp|e]; [|discriminate].
      destruct (json resp) as [body|e]; [|discriminate].
      destruct (messages body) as [[|m ms]|]; intros [= _ _ <-]; simpl;
        try (split; [discriminate | intros [? [=]]]).
      destruct (decide (lz_status m = "DELIVERED")) as [E|N].
      * split; [intros _; exists (ok resp); rewrite E; reflexivity | reflexivity].
      * split; [case_decide; discriminate | intros [? [=]]; congruence].
Qed.

(** ** The BridgingSDK class: the window of the event queries *)
Module WindowFacts.

Lemma length_list_slice0 {A} (l : list A) (n : Z) :
  0 < n -> length (list_slice0 l n) = Nat.min (Z.to_nat n) (length l).
Proof.
  intros Hn. unfold list_slice0.
  destruct (n <? 0) eqn:E; [apply Z.ltb_lt in E; lia|].
  apply length_firstn.
Qed.

Lemma list_slice0_prefix {A} (l : list A) (n : Z) : list_slice0 l n `prefix_of` l.
Proof. unfold list_slice0. destruct (n <? 0); apply prefix_take. Qed.

Lemma fmap_prefix {A B} (f : A -> B) (l1 l2 : list A) :
  l1 `prefix_of` l2 -> (f <$> l1) `prefix_of` (f <$> l2).
Proof. intros [k ->]. exists (f <$> k). apply fmap_app. Qed.
End WindowFacts.

Import WindowFacts.

(** X23: viem-sdk.ts: [getBridgeRequests], when it returns, has asked the
    chain for its block number and then once for the BridgeRequest events
    of the address on the bridge contract of the current chain, from the
    block of the options or, when that is left out or 0, from 50000
    blocks before the current one (not before block 0), up to the block
    of the options or the latest.  It returns the first logs of the
    answer, in their order: all of them, or as many as the limit (1000
    when left out or 0) when that is positive. *)
Theorem getBridgeRequests_window (w : World) (sdk sdk' : ViemSdk.BridgingSDK)
    (h h' : list Event) (address : string) (options : option EventOptions)
    (events : list BridgeRequestEvent) :
  ViemSdk.getBridgeRequests address options w sdk h = (sdk', h', Return events) ->
  exists contractAddress currentBlock logs,
    let q := requestsQuery contractAddress address options (windowStart currentBlock) in
    sdk' = sdk /\ h' = (h ++ [GetBlockNumber; GetContractEvents q])%list /\
    BRIDGE_CONTRACT_ADDRESSES !! ViemSdk.currentChainId sdk = Some contractAddress /\
    w_getBlockNumber w h = Return currentBlock /\
    w_getContractEvents w (h ++ [GetBlockNumber])%list q = Return logs /\
    0 <= windowStart currentBlock /\ currentBlock - 50000 <= windowStart currentBlock /\
    (br_transactionHash <$> events) `prefix_of` (log_transactionHash <$> logs) /\
    (br_blockNumber <$> events) `prefix_of` (log_blockNumber <$> logs) /\
    (0 < queryLimit options ->
     length events = Nat.min (Z.to_nat (queryLimit options)) (length logs)).
Proof.
  unfold ViemSdk.getBridgeRequests. run.
  destruct (BRIDGE_CONTRACT_ADDRESSES !! ViemSdk.currentChainId sdk)
    as [contractAddress|] eqn:Haddr; cbn [or_str].
  2:{ destruct (decide ("" = "")); [discriminate | congruence]. }
  destruct (decide (contractAddress = "")) as [->|Hne].
  { destruct (decide ("" = "")); [discriminate | congruence]. }
  destruct (decide (contractAddress = "")); [contradiction|].
  destruct (w_getBlockNumber w h) as [currentBlock|e] eqn:Hb; [|discriminate].
  match goal with
  | |- context [w_getContractEvents w _ ?q0] =>
      assert (Hq : q0 = requestsQuery contractAddress address options
                          (windowStart currentBlock))
  end.
  { unfold requestsQuery, or_num, windowStart. f_equal.
    change (option_bind EventOptions Z fromBlock options) with (options ≫= fromBlock).
    destruct (options ≫= fromBlock); repeat case_decide; lia. }
  rewrite Hq.
  destruct (w_getContractEvents w _ _) as [logs|e] eqn:Hl; [|discriminate].
  intros [= <- <- <-].
  exists contractAddress, currentBlock, logs. cbv zeta.
  change (or_num (option_bind EventOptions Z limit options) EVENT_QUERY_BATCH_SIZE)
    with (queryLimit options).
  split; [reflexivity|]. split; [now rewrite <- app_assoc|].
  split; [reflexivity|]. split; [reflexivity|]. split; [exact Hl|].
  unfold windowStart. split; [lia|]. split; [lia|].
  split; [|split].
  - rewrite <- list_fmap_compose. apply (fmap_prefix log_transactionHash), list_slice0_prefix.
  - rewrite <- list_fmap_compose. apply (fmap_prefix log_blockNumber), list_slice0_prefix.
  - intros Hpos. rewrite length_map. apply length_list_slice0, Hpos.
Qed.

Lemma getBridgeRequests_window_witness :
  exists contractAddress currentBlock logs,
    let q := requestsQuery contractAddress "0xSender" None (windowStart currentBlock) in
    celo_sdk = celo_sdk /\
    [GetBlockNumber;
     GetContractEvents
       (requestsQuery "0xa3247276dbcc76dd7705273f766eb3e8a5ecf4a5" "0xSender" None 10000)]
    = ([] ++ [GetBlockNumber; GetContractEvents q])%list /\
    BRIDGE_CONTRACT_ADDRESSES !! ViemSdk.currentChainId celo_sdk = Some contractAddress /\
    w_getBlockNumber bridge_world [] = Return currentBlock /\
    w_getContractEvents bridge_world ([] ++ [GetBlockNumber])%list q = Return logs /\
    0 <= windowStart currentBlock /\ currentBlock - 50000 <= windowStart currentBlock /\
    (br_transactionHash <$> [bridge_world_request AXELAR])
      `prefix_of` (log_transactionHash <$> logs) /\
    (br_blockNumber <$> [bridge_world_request AXELAR])
      `prefix_of` (log_blockNumber <$> logs) /\
    (0 < queryLimit None ->
     length [bridge_world_request AXELAR] = Nat.min (Z.to_nat (queryLimit None)) (length logs)).
Proof.
  apply (getBridgeRequests_window bridge_world celo_sdk celo_sdk [] _ "0xSender" None
           [bridge_world_request AXELAR]).
  vm_compute. reflexivity.
Defined.

(** X24: unnamed/part_003: the other variant of [getBridgeRequests] does
    not ask for the block number: it queries from the block of the
    options or, when that is left out or 0, from block 0, and returns the
    first logs of the answer under the same limit. *)
Theorem part003_getBridgeRequests_window (w : World) (sdk sdk' : Part003.BridgingSDK)
    (h h' : list Event) (address : string) (options : option EventOptions)
    (events : list BridgeRequestEvent) :
  Part003.getBridgeRequests address options w sdk h = (sdk', h', Return events) ->
  exists contractAddress logs,
    let q := requestsQuery contractAddress address options 0 in
    sdk' = sdk /\ h' = (h ++ [GetContractEvents q])%list /\
    BRIDGE_CONTRACT_ADDRESSES !! Part003.currentChainId sdk = Some contractAddress /\
    w_getContractEvents w h q = Return logs /\
    (br_transactionHash <$> events) `prefix_of` (log_transactionHash <$> logs) /\
    (br_blockNumber <$> events) `prefix_of` (log_blockNumber <$> logs) /\
    (0 < queryLimit options ->
     length events = Nat.min (Z.to_nat (queryLimit options)) (length logs)).
Proof.
  unfold Part003.getBridgeRequests. run.
  destruct (BRIDGE_CONTRACT_ADDRESSES !! Part003.currentChainId sdk)
    as [contractAddress|] eqn:Haddr; cbn [or_str].
  2:{ destruct (decide ("" = "")); [discriminate | congruence]. }
  destruct (decide (contractAddress = "")) as [->|Hne].
  { destruct (decide ("" = "")); [discriminate | congruence]. }
  destruct (decide (contractAddress = "")); [contradiction|].
  match goal with
  | |- context [w_getContractEvents w _ ?q0] =>
      assert (Hq : q0 = requestsQuery contractAddress address options 0)
  end.
  { reflexivity. }
  rewrite Hq.
  destruct (w_getContractEvents w _ _) as [logs|e] eqn:Hl; [|discriminate].
  intros [= <- <- <-].
  exists contractAddress, logs. cbv zeta.
  change (or_num (option_bind EventOptions Z limit options) EVENT_QUERY_BATCH_SIZE)
    with (queryLimit options).
  split; [reflexivity|]. split; [reflexivity|].
  split; [reflexivity|]. split; [exact Hl|].
  split; [|split].
  - rewrite <- list_fmap_compose. apply (fmap_prefix log_transactionHash), list_slice0_prefix.
  - rewrite <- list_fmap_compose. apply (fmap_prefix log_blockNumber), list_slice0_prefix.
  - intros Hpos. rewrite length_map. apply length_list_slice0, Hpos.
Qed.

Lemma part003_getBridgeRequests_window_witness :
  exists contractAddress logs,
    let q := requestsQuery contractAddress "0xSender" None 0 in
    celo_sdk3 = celo_sdk3 /\
    [GetContractEvents
       (requestsQuery "0xa3247276dbcc76dd7705273f766eb3e8a5ecf4a5" "0xSender" None 0)]
    = ([] ++ [GetContractEvents q])%list /\
    BRIDGE_CONTRACT_ADDRESSES !! Part003.currentChainId celo_sdk3 = Some contractAddress /\
    w_getContractEvents bridge_world [] q = Return logs /\
    (br_transactionHash <$> [bridge_world_request LAYERZERO])
      `prefix_of` (log_transactionHash <$> logs) /\
    (br_blockNumber <$> [bridge_world_request LAYERZERO])
      `prefix_of` (log_blockNumber <$> logs) /\
    (0 < queryLimit None ->
     length [bridge_world_request LAYERZERO]
     = Nat.min (Z.to_nat (queryLimit None)) (length logs)).
Proof.
  apply (part003_getBridgeRequests_window bridge_world celo_sdk3 celo_sdk3 [] _ "0xSender" None
           [bridge_world_request LAYERZERO]).
  vm_compute. reflexivity.
Defined.

(** ** The BridgingSDK class: the entry points of a transfer *)
Module EntryFacts.

Lemma fetches_callsOnly (fn : string) (args : list AbiValue) (fetches steps : list Event) :
  Forall (fun ev => ev = Fetch GOODSERVER_FEES) fetches ->
  callsOnly fn args steps -> callsOnly fn args (fetches ++ steps)%list.
Proof.
  intros Hf. unfold callsOnly, writes, simulated. rewrite !omap_app.
  assert (E : omap (fun ev => match ev with SimulateContract c => Some c | _ => None end)
                fetches = []
              /\ omap (fun ev => match ev with WriteContract c => Some c | _ => None end)
                   fetches = []).
  { induction Hf as [|ev l -> _ [IH1 IH2]]; [split; reflexivity|]. cbn. auto. }
  destruct E as [-> ->]. auto.
Qed.

Lemma steps_callsOnly (chainId : Z) (opts : BridgeOpts) (account : string) (fee : Z)
    (request : ContractCall) (hash : string) (steps : list Event) :
  steps `prefix_of` transferSteps (transferCall chainId opts account fee) request hash ->
  callsOnly (BridgeFn_name (o_fn opts)) (o_args opts) steps.
Proof.
  intros [k Hk]. unfold transferSteps in Hk. unfold callsOnly.
  destruct steps as [|a [|b [|c [|d [|e s]]]]]; simplify_eq/=;
    (split; [lia | repeat constructor]).
Qed.

Lemma viem_bridgeInternal_calls (w : World) (sdk : ViemSdk.BridgingSDK) (h : list Event)
    (opts : BridgeOpts) :
  exists sdk' new r,
    ViemSdk.bridgeInternal opts w sdk h = (sdk', (h ++ new)%list, r) /\
    callsOnly (BridgeFn_name (o_fn opts)) (o_args opts) new.
Proof.
  destruct (viem_bridgeInternal_steps w sdk h opts)
    as (sdk' & fetches & steps & r & E & _ & _ & Hf & _ & account & request & hash & fee
        & Hp & _).
  exists sdk', (fetches ++ steps)%list, r. split; [exact E|].
  apply fetches_callsOnly; [exact Hf|]. eapply steps_callsOnly, Hp.
Qed.

Lemma part003_bridgeInternal_calls (w : World) (sdk : Part003.BridgingSDK) (h : list Event)
    (opts : BridgeOpts) :
  exists new r,
    Part003.bridgeInternal opts w sdk h = (sdk, (h ++ new)%list, r) /\
    callsOnly (BridgeFn_name (o_fn opts)) (o_args opts) new.
Proof.
  destruct (part003_bridgeInternal_steps w sdk h opts)
    as (fetches & steps & r & E & Hf & _ & account & request & hash & fee & Hp & _).
  exists (fetches ++ steps)%list, r. split; [exact E|].
  apply fetches_callsOnly; [exact Hf|]. eapply steps_callsOnly, Hp.
Qed.
End EntryFacts.

Import EntryFacts.

(** X25: in both variants of the SDK, [bridgeToWithLz] simulates at most
    one call, of the contract's [bridgeToWithLzAdapterParams] with the
    target, the target chain, the amount and the adapter parameters ("0x"
    when they are left out or empty), and [bridgeToWithAxelar] at most
    one call of the contract's [bridgeToWithAxelar] with the target, the
    target chain and the amount: the gas refund address is not passed on.
    Neither writes a request that it did not simulate first. *)
Theorem entry_points_simulate (w : World) (sdk : ViemSdk.BridgingSDK)
    (sdk3 : Part003.BridgingSDK) (h : list Event) (target : string)
    (targetChainId amount : Z) (adapterParams gasRefundAddress : option string)
    (msgValue : option Z) :
  let lzArgs := [VAddress target; VUint targetChainId; VUint amount;
                 VBytes (or_str adapterParams "0x")] in
  let axelarArgs := [VAddress target; VUint targetChainId; VUint amount] in
  (exists sdk' new r,
     ViemSdkMore.bridgeToWithLz target targetChainId amount adapterParams msgValue w sdk h
     = (sdk', (h ++ new)%list, r) /\
     callsOnly "bridgeToWithLzAdapterParams" lzArgs new) /\
  (exists sdk' new r,
     ViemSdkMore.bridgeToWithAxelar target targetChainId amount gasRefundAddress msgValue
       w sdk h = (sdk', (h ++ new)%list, r) /\
     callsOnly "bridgeToWithAxelar" axelarArgs new) /\
  (exists new r,
     Part003More.bridgeToWithLz target targetChainId amount adapterParams msgValue w sdk3 h
     = (sdk3, (h ++ new)%list, r) /\
     callsOnly "bridgeToWithLzAdapterParams" lzArgs new) /\
  (exists new r,
     Part003More.bridgeToWithAxelar target targetChainId amount gasRefundAddress msgValue
       w sdk3 h = (sdk3, (h ++ new)%list, r) /\
     callsOnly "bridgeToWithAxelar" axelarArgs new).
Proof.
  intros lzArgs axelarArgs. repeat split.
  - apply (viem_bridgeInternal_calls w sdk h
             {| o_targetChainId := targetChainId; o_protocol := LAYERZERO;
                o_msgValue := msgValue; o_fn := fn_bridgeToWithLzAdapterParams;
                o_args := lzArgs |}).
  - apply (viem_bridgeInternal_calls w sdk h
             {| o_targetChainId := targetChainId; o_protocol := AXELAR;
                o_msgValue := msgValue; o_fn := fn_bridgeToWithAxelar;
                o_args := axelarArgs |}).
  - apply (part003_bridgeInternal_calls w sdk3 h
             {| o_targetChainId := targetChainId; o_protocol := LAYERZERO;
                o_msgValue := msgValue; o_fn := fn_bridgeToWithLzAdapterParams;
                o_args := lzArgs |}).
  - apply (part003_bridgeInternal_calls w sdk3 h
             {| o_targetChainId := targetChainId; o_protocol := AXELAR;
                o_msgValue := msgValue; o_fn := fn_bridgeToWithAxelar;
                o_args := axelarArgs |}).
Qed.
